(** * Battmon: the monitor loop of [battmon.py]

    A shallow embedding of [MainRun.run_main_loop] and
    [MainRun.__check_battery_update_times] (src/Battmon/battmon.py).

    The loop talks to two collaborators that are imported modules
    ([battery_values.BatteryValues] and
    [battery_notifications.BatteryNotifications]).  Every call of a
    [BatteryValues] method is a fresh read of the operating system, so the
    telemetry is an oracle that is asked once per call; every call of a
    notification method, of [os.popen], of [print] and of [time.sleep] is
    recorded, in program order, in a trace.  The loop never returns, so all
    loops take a bound on their number of iterations and the world reached
    when the bound is hit keeps the trace produced so far. *)

From Stdlib Require Import ZArith List Bool Lia.
From Stdlib Require String Ascii.
Import ListNotations.
Local Open Scope Z_scope.

(** ** Telemetry *)

(** [battery_time()] returns the string ['Unknown'] or a time left. *)
Inductive BatteryTime : Type :=
| Unknown
| TimeLeft (minutes : Z).

Definition is_unknown (t : BatteryTime) : bool :=
  match t with Unknown => true | TimeLeft _ => false end.

(** What the operating system would answer to each [BatteryValues] method at
    one read. *)
Record Sample : Type := mkSample {
  batteryPresent : bool;
  acPresent : bool;
  discharging : bool;
  fullyCharged : bool;
  capacityPercent : Z;
  timeRemaining : BatteryTime }.

(** The answer may depend on the time slept so far and on how many reads
    were made before this one: two reads with no sleep between them need not
    agree. *)
Definition Telemetry : Type := Z -> nat -> Sample.

(** ** Configuration: the fields of [MainRun] the loop reads *)

Record MainRun : Type := mkMainRun {
  debug : bool;
  test : bool;
  play_sound : bool;
  timeout : Z;                     (* kwargs "timeout" * 1000, milliseconds *)
  battery_update_timeout : Z;
  battery_low_value : Z;
  battery_critical_value : Z;
  battery_minimal_value : Z;
  set_no_battery_remainder : Z }.

(** ** Effects *)

(** Methods of [self.notification]; the short command name passed to
    [minimal_battery_level] is a fixed string and is left out. *)
Inductive Notification : Type :=
| battery_discharging (capacity : Z) (time : BatteryTime)
| low_capacity_level (capacity : Z) (time : BatteryTime)
| critical_battery_level (capacity : Z) (time : BatteryTime)
| minimal_battery_level (capacity : Z) (time : BatteryTime) (ms : Z)
| full_battery
| battery_charging (capacity : Z) (time : BatteryTime)
| battery_removed
| battery_plugged
| no_battery.

(** Arguments of [os.popen] in the loop. *)
Inductive Command : Type :=
| sound_command
| last_chance_notify_send (capacity : Z) (time : BatteryTime) (ms : Z)
| screenlock_command
| minimal_battery_level_command.

(** The [print] calls of the loop. *)
Inductive Message : Type :=
| dbg_discharging
| dbg_low
| dbg_critical
| dbg_hibernate
| dbg_full
| dbg_charging
| dbg_removed
| dbg_no_battery
| dbg_plugged
| dbg_time_unknown (t : BatteryTime)
| dbg_time_still_unknown (t : BatteryTime)
| test_hibernating.

Inductive Event : Type :=
| Sleep (seconds : Z)
| Notify (n : Notification)
| Popen (c : Command)
| Print (m : Message).

Record World : Type := mkWorld {
  clock : Z;              (* seconds slept so far *)
  reads : nat;            (* telemetry reads made so far *)
  trace : list Event }.   (* effects so far, oldest first *)

Inductive Outcome (A : Type) : Type :=
| Done (a : A) (w : World)
| OutOfFuel (w : World).
Arguments Done {A} a w.
Arguments OutOfFuel {A} w.

Definition world_of {A} (o : Outcome A) : World :=
  match o with Done _ w => w | OutOfFuel w => w end.

Definition M (A : Type) : Type := World -> Outcome A.

Definition ret {A} (a : A) : M A := fun w => Done a w.

Definition bind {A B} (m : M A) (k : A -> M B) : M B :=
  fun w => match m w with
           | Done a w' => k a w'
           | OutOfFuel w' => OutOfFuel w'
           end.

Definition out_of_fuel {A} : M A := fun w => OutOfFuel w.

Declare Scope battmon_scope.
Delimit Scope battmon_scope with battmon.
Notation "x <- m ;; k" := (bind m (fun x => k))
  (at level 61, m at next level, right associativity) : battmon_scope.
Notation "m ;; k" := (bind m (fun _ => k))
  (at level 61, right associativity) : battmon_scope.
Local Open Scope battmon_scope.

Definition emit (e : Event) : M unit :=
  fun w => Done tt (mkWorld (clock w) (reads w) (trace w ++ [e])).

(** [time.sleep(s)] *)
Definition sleep (s : Z) : M unit :=
  fun w => Done tt (mkWorld (clock w + s) (reads w) (trace w ++ [Sleep s])).

Definition notify (n : Notification) : M unit := emit (Notify n).
Definition popen (c : Command) : M unit := emit (Popen c).
Definition print (m : Message) : M unit := emit (Print m).

Definition when (b : bool) (m : M unit) : M unit :=
  if b then m else ret tt.

(** Loop control: what an iteration of a loop body asks for. *)
Inductive Ctl : Type := Continue | Break.

(** [while cond: body], at most [fuel] evaluations of [cond]. *)
Fixpoint while_ (fuel : nat) (cond : M bool) (body : M Ctl) : M unit :=
  match fuel with
  | O => out_of_fuel
  | S fuel' =>
      b <- cond ;;
      if b then
        c <- body ;;
        match c with
        | Continue => while_ fuel' cond body
        | Break => ret tt
        end
      else ret tt
  end.

(** [for i in range(n): body], where [body] does not use [i]. *)
Fixpoint for_range (n : nat) (body : M Ctl) : M unit :=
  match n with
  | O => ret tt
  | S n' =>
      c <- body ;;
      match c with
      | Continue => for_range n' body
      | Break => ret tt
      end
  end.

Section MonitorLoop.

Variable self : MainRun.
Variable tel : Telemetry.

(** *** [self.__battery_values]: one read per call *)

Definition read {A} (field : Sample -> A) : M A :=
  fun w => Done (field (tel (clock w) (reads w)))
                (mkWorld (clock w) (S (reads w)) (trace w)).

Definition is_battery_present : M bool := read batteryPresent.
Definition is_ac_present : M bool := read acPresent.
Definition is_battery_discharging : M bool := read discharging.
Definition is_battery_fully_charged : M bool := read fullyCharged.
Definition battery_current_capacity : M Z := read capacityPercent.
Definition battery_time : M BatteryTime := read timeRemaining.

(** *** [__check_battery_update_times] *)

Definition check_battery_update_times (fuel : nat) : M unit :=
  while_ fuel
    (t <- battery_time ;; ret (is_unknown t))
    (when (debug self)
       (t <- battery_time ;; print (dbg_time_unknown t)) ;;
     sleep (battery_update_timeout self) ;;
     t <- battery_time ;;
     if is_unknown t then
       when (debug self)
         (t' <- battery_time ;; print (dbg_time_still_unknown t')) ;;
       ret Break
     else ret Continue).

(** *** The conditions of [run_main_loop], with Python's short-circuit
    [and] and one read of the capacity per chained comparison *)

(** [not is_ac_present() and is_battery_discharging()] *)
Definition on_battery : M bool :=
  a <- is_ac_present ;;
  if negb a then is_battery_discharging else ret false.

(** [battery_current_capacity() > low and not is_ac_present()] *)
Definition above_low : M bool :=
  c <- battery_current_capacity ;;
  if c >? battery_low_value self
  then (a <- is_ac_present ;; ret (negb a)) else ret false.

(** [low >= battery_current_capacity() > critical and not is_ac_present()] *)
Definition in_low : M bool :=
  c <- battery_current_capacity ;;
  if (battery_low_value self >=? c) && (c >? battery_critical_value self)
  then (a <- is_ac_present ;; ret (negb a)) else ret false.

(** [critical >= battery_current_capacity() > minimal and not is_ac_present()] *)
Definition in_critical : M bool :=
  c <- battery_current_capacity ;;
  if (battery_critical_value self >=? c) && (c >? battery_minimal_value self)
  then (a <- is_ac_present ;; ret (negb a)) else ret false.

(** [battery_current_capacity() <= minimal and not is_ac_present()] *)
Definition at_minimal : M bool :=
  c <- battery_current_capacity ;;
  if c <=? battery_minimal_value self
  then (a <- is_ac_present ;; ret (negb a)) else ret false.

(** [is_ac_present() and not is_battery_discharging()] *)
Definition on_ac : M bool :=
  a <- is_ac_present ;;
  if a then (d <- is_battery_discharging ;; ret (negb d)) else ret false.

(** [is_ac_present() and is_battery_fully_charged()
     and not is_battery_discharging()] *)
Definition is_full : M bool :=
  a <- is_ac_present ;;
  if a then
    f <- is_battery_fully_charged ;;
    if f then (d <- is_battery_discharging ;; ret (negb d)) else ret false
  else ret false.

(** [is_ac_present() and not is_battery_fully_charged()
     and not is_battery_discharging()] *)
Definition is_charging : M bool :=
  a <- is_ac_present ;;
  if a then
    f <- is_battery_fully_charged ;;
    if negb f then (d <- is_battery_discharging ;; ret (negb d)) else ret false
  else ret false.

(** [not is_battery_present() and is_ac_present()] *)
Definition battery_missing : M bool :=
  p <- is_battery_present ;;
  if negb p then is_ac_present else ret false.

(** *** The state branches of [run_main_loop]

    Each branch is the code under one guard of the loop body: the wait for
    the battery time, the entry notification and the hold loop. *)

(** Lines 434-439: the notification and the hold loop of "discharging". *)
Definition discharging_hold (fuel : nat) : M unit :=
  c <- battery_current_capacity ;;
  t <- battery_time ;;
  notify (battery_discharging c t) ;;
  while_ fuel above_low (sleep 1 ;; ret Continue).

Definition discharging_branch (fuel : nat) : M unit :=
  when (debug self) (print dbg_discharging) ;;
  check_battery_update_times fuel ;;
  discharging_hold fuel.

(** Lines 449-454. *)
Definition low_hold (fuel : nat) : M unit :=
  c <- battery_current_capacity ;;
  t <- battery_time ;;
  notify (low_capacity_level c t) ;;
  while_ fuel in_low (sleep 1 ;; ret Continue).

Definition low_branch (fuel : nat) : M unit :=
  when (debug self) (print dbg_low) ;;
  check_battery_update_times fuel ;;
  low_hold fuel.

(** Lines 464-469. *)
Definition critical_hold (fuel : nat) : M unit :=
  c <- battery_current_capacity ;;
  t <- battery_time ;;
  notify (critical_battery_level c t) ;;
  while_ fuel in_critical (sleep 1 ;; ret Continue).

Definition critical_branch (fuel : nat) : M unit :=
  when (debug self) (print dbg_critical) ;;
  check_battery_update_times fuel ;;
  critical_hold fuel.

(** Lines 492-500: one pass of the first warning, "check if ac was
    plugged". *)
Definition warning_round : M Ctl :=
  b <- at_minimal ;;
  if b then sleep 2 ;; popen sound_command ;; ret Continue
  else ret Break.

(** Lines 491-500: "first warning, beep 5 times every two seconds". *)
Definition first_warning : M unit := for_range 5 warning_round.

(** Lines 502-520: "one more check if ac was plugged". *)
Definition last_chance : M unit :=
  b <- at_minimal ;;
  when b
    (sleep 2 ;;
     popen sound_command ;;
     c <- battery_current_capacity ;;
     t <- battery_time ;;
     popen (last_chance_notify_send c t (10 * 1000)) ;;
     sleep 10).

(** Lines 522-533: "LAST CHECK before hibernating"; its [break] leaves the
    [while is_battery_present()] loop. *)
Definition lock_and_hibernate : M Ctl :=
  b <- at_minimal ;;
  if b then
    for_range 4 (sleep 5 ;; popen sound_command ;; ret Continue) ;;
    sleep 1 ;;
    popen screenlock_command ;;
    popen minimal_battery_level_command ;;
    ret Continue
  else ret Break.

(** Lines 488-533: "the real thing". *)
Definition real_thing : M Ctl :=
  b <- at_minimal ;;
  if b then
    first_warning ;;
    last_chance ;;
    lock_and_hibernate
  else ret Continue.

(** Lines 536-543: "test block". *)
Definition test_block : M Ctl :=
  for_range 5
    (when (play_sound self) (popen sound_command) ;;
     b <- at_minimal ;;
     when b (sleep 2) ;;
     ret Continue) ;;
  print test_hibernating ;;
  sleep 10 ;;
  ret Continue.

(** Lines 484-545: "check once more if system should be hibernate". *)
Definition escalation : M Ctl :=
  b <- at_minimal ;;
  if b then
    if negb (test self) then real_thing
    else if test self then test_block
    else ret Continue
  else ret Continue.

(** Lines 474-545. *)
Definition hibernate_branch (fuel : nat) : M Ctl :=
  when (debug self) (print dbg_hibernate) ;;
  check_battery_update_times fuel ;;
  c <- battery_current_capacity ;;
  t <- battery_time ;;
  notify (minimal_battery_level c t (10 * 1000)) ;;
  escalation.

(** The body of the hold loops of "full" and "charging": watch for the
    removal of the battery. *)
Definition watch_removal (m : Message) : M Ctl :=
  p <- is_battery_present ;;
  if negb p then
    notify battery_removed ;;
    when (debug self) (print m) ;;
    sleep (timeout self / 1000) ;;
    ret Break
  else
    sleep 1 ;;
    ret Continue.

(** Lines 559-572. *)
Definition full_hold (fuel : nat) : M unit :=
  notify full_battery ;;
  while_ fuel is_full (watch_removal dbg_removed).

(** Lines 553-572: no call of [check_battery_update_times] here, the
    source sleeps once instead ("simulate ... behavior"). *)
Definition full_branch (fuel : nat) : M unit :=
  when (debug self) (print dbg_full) ;;
  sleep (battery_update_timeout self) ;;
  full_hold fuel.

(** Lines 583-598. *)
Definition charging_hold (fuel : nat) : M unit :=
  c <- battery_current_capacity ;;
  t <- battery_time ;;
  notify (battery_charging c t) ;;
  while_ fuel is_charging (watch_removal dbg_removed).

Definition charging_branch (fuel : nat) : M unit :=
  when (debug self) (print dbg_charging) ;;
  check_battery_update_times fuel ;;
  charging_hold fuel.

(** Lines 615-622 and 632-638: "check if battery was plugged". *)
Definition plugged : M unit :=
  notify battery_plugged ;;
  when (debug self) (print dbg_plugged) ;;
  sleep (timeout self / 1000).

(** Lines 610-638: the loop "to deal with situation when we don't have
    battery"; [no_battery_counter] is the loop's local counter. *)
Fixpoint no_battery_loop (fuel : nat) (no_battery_counter : Z) : M unit :=
  match fuel with
  | O => out_of_fuel
  | S fuel' =>
      p <- is_battery_present ;;
      if negb p then
        if set_no_battery_remainder self >? 0 then
          let remainder_time_in_sek := set_no_battery_remainder self * 60 in
          sleep 1 ;;
          let no_battery_counter := no_battery_counter + 1 in
          p1 <- is_battery_present ;;
          if p1 then plugged
          else
            p2 <- is_battery_present ;;
            if negb p2 && (no_battery_counter =? remainder_time_in_sek) then
              notify no_battery ;;
              no_battery_loop fuel' 1
            else no_battery_loop fuel' no_battery_counter
        else
          sleep 1 ;;
          p1 <- is_battery_present ;;
          if p1 then plugged
          else no_battery_loop fuel' no_battery_counter
      else ret tt
  end.

(** Lines 601-638: "check for no battery". *)
Definition no_battery_branch (fuel : nat) : M unit :=
  b <- battery_missing ;;
  when b
    (notify no_battery ;;
     when (debug self) (print dbg_no_battery) ;;
     no_battery_loop fuel 1).

(** Lines 425-545: "check if battery is discharging". *)
Definition discharge_block (fuel : nat) : M Ctl :=
  b <- on_battery ;;
  if b then
    b1 <- above_low ;;
    if b1 then discharging_branch fuel ;; ret Continue
    else
      b2 <- in_low ;;
      if b2 then low_branch fuel ;; ret Continue
      else
        b3 <- in_critical ;;
        if b3 then critical_branch fuel ;; ret Continue
        else
          b4 <- at_minimal ;;
          if b4 then hibernate_branch fuel
          else ret Continue
  else ret Continue.

(** Lines 548-598: "check if we have ac connected". *)
Definition ac_block (fuel : nat) : M unit :=
  b <- on_ac ;;
  when b
    (f <- is_full ;;
     when f (full_branch fuel) ;;
     c <- is_charging ;;
     when c (charging_branch fuel)).

(** The body of [while self.__battery_values.is_battery_present()]. *)
Definition battery_tick (fuel : nat) : M Ctl :=
  c <- discharge_block fuel ;;
  match c with
  | Break => ret Break
  | Continue => ac_block fuel ;; ret Continue
  end.

(** The body of [while True]. *)
Definition main_tick (fuel : nat) : M Ctl :=
  while_ fuel is_battery_present (battery_tick fuel) ;;
  no_battery_branch fuel ;;
  ret Continue.

Definition run_main_loop (fuel : nat) : M unit :=
  while_ fuel (ret true) (main_tick fuel).

End MonitorLoop.

(** ** Reading a trace *)

Definition new_events (w0 : World) (w : World) : list Event :=
  skipn (length (trace w0)) (trace w).

Definition notifications (tr : list Event) : list Notification :=
  flat_map (fun e => match e with Notify n => [n] | _ => [] end) tr.

Definition commands (tr : list Event) : list Command :=
  flat_map (fun e => match e with Popen c => [c] | _ => [] end) tr.

Definition w0 : World := mkWorld 0 0 [].

(** The defaults of the command line ([defaultOptions]). *)
Definition default_run : MainRun :=
  mkMainRun false false true (6 * 1000) 6 23 14 7 0.

(** ** The states of the loop, read off its guards *)

Inductive PowerState : Type :=
| NoBattery | Discharging | Low | Critical | Minimal | Full | Charging | ACIdle.

Section Guards.

Variable self : MainRun.
Variable s : Sample.

(** The guards of [run_main_loop] when every read of one pass answers from
    the same sample [s]. *)
Definition on_battery_of : bool := negb (acPresent s) && discharging s.
Definition above_low_of : bool :=
  (capacityPercent s >? battery_low_value self) && negb (acPresent s).
Definition in_low_of : bool :=
  (battery_low_value self >=? capacityPercent s)
  && (capacityPercent s >? battery_critical_value self)
  && negb (acPresent s).
Definition in_critical_of : bool :=
  (battery_critical_value self >=? capacityPercent s)
  && (capacityPercent s >? battery_minimal_value self)
  && negb (acPresent s).
Definition at_minimal_of : bool :=
  (capacityPercent s <=? battery_minimal_value self) && negb (acPresent s).
Definition on_ac_of : bool := acPresent s && negb (discharging s).
Definition is_full_of : bool :=
  acPresent s && fullyCharged s && negb (discharging s).
Definition is_charging_of : bool :=
  acPresent s && negb (fullyCharged s) && negb (discharging s).
Definition battery_missing_of : bool := negb (batteryPresent s) && acPresent s.

(** The guards on the path from the top of [while True] to the entry
    notification of each state; [ACIdle] is every other sample. *)
Definition entry_condition (st : PowerState) : bool :=
  match st with
  | NoBattery => battery_missing_of
  | Discharging => batteryPresent s && on_battery_of && above_low_of
  | Low => batteryPresent s && on_battery_of && in_low_of
  | Critical => batteryPresent s && on_battery_of && in_critical_of
  | Minimal => batteryPresent s && on_battery_of && at_minimal_of
  | Full => batteryPresent s && on_ac_of && is_full_of
  | Charging => batteryPresent s && on_ac_of && is_charging_of
  | ACIdle =>
      negb (battery_missing_of
            || batteryPresent s && on_battery_of
               && (above_low_of || in_low_of || in_critical_of || at_minimal_of)
            || batteryPresent s && on_ac_of && (is_full_of || is_charging_of))
  end.

(** The branch the loop takes on [s], following its [while], [if] and
    [elif] in program order. *)
Definition classify : PowerState :=
  if batteryPresent s then
    if on_battery_of then
      if above_low_of then Discharging
      else if in_low_of then Low
      else if in_critical_of then Critical
      else if at_minimal_of then Minimal
      else ACIdle
    else if on_ac_of then
      if is_full_of then Full
      else if is_charging_of then Charging
      else ACIdle
    else ACIdle
  else if battery_missing_of then NoBattery
  else ACIdle.

(** The table of section 4.2 of the specification, rows tried in order. *)
Definition classify_table : PowerState :=
  let cap := capacityPercent s in
  let draining := batteryPresent s && negb (acPresent s) && discharging s in
  if negb (batteryPresent s) && acPresent s then NoBattery
  else if draining && (cap >? battery_low_value self) then Discharging
  else if draining && (battery_critical_value self <? cap)
          && (cap <=? battery_low_value self) then Low
  else if draining && (battery_minimal_value self <? cap)
          && (cap <=? battery_critical_value self) then Critical
  else if draining && (cap <=? battery_minimal_value self) then Minimal
  else if acPresent s && negb (discharging s) && fullyCharged s then Full
  else if acPresent s && negb (discharging s) && negb (fullyCharged s)
       then Charging
  else ACIdle.

End Guards.

(** [minimal < critical < low <= 100], all positive: what [__main__] checks
    before it starts the loop. *)
Definition valid_thresholds (self : MainRun) : Prop :=
  0 < battery_minimal_value self
  /\ battery_minimal_value self < battery_critical_value self
  /\ battery_critical_value self < battery_low_value self
  /\ battery_low_value self <= 100.

(** ** Vocabulary for statements about runs *)

(** The world [w] after [k] more reads, [dt] more seconds of sleep and the
    further effects [evs]. *)
Definition extend (k : nat) (dt : Z) (evs : list Event) (w : World) : World :=
  mkWorld (clock w + dt) (k + reads w) (trace w ++ evs).

(** From every world, [m] returns [a] after sleeping [dt] seconds in all
    and producing exactly the effects [evs] (and some reads). *)
Definition yields {A} (m : M A) (a : A) (dt : Z) (evs : list Event) : Prop :=
  forall w, exists k, m w = Done a (extend k dt evs w).

(** From every world, [m] is still running when its loops have used up
    their bound, after [dt] seconds of sleep and exactly the effects
    [evs]. *)
Definition stalls {A} (m : M A) (dt : Z) (evs : list Event) : Prop :=
  forall w, exists k, m w = OutOfFuel (extend k dt evs w).

(** [n] repetitions of a group of events. *)
Definition rounds (n : nat) (evs : list Event) : list Event :=
  concat (repeat evs n).

(** Every effect of [m], from every world, satisfies [P]. *)
Definition emits {A} (P : Event -> Prop) (m : M A) : Prop :=
  forall w, exists tr,
    trace (world_of (m w)) = trace w ++ tr /\ Forall P tr.

(** Neither [os.popen(self.__screenlock_command)] nor
    [os.popen(self.__minimal_battery_level_command)]. *)
Definition harmless (e : Event) : Prop :=
  e <> Popen screenlock_command /\ e <> Popen minimal_battery_level_command.

(** The telemetry that answers every read from one sample. *)
Definition constant (s : Sample) : Telemetry := fun _ _ => s.

(** The entry notification and the hold loop of the states that have one
    (the code after the wait for the battery time). *)
Definition notify_and_hold (self : MainRun) (tel : Telemetry)
    (st : PowerState) (fuel : nat) : M unit :=
  match st with
  | Discharging => discharging_hold self tel fuel
  | Low => low_hold self tel fuel
  | Critical => critical_hold self tel fuel
  | Full => full_hold self tel fuel
  | Charging => charging_hold self tel fuel
  | NoBattery | Minimal | ACIdle => ret tt
  end.

(** [n] is the entry notification of the state [st]. *)
Definition announces (st : PowerState) (n : Notification) : Prop :=
  match st, n with
  | Discharging, battery_discharging _ _
  | Low, low_capacity_level _ _
  | Critical, critical_battery_level _ _
  | Minimal, minimal_battery_level _ _ _
  | Full, full_battery
  | Charging, battery_charging _ _
  | NoBattery, no_battery => True
  | _, _ => False
  end.

(** The durations of the sleeps of a trace. *)
Definition sleeps (tr : list Event) : list Z :=
  flat_map (fun e => match e with Sleep z => [z] | _ => [] end) tr.

(** A pass of the loop of [__check_battery_update_times] that starts in the
    world [w] reads the battery time in its guard, and once more after its
    sleep (in debug mode the [print] before the sleep reads it too). *)
Definition guard_read (tel : Telemetry) (w : World) : BatteryTime :=
  timeRemaining (tel (clock w) (reads w)).

Definition recheck_read (self : MainRun) (tel : Telemetry) (w : World)
  : BatteryTime :=
  timeRemaining
    (tel (clock w + battery_update_timeout self)
         (reads w + (if debug self then 2 else 1))%nat).

(** The battery time does not go from unknown to known within the pass that
    starts in [w]. *)
Definition steady_pass (self : MainRun) (tel : Telemetry) (w : World) : Prop :=
  is_unknown (guard_read tel w) = true ->
  is_unknown (recheck_read self tel w) = true.

(** The effects of the three phases of the escalation at the minimal level
    when no check fails; [c] and [t] are the capacity and the battery time
    read for the last-chance message. *)
Definition phase_A_events : list Event :=
  rounds 5 [Sleep 2; Popen sound_command].

Definition phase_B_events (c : Z) (t : BatteryTime) : list Event :=
  [Sleep 2; Popen sound_command;
   Popen (last_chance_notify_send c t (10 * 1000)); Sleep 10].

Definition phase_C_events : list Event :=
  rounds 4 [Sleep 5; Popen sound_command]
  ++ [Sleep 1; Popen screenlock_command; Popen minimal_battery_level_command].

(** Phase B in the words of section 4.2 of the specification: "play alert
    sound, emit a final last-chance notification with a fixed 10-second
    display timeout, then sleep 10s". *)
Definition phase_B_as_specified (c : Z) (t : BatteryTime) : list Event :=
  [Popen sound_command;
   Popen (last_chance_notify_send c t (10 * 1000)); Sleep 10].

(** The screen-lock and power commands of a trace, in order. *)
Definition power_commands (tr : list Event) : list Command :=
  filter (fun c => match c with
                   | screenlock_command | minimal_battery_level_command => true
                   | _ => false
                   end)
         (commands tr).

(** A sample at the minimal level: battery present, discharging, no AC,
    capacity 5 with the default thresholds. *)
Definition minimal_sample : Sample :=
  mkSample true false true false 5 (TimeLeft 4).

(** From every world, [m] returns, and every effect of it satisfies [P]. *)
Definition completes {A} (P : Event -> Prop) (m : M A) : Prop :=
  forall w, exists a k d tr,
    m w = Done a (extend k d tr w) /\ Forall P tr.

(** The world in which the last check before hibernating is made, for an
    escalation outside dry-run mode that starts in [w] and passes its two
    entry checks (lines 484 and 488): after those checks, the first warning
    and the last-chance step. *)
Definition last_check_world (self : MainRun) (tel : Telemetry) (w : World)
  : World :=
  world_of ((at_minimal self tel ;;
             at_minimal self tel ;;
             first_warning self tel ;;
             last_chance self tel) w).

(** A sample on AC, and a telemetry that shows it at one read only: the
    sixth read, which is the AC read of the first check of the first
    warning of an escalation started in [w0]. *)
Definition plugged_sample : Sample :=
  mkSample true true false false 5 (TimeLeft 4).

Definition ac_flicker : Telemetry :=
  fun _ q => if Nat.eqb q 5 then plugged_sample else minimal_sample.

(** A telemetry that shows AC at one read only: the twentieth, which is the
    AC read of the last check of an escalation started in [w0] in which
    every earlier check passes. *)
Definition last_flicker : Telemetry :=
  fun _ q => if Nat.eqb q 19 then plugged_sample else minimal_sample.

(** A telemetry in which AC is plugged 22 seconds after the entry into the
    minimal level, during the 10-second sleep of the last-chance step. *)
Definition late_plug : Telemetry :=
  fun t _ => if t <? 22 then minimal_sample else plugged_sample.

(** The effects before the first notification of a trace. *)
Fixpoint before_notification (tr : list Event) : list Event :=
  match tr with
  | [] => []
  | Notify _ :: _ => []
  | e :: tr' => e :: before_notification tr'
  end.

Definition debug_print (self : MainRun) (m : Message) : list Event :=
  if debug self then [Print m] else [].

(** The effects of [__check_battery_update_times] when every read answers
    from the sample [s]. *)
Definition wait_events (self : MainRun) (s : Sample) : list Event :=
  if is_unknown (timeRemaining s) then
    debug_print self (dbg_time_unknown (timeRemaining s))
    ++ [Sleep (battery_update_timeout self)]
    ++ debug_print self (dbg_time_still_unknown (timeRemaining s))
  else [].

(** The effects of the loop from the top of [while True] up to and
    including the entry notification, for the five states with a hold loop,
    when every read answers from the sample [s]. *)
Definition entry_events (self : MainRun) (s : Sample) (st : PowerState)
  : list Event :=
  match st with
  | Discharging =>
      debug_print self dbg_discharging ++ wait_events self s
      ++ [Notify (battery_discharging (capacityPercent s) (timeRemaining s))]
  | Low =>
      debug_print self dbg_low ++ wait_events self s
      ++ [Notify (low_capacity_level (capacityPercent s) (timeRemaining s))]
  | Critical =>
      debug_print self dbg_critical ++ wait_events self s
      ++ [Notify (critical_battery_level (capacityPercent s) (timeRemaining s))]
  | Charging =>
      debug_print self dbg_charging ++ wait_events self s
      ++ [Notify (battery_charging (capacityPercent s) (timeRemaining s))]
  | Full =>
      debug_print self dbg_full
      ++ [Sleep (battery_update_timeout self); Notify full_battery]
  | NoBattery | Minimal | ACIdle => []
  end.

(** The entry notification of those states on the sample [s]: the battery
    time is passed on as it was read, ['Unknown'] included. *)
Definition entry_notification (s : Sample) (st : PowerState)
  : list Notification :=
  match st with
  | Discharging => [battery_discharging (capacityPercent s) (timeRemaining s)]
  | Low => [low_capacity_level (capacityPercent s) (timeRemaining s)]
  | Critical => [critical_battery_level (capacityPercent s) (timeRemaining s)]
  | Charging => [battery_charging (capacityPercent s) (timeRemaining s)]
  | Full => [full_battery]
  | NoBattery | Minimal | ACIdle => []
  end.

(** The sleeps the loop makes on entry into a state before it fires the
    entry notification, on the sample [s]. *)
Definition entry_sleeps (self : MainRun) (s : Sample) (st : PowerState)
  : list Z :=
  match st with
  | Full => [battery_update_timeout self]
  | _ => if is_unknown (timeRemaining s)
         then [battery_update_timeout self] else []
  end.

(** Samples for the examples: neither branch of the loop body applies
    (battery present, AC present, discharging); no battery and no AC; a
    full battery on AC whose time is known. *)
Definition idle_sample : Sample :=
  mkSample true true true false 50 (TimeLeft 120).

Definition unpowered_sample : Sample :=
  mkSample false false false false 0 Unknown.

Definition full_sample : Sample :=
  mkSample true true false true 100 (TimeLeft 0).

(** The time [__check_battery_update_times] sleeps when every read answers
    from the sample [s]. *)
Definition wait_time (self : MainRun) (s : Sample) : Z :=
  if is_unknown (timeRemaining s) then battery_update_timeout self else 0.

(** The notifications of a trace with the time slept before each, counted
    from [now]. *)
Fixpoint notification_times (now : Z) (tr : list Event)
  : list (Z * Notification) :=
  match tr with
  | [] => []
  | Sleep z :: tr' => notification_times (now + z) tr'
  | Notify n :: tr' => (now, n) :: notification_times now tr'
  | _ :: tr' => notification_times now tr'
  end.

(** The defaults with a "no battery" reminder of one minute
    ([--set_no_battery_remainder 1]). *)
Definition reminder_run : MainRun :=
  mkMainRun false false true (6 * 1000) 6 23 14 7 1.

(** No battery, on AC. *)
Definition no_battery_sample : Sample :=
  mkSample false true false false 0 Unknown.

(** A battery that charges, with a known time. *)
Definition charging_sample : Sample :=
  mkSample true true false false 50 (TimeLeft 30).

(** The battery is put back between the third and the fourth read: the
    reads of lines 423 and 601 find no battery, the guard of the loop of
    line 610 finds one. *)
Definition battery_back : Telemetry :=
  fun _ q => if (q <? 3)%nat then no_battery_sample else charging_sample.

(** A telemetry that does not change between two reads with no sleep
    between them: the answer depends on the time slept only. *)
Definition stable (tel : Telemetry) : Prop :=
  forall t q q', tel t q = tel t q'.

(** The times of the checkpoints of an escalation entered at time [c] when
    no earlier checkpoint fails: the five checks of the first warning, the
    check of the last-chance step and the last check. *)
Definition checkpoint_clocks (c : Z) : list Z :=
  [c; c + 2; c + 4; c + 6; c + 8; c + 10; c + 22].

(** Whether a check of the escalation made at time [t] passes, for a
    stable telemetry. *)
Definition minimal_at (self : MainRun) (tel : Telemetry) (t : Z) : bool :=
  at_minimal_of self (tel t 0%nat).

(** ** Vocabulary for the hold loops over time *)

(** The guard of the hold loop of a state, on one sample (lines 437, 452,
    467, 561 and 587). *)
Definition hold_condition (self : MainRun) (s : Sample) (st : PowerState)
  : bool :=
  match st with
  | Discharging => above_low_of self s
  | Low => in_low_of self s
  | Critical => in_critical_of self s
  | Full => is_full_of s
  | Charging => is_charging_of s
  | NoBattery | Minimal | ACIdle => false
  end.

(** The hold loops of "full" and "charging" also watch the battery. *)
Definition watches (st : PowerState) : bool :=
  match st with Full | Charging => true | _ => false end.

(** What a stable telemetry answers at time [t]. *)
Definition at_time (tel : Telemetry) (t : Z) : Sample := tel t 0%nat.

(** A pass of the hold loop of [st] made at time [t] sleeps one second and
    goes on. *)
Definition holds_at (self : MainRun) (tel : Telemetry) (st : PowerState)
    (t : Z) : Prop :=
  hold_condition self (at_time tel t) st = true
  /\ (watches st = true -> batteryPresent (at_time tel t) = true).

(** The effects of [watch_removal] when the battery is gone. *)
Definition removal_events (self : MainRun) : list Event :=
  [Notify battery_removed] ++ debug_print self dbg_removed
  ++ [Sleep (timeout self / 1000)].

(** A battery that loses one percent per second from 30 percent, without
    AC; and a full battery on AC that is taken out after three seconds. *)
Definition drain : Telemetry :=
  fun t _ => mkSample true false true false (30 - t) (TimeLeft 10).

Definition taken_out : Telemetry :=
  fun t _ => mkSample (t <? 3) true false true 100 (TimeLeft 0).

(** The number of one-second sleeps between two "no battery"
    notifications, as the counter of lines 608-627 makes it. *)
Definition reminder_period (self : MainRun) : nat :=
  Z.to_nat (set_no_battery_remainder self * 60 - 1).

(** ** Vocabulary for the minimal level *)

(** The effects of the escalation when every read answers from a sample
    [s] at the minimal level: the test block in dry-run mode, the three
    phases otherwise. *)
Definition escalation_events (self : MainRun) (s : Sample) : list Event :=
  if test self then
    rounds 5 ((if play_sound self then [Popen sound_command] else [])
              ++ [Sleep 2])
    ++ [Print test_hibernating; Sleep 10]
  else
    phase_A_events
    ++ phase_B_events (capacityPercent s) (timeRemaining s)
    ++ phase_C_events.

(** The effects of one pass of the body of [while is_battery_present()] on
    such a sample. *)
Definition minimal_pass_events (self : MainRun) (s : Sample) : list Event :=
  debug_print self dbg_hibernate ++ wait_events self s
  ++ [Notify (minimal_battery_level (capacityPercent s) (timeRemaining s)
                (10 * 1000))]
  ++ escalation_events self s.

(** The number of reads of the battery time in one pass of the loop of
    [__check_battery_update_times] that does not break: the guard, the
    [print] in debug mode, the check after the sleep. *)
Definition pass_reads (self : MainRun) : nat := if debug self then 3 else 2.

(** From the world [w] on, the battery time reads unknown at the guard of
    every pass and known at the check after its sleep. *)
Definition flaps (self : MainRun) (tel : Telemetry) (w : World) : Prop :=
  forall t j,
    is_unknown (timeRemaining (tel t (reads w + j * pass_reads self)%nat))
    = true
    /\ is_unknown
         (timeRemaining
            (tel t (reads w + j * pass_reads self + (pass_reads self - 1))%nat))
       = false.

(** A battery time that is unknown at every even read and known at every
    odd read; a battery put back after two seconds. *)
Definition flapping : Telemetry :=
  fun _ q => mkSample true false true false 50
               (if Nat.even q then Unknown else TimeLeft 90).

Definition put_back : Telemetry :=
  fun t _ => if t <? 2 then no_battery_sample else charging_sample.

(** ** Vocabulary for the entry into a state *)

(** The code under the guard of a state that has a hold loop. *)
Definition branch_of (self : MainRun) (tel : Telemetry) (st : PowerState)
    (fuel : nat) : M unit :=
  match st with
  | Discharging => discharging_branch self tel fuel
  | Low => low_branch self tel fuel
  | Critical => critical_branch self tel fuel
  | Full => full_branch self tel fuel
  | Charging => charging_branch self tel fuel
  | NoBattery | Minimal | ACIdle => ret tt
  end.

(** The debug line of the branch. *)
Definition entry_message (st : PowerState) : Message :=
  match st with
  | Discharging => dbg_discharging
  | Low => dbg_low
  | Critical => dbg_critical
  | Full => dbg_full
  | Charging => dbg_charging
  | NoBattery => dbg_no_battery
  | Minimal | ACIdle => dbg_hibernate
  end.

(** What the branch does between its debug line and its notification: the
    wait for the battery time; the branch of "full" sleeps once instead
    (line 558). *)
Definition wait_of (self : MainRun) (tel : Telemetry) (st : PowerState)
    (fuel : nat) : M unit :=
  match st with
  | Discharging | Low | Critical | Charging =>
      check_battery_update_times self tel fuel
  | Full => sleep (battery_update_timeout self)
  | NoBattery | Minimal | ACIdle => ret tt
  end.

(** The reads of the telemetry from the top of [while True] to the branch
    of [st], when the entry condition of [st] holds on each of them: the
    guards of lines 423 to 457, or 423 to 577, with Python's short-circuit
    evaluation. *)
Definition entry_reads (st : PowerState) : nat :=
  match st with
  | Discharging => 5
  | Low => 6
  | Critical => 7
  | Full => 7
  | Charging => 9
  | NoBattery | Minimal | ACIdle => 0
  end.

(** The world in which the branch of [st] starts its wait, for a pass of
    [while True] that starts in [w]. *)
Definition wait_world (self : MainRun) (st : PowerState) (w : World)
  : World :=
  extend (entry_reads st) 0 (debug_print self (entry_message st)) w.

(** A battery at the low level whose time is unknown at every even read
    and known at every odd read. *)
Definition flap_low : Telemetry :=
  fun _ q => mkSample true false true false 20
               (if Nat.even q then Unknown else TimeLeft 45).

(** ** Start-up: the helpers of [MainRun.__init__] and the checks of
    [__main__]

    [os.path.isfile] and [str.split] are functions of Python's library and
    are taken as given; the notifications and prints of the start-up are
    recorded by kind. *)

Module Startup.

Import String Ascii.
Local Open Scope string_scope.

(** What the start-up code is given: the file system, Python's
    [str.split], the constants [PROGRAM_PATH] and [USER], and the fields of
    [self] it only reads. *)
Record Env : Type := mkEnv {
  isfile : string -> bool;
  split : string -> list string;
  PROGRAM_PATH : string;
  USER : string;
  found_notify_send_command : bool;
  disable_startup_notifications : bool;
  timeout : Z }.

(** The [os.popen] of a [notify-send] line and the [print]s of the
    start-up, by kind. *)
Inductive Effect : Type :=
| notify_using (command args : string) (ms : Z)
| print_using (command args : string)
| notify_lock_missing (ms : Z)
| print_lock_missing
| print_command (c : string)
| notify_minimal_missing (ms : Z)
| print_minimal_missing
| notify_system_will_be (short : string) (ms : Z)
| print_system_will_be (short : string).

(** The fields of [self] the start-up code writes. *)
Record State : Type := mkState {
  current_program_path : string;
  screenlock_command : string;
  minimal_battery_level_command : string;
  short_minimal_battery_command : string;
  effects : list Effect }.

Definition set_current_program_path (v : string) (st : State) : State :=
  mkState v (screenlock_command st) (minimal_battery_level_command st)
    (short_minimal_battery_command st) (effects st).

Definition set_screenlock_command (v : string) (st : State) : State :=
  mkState (current_program_path st) v (minimal_battery_level_command st)
    (short_minimal_battery_command st) (effects st).

Definition set_minimal_command (v short : string) (st : State) : State :=
  mkState (current_program_path st) (screenlock_command st) v short
    (effects st).

Definition effect (e : Effect) (st : State) : State :=
  mkState (current_program_path st) (screenlock_command st)
    (minimal_battery_level_command st) (short_minimal_battery_command st)
    (effects st ++ [e])%list.

(** [' '.join(words)] *)
Fixpoint join (words : list string) : string :=
  match words with
  | [] => ""
  | [w] => w
  | w :: ws => w ++ " " ++ join ws
  end.

Section WithEnv.

Variable env : Env.

Definition EXTRA_PROGRAMS_PATH : list string :=
  ["/usr/bin/"; "/usr/local/bin/"; "/bin/"; "/usr/sbin/"; "/usr/libexec/";
   "/sbin/"; "/usr/share/sounds/"; PROGRAM_PATH env ++ "/bin/"].

Definition SCREEN_LOCK_COMMANDS : list string :=
  ["physlock -d -u " ++ USER env; "i3lock -c 000000"; "xtrlock -b";
   "xscreensaver-command -lock"].

(** [__check_in_path]: the first directory of [path] that holds the
    program.  [os.path.isfile] answers False where the system call fails,
    so the [OSError] handler has nothing to catch. *)
Fixpoint check_in_path (program_name : string) (path : list string)
    (st : State) : bool * State :=
  match path with
  | [] => (false, st)
  | p :: path' =>
      if isfile env (p ++ program_name)
      then (true, set_current_program_path (p ++ program_name) st)
      else check_in_path program_name path' st
  end.

(** The notification or print of lines 291-299 and 319-326. *)
Definition announce_lock (command command_args : string) (st : State)
  : State :=
  if found_notify_send_command env
     && negb (disable_startup_notifications env)
  then effect (notify_using command command_args (timeout env)) st
  else if negb (disable_startup_notifications env)
  then effect (print_using command command_args) st
  else st.

(** Lines 284-299: the loop over [SCREEN_LOCK_COMMANDS]; it has no
    [break].  [None] is the [IndexError] of [lock_command_as_list[0]]. *)
Fixpoint lock_loop (commands : list string) (st : State) : option State :=
  match commands with
  | [] => Some st
  | c :: commands' =>
      match split env c with
      | [] => None
      | command :: rest =>
          let command_args := join rest in
          let (found, st1) := check_in_path command EXTRA_PROGRAMS_PATH st in
          if found then
            lock_loop commands'
              (announce_lock command command_args
                 (set_screenlock_command (command ++ " " ++ command_args) st1))
          else lock_loop commands' st1
      end
  end.

(** [__set_lock_command] *)
Definition set_lock_command (st : State) : option State :=
  if screenlock_command st =? "" then
    match lock_loop SCREEN_LOCK_COMMANDS st with
    | None => None
    | Some st1 =>
        if screenlock_command st1 =? "" then
          Some (if found_notify_send_command env
                then effect (notify_lock_missing (30 * 1000)) st1
                else effect print_lock_missing st1)
        else Some st1
    end
  else
    match split env (screenlock_command st) with
    | [] => None
    | command :: rest => Some (announce_lock command (join rest) st)
    end.

(** The local variables of [__set_minimal_battery_level_command]. *)
Record Found : Type := mkFound {
  power_off_command : string;
  hibernate_command : string;
  suspend_hybrid_command : string;
  suspend_command : string }.

Definition shutdown_script : string :=
  "sudo " ++ PROGRAM_PATH env ++ "/bin/shutdown.sh".

(** Lines 346-369: the loop over [minimal_battery_commands] with its
    [break]s and its [else]; [action] is what
    [self.__minimal_battery_level_command] holds on entry. *)
Fixpoint minimal_loop (commands : list string) (action : string)
    (st : State) : Found * State :=
  match commands with
  | [] => (mkFound shutdown_script "" "" "", st)
  | c :: commands' =>
      let (found, st1) := check_in_path c EXTRA_PROGRAMS_PATH st in
      if found then
        let st2 := effect (print_command c) st1 in
        if (c =? "pm-hibernate") && (action =? "hibernate")
        then (mkFound "" ("sudo " ++ c) "" "", st2)
        else if (c =? "pm-suspend-hybrid") && (action =? "hybrid")
        then (mkFound "" "" ("sudo " ++ c) "", st2)
        else if (c =? "pm-suspend") && (action =? "suspend")
        then (mkFound "" "" "" ("sudo " ++ c), st2)
        else if (c =? "hibernate.sh") && (action =? "hibernate")
        then (mkFound "" ("sudo " ++ PROGRAM_PATH env ++ "/bin/" ++ c) "" "",
              st2)
        else if (c =? "suspend.sh") && (action =? "suspend")
        then (mkFound "" "" "" ("sudo " ++ PROGRAM_PATH env ++ "/bin/" ++ c),
              st2)
        else if (c =? "shutdown") && (action =? "shutdown")
        then (mkFound shutdown_script "" "" "", st2)
        else minimal_loop commands' action st2
      else minimal_loop commands' action st1
  end.

Definition minimal_battery_commands : list string :=
  ["shutdown"; "pm-hibernate"; "pm-suspend"; "pm-suspend-hybrid";
   "suspend.sh"; "hibernate.sh"].

(** A Python string is true when it is not empty. *)
Definition truthy (s : string) : bool := negb (s =? "").

(** [__set_minimal_battery_level_command] *)
Definition set_minimal_battery_level_command (st : State) : State :=
  let (f, st1) :=
    minimal_loop minimal_battery_commands (minimal_battery_level_command st) st
  in
  let st2 :=
    if truthy (hibernate_command f)
    then set_minimal_command (hibernate_command f) "HIBERNATE" st1
    else if truthy (suspend_command f)
    then set_minimal_command (suspend_command f) "SUSPEND" st1
    else if truthy (suspend_hybrid_command f)
    then set_minimal_command (suspend_hybrid_command f) "SUSPEND BOTH" st1
    else if truthy (power_off_command f)
    then set_minimal_command (power_off_command f) "SHUTDOWN" st1
    else st1 in
  let st3 :=
    if negb (truthy (hibernate_command f) || truthy (suspend_command f)
             || truthy (power_off_command f)
             || truthy (suspend_hybrid_command f))
    then if found_notify_send_command env
         then effect (notify_minimal_missing (30 * 1000)) st2
         else effect print_minimal_missing st2
    else st2 in
  if found_notify_send_command env
     && negb (disable_startup_notifications env)
  then effect (notify_system_will_be (short_minimal_battery_command st3)
                 (timeout env)) st3
  else if negb (disable_startup_notifications env)
          && negb (found_notify_send_command env)
  then effect (print_system_will_be (short_minimal_battery_command st3)) st3
  else st3.

End WithEnv.

(** *** The checks of the battery levels in [__main__] *)

(** The parsed arguments the checks read. *)
Record Args : Type := mkArgs {
  battery_low_value : Z;
  battery_critical_value : Z;
  battery_minimal_value : Z }.

(** The calls of [ap.error], which end the program. *)
Inductive ArgError : Type :=
| low_out_of_range
| low_not_above_critical
| low_not_above_minimal
| critical_out_of_range
| critical_not_below_low
| critical_not_above_minimal
| minimal_out_of_range
| minimal_not_below_low
| minimal_not_below_critical.

Local Open Scope Z_scope.

Definition check_battery_low_value (args : Args) (low_value : Z)
  : option ArgError :=
  if (low_value >? 100) || (low_value <=? 0) then Some low_out_of_range
  else if low_value <=? battery_critical_value args
  then Some low_not_above_critical
  else if low_value <=? battery_minimal_value args
  then Some low_not_above_minimal
  else None.

Definition check_battery_critical_value (args : Args) (critical_value : Z)
  : option ArgError :=
  if (critical_value >? 100) || (critical_value <=? 0)
  then Some critical_out_of_range
  else if critical_value >=? battery_low_value args
  then Some critical_not_below_low
  else if critical_value <=? battery_minimal_value args
  then Some critical_not_above_minimal
  else None.

Definition check_battery_minimal_value (args : Args) (minimal_value : Z)
  : option ArgError :=
  if (minimal_value >? 100) || (minimal_value <=? 0)
  then Some minimal_out_of_range
  else if minimal_value >=? battery_low_value args
  then Some minimal_not_below_low
  else if minimal_value >=? battery_critical_value args
  then Some minimal_not_below_critical
  else None.

(** Lines 902-904: the three checks in order; the first error ends the
    program. *)
Definition check_battery_arguments (args : Args) : option ArgError :=
  match check_battery_low_value args (battery_low_value args) with
  | Some e => Some e
  | None =>
      match check_battery_critical_value args (battery_critical_value args) with
      | Some e => Some e
      | None =>
          check_battery_minimal_value args (battery_minimal_value args)
      end
  end.

(** *** Vocabulary for statements about the start-up *)

Local Open Scope string_scope.

(** Some directory of [EXTRA_PROGRAMS_PATH] holds the program. *)
Definition installed (env : Env) (name : string) : bool :=
  existsb (fun p => isfile env (p ++ name)) (EXTRA_PROGRAMS_PATH env).

(** The entries of a list of lock commands whose program is installed. *)
Definition lock_candidates (env : Env) (commands : list string)
  : list string :=
  filter (fun c => installed env (hd "" (split env c))) commands.

(** The command line stored for the entry [c]. *)
Definition lock_line (env : Env) (c : string) : string :=
  match split env c with
  | command :: rest => command ++ " " ++ join rest
  | [] => ""
  end.

(** What the start-up shows for the lock command [c]. *)
Definition announcement (env : Env) (c : string) : list Effect :=
  match split env c with
  | command :: rest =>
      if found_notify_send_command env
         && negb (disable_startup_notifications env)
      then [notify_using command (join rest) (timeout env)]
      else if negb (disable_startup_notifications env)
      then [print_using command (join rest)]
      else []
  | [] => []
  end.

Definition lock_missing (env : Env) : Effect :=
  if found_notify_send_command env then notify_lock_missing (30 * 1000)
  else print_lock_missing.

(** The command and its short name by action and installed programs. *)
Definition chosen_minimal_command (env : Env) (action : string)
  : string * string :=
  if action =? "hibernate" then
    if installed env "pm-hibernate" then ("sudo pm-hibernate", "HIBERNATE")
    else if installed env "hibernate.sh"
    then ("sudo " ++ PROGRAM_PATH env ++ "/bin/hibernate.sh", "HIBERNATE")
    else (shutdown_script env, "SHUTDOWN")
  else if action =? "suspend" then
    if installed env "pm-suspend" then ("sudo pm-suspend", "SUSPEND")
    else if installed env "suspend.sh"
    then ("sudo " ++ PROGRAM_PATH env ++ "/bin/suspend.sh", "SUSPEND")
    else (shutdown_script env, "SHUTDOWN")
  else if action =? "hybrid" then
    if installed env "pm-suspend-hybrid"
    then ("sudo pm-suspend-hybrid", "SUSPEND BOTH")
    else (shutdown_script env, "SHUTDOWN")
  else (shutdown_script env, "SHUTDOWN").

(** The last thing [__set_minimal_battery_level_command] shows. *)
Definition minimal_announcement (env : Env) (short : string) : list Effect :=
  if found_notify_send_command env
     && negb (disable_startup_notifications env)
  then [notify_system_will_be short (timeout env)]
  else if negb (disable_startup_notifications env)
          && negb (found_notify_send_command env)
  then [print_system_will_be short]
  else [].

(** [str.split] on text that has no white space but the space, and a file
    system with some programs, for the examples. *)
Fixpoint split_spaces (s : string) : list string :=
  match s with
  | EmptyString => []
  | String c s' =>
      if Ascii.eqb c " "%char then split_spaces s'
      else match s' with
           | EmptyString => [String c EmptyString]
           | String c' _ =>
               if Ascii.eqb c' " "%char then String c EmptyString :: split_spaces s'
               else match split_spaces s' with
                    | w :: ws => String c w :: ws
                    | [] => [String c EmptyString]
                    end
           end
  end.

Definition example_files : list string :=
  ["/usr/bin/i3lock"; "/usr/local/bin/xtrlock"; "/usr/sbin/pm-suspend";
   "/sbin/shutdown"].

Definition example_env : Env :=
  mkEnv (fun p => existsb (String.eqb p) example_files) split_spaces
    "/opt/Battmon" "user" true false (6 * 1000).

Definition example_state (lock_command action : string) : State :=
  mkState "" lock_command action "" [].

End Startup.

(** * Classification *)

Ltac split_comparisons :=
  rewrite ?Z.gtb_ltb, ?Z.geb_leb in *;
  repeat match goal with
    | |- context [Z.ltb ?a ?b] => destruct (Z.ltb_spec a b); try lia
    | |- context [Z.leb ?a ?b] => destruct (Z.leb_spec a b); try lia
    | H : context [Z.ltb ?a ?b] |- _ => destruct (Z.ltb_spec a b); try lia
    | H : context [Z.leb ?a ?b] |- _ => destruct (Z.leb_spec a b); try lia
    end.

Ltac unfold_guards :=
  unfold entry_condition, classify, classify_table, battery_missing_of,
    on_battery_of, on_ac_of, above_low_of, in_low_of, in_critical_of,
    at_minimal_of, is_full_of, is_charging_of in *.

(** A state's entry condition holds of a sample exactly when the loop
    takes that state's branch on it. *)
Lemma entry_condition_classify (self : MainRun) (s : Sample) (st : PowerState) :
  valid_thresholds self ->
  entry_condition self s st = true <-> classify self s = st.
Proof.
  intros (Hpos & Hmc & Hcl & Hl).
  destruct s as [bp ac dis full cap time].
  unfold_guards; cbn [batteryPresent acPresent discharging fullyCharged
                      capacityPercent timeRemaining].
  destruct bp, ac, dis, full; cbn [negb andb orb];
    split_comparisons; destruct st; cbn; split; intro;
    try reflexivity; try discriminate; try lia.
Qed.

(** The control flow of the loop takes the row the table of section 4.2
    gives when its rows are tried in order. *)
Lemma classify_table_classify (self : MainRun) (s : Sample) :
  valid_thresholds self ->
  classify_table self s = classify self s.
Proof.
  intros (Hpos & Hmc & Hcl & Hl).
  destruct s as [bp ac dis full cap time].
  unfold_guards; cbn [batteryPresent acPresent discharging fullyCharged
                      capacityPercent timeRemaining].
  destruct bp, ac, dis, full; cbn [negb andb orb];
    split_comparisons; cbn; try reflexivity; try lia.
Qed.

(** C1: for valid thresholds ([minimal < critical < low <= 100]) and every
    sample, whatever its capacity, exactly one of the eight states has its
    entry condition true: the conditions are total and no two of them hold
    together.  That state is the branch the loop takes, and it is the row
    the table of section 4.2 selects when evaluated in priority order. *)
Theorem entry_conditions_partition (self : MainRun) (s : Sample) :
  valid_thresholds self ->
  0 <= capacityPercent s <= 100 ->
  (exists st,
      entry_condition self s st = true
      /\ forall st', entry_condition self s st' = true -> st' = st)
  /\ (forall st1 st2,
         entry_condition self s st1 = true ->
         entry_condition self s st2 = true -> st1 = st2)
  /\ entry_condition self s (classify_table self s) = true.
Proof.
  intros Hv _.
  assert (Hc := fun st => entry_condition_classify self s st Hv).
  split; [| split].
  - exists (classify self s). split.
    + apply Hc. reflexivity.
    + intros st' H. apply Hc in H. congruence.
  - intros st1 st2 H1 H2. apply Hc in H1, H2. congruence.
  - rewrite classify_table_classify by exact Hv. apply Hc. reflexivity.
Qed.

Lemma entry_conditions_partition_witness :
  valid_thresholds default_run
  /\ (exists st,
         entry_condition default_run
           (mkSample true false true false 20 Unknown) st = true
         /\ forall st',
             entry_condition default_run
               (mkSample true false true false 20 Unknown) st' = true ->
             st' = st).
Proof.
  assert (Hv : valid_thresholds default_run) by (cbv; repeat split; discriminate).
  split; [exact Hv |].
  apply (entry_conditions_partition default_run
           (mkSample true false true false 20 Unknown) Hv).
  cbn. lia.
Defined.

(** * Running the monad *)

Lemma bind_done {A B} (m : M A) (k : A -> M B) w a w' :
  m w = Done a w' -> bind m k w = k a w'.
Proof. intros H. unfold bind. rewrite H. reflexivity. Qed.

Lemma extend_extend k1 d1 e1 k2 d2 e2 w :
  extend k2 d2 e2 (extend k1 d1 e1 w) = extend (k2 + k1) (d1 + d2) (e1 ++ e2) w.
Proof.
  unfold extend. cbn. f_equal; [lia | lia | symmetry; apply app_assoc].
Qed.

Lemma extend_eq k k' d d' e e' w :
  k = k' -> d = d' -> e = e' -> extend k d e w = extend k' d' e' w.
Proof. intros -> -> ->. reflexivity. Qed.

Lemma extend_nil w : extend 0 0 [] w = w.
Proof.
  destruct w as [c r tr]. unfold extend. cbn.
  rewrite Z.add_0_r, app_nil_r. reflexivity.
Qed.

Lemma yields_eq {A} (m : M A) a d d' e e' :
  yields m a d e -> d = d' -> e = e' -> yields m a d' e'.
Proof. intros H -> ->. exact H. Qed.

Lemma stalls_eq {A} (m : M A) d d' e e' :
  stalls m d e -> d = d' -> e = e' -> stalls m d' e'.
Proof. intros H -> ->. exact H. Qed.

Lemma yields_ret {A} (a : A) : yields (ret a) a 0 [].
Proof. intros w. exists 0%nat. rewrite extend_nil. reflexivity. Qed.

Lemma yields_bind {A B} (m : M A) (k : A -> M B) a b d1 e1 d2 e2 :
  yields m a d1 e1 -> yields (k a) b d2 e2 ->
  yields (bind m k) b (d1 + d2) (e1 ++ e2).
Proof.
  intros Hm Hk w. destruct (Hm w) as (k1 & E1).
  destruct (Hk (extend k1 d1 e1 w)) as (k2 & E2).
  exists (k2 + k1)%nat. unfold bind. rewrite E1, E2, extend_extend. reflexivity.
Qed.

Lemma stalls_bind {A B} (m : M A) (k : A -> M B) a d1 e1 d2 e2 :
  yields m a d1 e1 -> stalls (k a) d2 e2 ->
  stalls (bind m k) (d1 + d2) (e1 ++ e2).
Proof.
  intros Hm Hk w. destruct (Hm w) as (k1 & E1).
  destruct (Hk (extend k1 d1 e1 w)) as (k2 & E2).
  exists (k2 + k1)%nat. unfold bind. rewrite E1, E2, extend_extend. reflexivity.
Qed.

Lemma stalls_first {A B} (m : M A) (k : A -> M B) d e :
  stalls m d e -> stalls (bind m k) d e.
Proof.
  intros Hm w. destruct (Hm w) as (k1 & E1).
  exists k1. unfold bind. rewrite E1. reflexivity.
Qed.

Lemma yields_emit e : yields (emit e) tt 0 [e].
Proof.
  intros w. exists 0%nat. unfold emit, extend. cbn.
  rewrite Z.add_0_r. reflexivity.
Qed.

Lemma yields_sleep z : yields (sleep z) tt z [Sleep z].
Proof. intros w. exists 0%nat. reflexivity. Qed.

Lemma yields_read {A} tel (field : Sample -> A) v :
  (forall t q, field (tel t q) = v) -> yields (read tel field) v 0 [].
Proof.
  intros H w. exists 1%nat. unfold read, extend. rewrite H.
  rewrite Z.add_0_r, app_nil_r. reflexivity.
Qed.

Lemma rounds_S n evs : rounds (S n) evs = evs ++ rounds n evs.
Proof. reflexivity. Qed.

Lemma rounds_single n e : rounds n [e] = repeat e n.
Proof. induction n as [| n IH]; cbn; [| rewrite <- IH]; reflexivity. Qed.

Lemma yields_for n body d e :
  yields body Continue d e ->
  yields (for_range n body) tt (Z.of_nat n * d) (rounds n e).
Proof.
  intros Hb. induction n as [| n IH]; cbn [for_range].
  - apply yields_ret.
  - eapply yields_eq.
    + eapply yields_bind; [exact Hb | exact IH].
    + lia.
    + reflexivity.
Qed.

(** A loop whose guard stays true and whose body never breaks is still
    running when its bound is used up. *)
Lemma stalls_while fuel cond body d e :
  yields cond true 0 [] -> yields body Continue d e ->
  stalls (while_ fuel cond body) (Z.of_nat fuel * d) (rounds fuel e).
Proof.
  intros Hc Hb. induction fuel as [| n IH]; cbn [while_].
  - intros w. exists 0%nat. unfold out_of_fuel. rewrite extend_nil. reflexivity.
  - eapply stalls_eq.
    + eapply stalls_bind; [exact Hc |]. cbv beta iota.
      eapply stalls_bind; [exact Hb | exact IH].
    + lia.
    + reflexivity.
Qed.

Lemma yields_while_exit fuel cond body :
  yields cond false 0 [] -> yields (while_ (S fuel) cond body) tt 0 [].
Proof.
  intros Hc. cbn [while_]. eapply yields_eq.
  - eapply yields_bind; [exact Hc | apply yields_ret].
  - reflexivity.
  - reflexivity.
Qed.

(** ** Effects of a program, whatever the telemetry answers *)

Section Emits.

Variable P : Event -> Prop.

Lemma emits_ret {A} (a : A) : emits P (ret a).
Proof. intros w. exists []. cbn. rewrite app_nil_r. auto. Qed.

Lemma emits_out_of_fuel {A} : emits P (@out_of_fuel A).
Proof. intros w. exists []. cbn. rewrite app_nil_r. auto. Qed.

Lemma emits_bind {A B} (m : M A) (k : A -> M B) :
  emits P m -> (forall a, emits P (k a)) -> emits P (bind m k).
Proof.
  intros Hm Hk w. unfold bind.
  destruct (Hm w) as (tr1 & E1 & F1).
  destruct (m w) as [a w1 | w1]; cbn in E1.
  - destruct (Hk a w1) as (tr2 & E2 & F2).
    exists (tr1 ++ tr2). rewrite E2, E1, app_assoc. split; [reflexivity |].
    apply Forall_app; auto.
  - exists tr1. cbn. auto.
Qed.

Lemma emits_read {A} tel (field : Sample -> A) : emits P (read tel field).
Proof. intros w. exists []. cbn. rewrite app_nil_r. auto. Qed.

Lemma emits_emit e : P e -> emits P (emit e).
Proof. intros He w. exists [e]. cbn. auto. Qed.

Lemma emits_sleep z : P (Sleep z) -> emits P (sleep z).
Proof. intros He w. exists [Sleep z]. cbn. auto. Qed.

Lemma emits_when b m : emits P m -> emits P (when b m).
Proof. intros Hm. destruct b; cbn; [exact Hm | apply emits_ret]. Qed.

Lemma emits_while fuel cond body :
  emits P cond -> emits P body -> emits P (while_ fuel cond body).
Proof.
  intros Hc Hb. induction fuel as [| n IH]; cbn [while_].
  - apply emits_out_of_fuel.
  - apply emits_bind; [exact Hc |]. intros [|]; [| apply emits_ret].
    apply emits_bind; [exact Hb |]. intros [|]; [exact IH | apply emits_ret].
Qed.

Lemma emits_for n body : emits P body -> emits P (for_range n body).
Proof.
  intros Hb. induction n as [| n IH]; cbn [for_range].
  - apply emits_ret.
  - apply emits_bind; [exact Hb |]. intros [|]; [exact IH | apply emits_ret].
Qed.

End Emits.

(** * Guards under a condition on every read *)

Lemma yields_reads {A} (m : M A) a :
  (forall w, exists k,
      m w = Done a (mkWorld (clock w) (k + reads w) (trace w))) ->
  yields m a 0 [].
Proof.
  intros H w. destruct (H w) as (k & E). exists k. rewrite E.
  unfold extend. rewrite Z.add_0_r, app_nil_r. reflexivity.
Qed.

(** A fact about one field, from a state's entry condition on every read. *)
Ltac from_condition H :=
  let t := fresh "t" in
  let q := fresh "q" in
  intros t q; generalize (H t q); unfold_guards;
  match goal with
  | |- context [acPresent ?s] => destruct s as [[] [] [] [] cap time]
  end; cbn;
  try discriminate; try reflexivity;
  rewrite ?andb_true_r, ?andb_false_r;
  try discriminate; try (intros ->; reflexivity);
  rewrite ?andb_true_iff; intuition.

Ltac run_guard :=
  apply yields_reads; intros w;
  unfold on_battery, above_low, in_low, in_critical, at_minimal, on_ac, is_full,
    is_charging, battery_missing, is_battery_present, is_ac_present,
    is_battery_discharging, is_battery_fully_charged, battery_current_capacity,
    battery_time, bind, read, ret;
  cbn [clock reads trace].

Section HoldLoops.

Variable self : MainRun.
Variable tel : Telemetry.

Lemma above_low_holds :
  (forall t q, entry_condition self (tel t q) Discharging = true) ->
  yields (above_low self tel) true 0 [].
Proof.
  intros H.
  assert (Hc : forall t q,
             (capacityPercent (tel t q) >? battery_low_value self) = true)
    by from_condition H.
  assert (Ha : forall t q, acPresent (tel t q) = false) by from_condition H.
  run_guard. rewrite Hc, Ha. exists 2%nat. reflexivity.
Qed.

Lemma in_low_holds :
  (forall t q, entry_condition self (tel t q) Low = true) ->
  yields (in_low self tel) true 0 [].
Proof.
  intros H.
  assert (Hc : forall t q,
             (battery_low_value self >=? capacityPercent (tel t q)) = true)
    by from_condition H.
  assert (Hc' : forall t q,
             (capacityPercent (tel t q) >? battery_critical_value self) = true)
    by from_condition H.
  assert (Ha : forall t q, acPresent (tel t q) = false) by from_condition H.
  run_guard. rewrite Hc, Hc'. cbn. rewrite Ha. exists 2%nat. reflexivity.
Qed.

Lemma in_critical_holds :
  (forall t q, entry_condition self (tel t q) Critical = true) ->
  yields (in_critical self tel) true 0 [].
Proof.
  intros H.
  assert (Hc : forall t q,
             (battery_critical_value self >=? capacityPercent (tel t q)) = true)
    by from_condition H.
  assert (Hc' : forall t q,
             (capacityPercent (tel t q) >? battery_minimal_value self) = true)
    by from_condition H.
  assert (Ha : forall t q, acPresent (tel t q) = false) by from_condition H.
  run_guard. rewrite Hc, Hc'. cbn. rewrite Ha. exists 2%nat. reflexivity.
Qed.

Lemma is_full_holds :
  (forall t q, entry_condition self (tel t q) Full = true) ->
  yields (is_full tel) true 0 [].
Proof.
  intros H.
  assert (Ha : forall t q, acPresent (tel t q) = true) by from_condition H.
  assert (Hf : forall t q, fullyCharged (tel t q) = true) by from_condition H.
  assert (Hd : forall t q, discharging (tel t q) = false) by from_condition H.
  run_guard. repeat (rewrite ?Ha, ?Hf, ?Hd; cbn [negb]).
  exists 3%nat. reflexivity.
Qed.

Lemma is_charging_holds :
  (forall t q, entry_condition self (tel t q) Charging = true) ->
  yields (is_charging tel) true 0 [].
Proof.
  intros H.
  assert (Ha : forall t q, acPresent (tel t q) = true) by from_condition H.
  assert (Hf : forall t q, fullyCharged (tel t q) = false) by from_condition H.
  assert (Hd : forall t q, discharging (tel t q) = false) by from_condition H.
  run_guard. repeat (rewrite ?Ha, ?Hf, ?Hd; cbn [negb]).
  exists 3%nat. reflexivity.
Qed.

(** While the battery is there, the hold loops of "full" and "charging"
    only sleep one second per pass. *)
Lemma watch_removal_present m :
  (forall t q, batteryPresent (tel t q) = true) ->
  yields (watch_removal self tel m) Continue 1 [Sleep 1].
Proof.
  intros Hp. unfold watch_removal.
  eapply yields_eq.
  - eapply yields_bind; [apply (yields_read tel batteryPresent true Hp) |].
    cbv beta iota. cbn [negb].
    eapply yields_bind; [apply yields_sleep | apply yields_ret].
  - reflexivity.
  - reflexivity.
Qed.

Lemma sleep_one_second : yields (sleep 1 ;; ret Continue) Continue 1 [Sleep 1].
Proof.
  eapply yields_eq.
  - eapply yields_bind; [apply yields_sleep | apply yields_ret].
  - reflexivity.
  - reflexivity.
Qed.

(** A notification made of two fresh reads, then a hold loop whose guard
    stays true: one notification, then one-second sleeps only. *)
Lemma notify_then_hold (mk : Z -> BatteryTime -> Notification) cond body fuel :
  yields cond true 0 [] ->
  yields body Continue 1 [Sleep 1] ->
  forall w, exists c t k,
    (c <- battery_current_capacity tel ;;
     t <- battery_time tel ;;
     notify (mk c t) ;;
     while_ fuel cond body) w
    = OutOfFuel (extend k (Z.of_nat fuel)
                   (Notify (mk c t) :: repeat (Sleep 1) fuel) w).
Proof.
  intros Hc Hb w.
  pose (c := capacityPercent (tel (clock w) (reads w))).
  pose (t := timeRemaining (tel (clock w) (S (reads w)))).
  assert (Hs : stalls (notify (mk c t) ;; while_ fuel cond body)
                 (Z.of_nat fuel) (Notify (mk c t) :: repeat (Sleep 1) fuel)).
  { eapply stalls_eq.
    - eapply stalls_bind; [apply yields_emit |].
      apply (stalls_while fuel cond body 1 [Sleep 1] Hc Hb).
    - lia.
    - rewrite rounds_single. reflexivity. }
  destruct (Hs (mkWorld (clock w) (S (S (reads w))) (trace w))) as (k & E).
  exists c, t, (k + 2)%nat.
  unfold battery_current_capacity, battery_time, read, bind at 1 2.
  cbn [clock reads trace]. fold c t. rewrite E.
  unfold extend. cbn [clock reads trace]. do 2 f_equal. lia.
Qed.

End HoldLoops.

(** While the entry condition of the state holds on every read, the entry
    notification is followed by one-second sleeps only: whatever the bound
    [fuel] on the passes of the hold loop, the loop is still in it after
    [fuel] sleeps, and has fired nothing more. *)
Lemma hold_loop_never_fires_again
    (self : MainRun) (tel : Telemetry) (st : PowerState) :
  In st [Discharging; Low; Critical; Charging; Full] ->
  (forall t q, entry_condition self (tel t q) st = true) ->
  forall fuel w, exists n k,
    announces st n
    /\ notify_and_hold self tel st fuel w
       = OutOfFuel (extend k (Z.of_nat fuel)
                      (Notify n :: repeat (Sleep 1) fuel) w)
    /\ notifications (new_events w (world_of (notify_and_hold self tel st fuel w)))
       = [n].
Proof.
  intros Hin H fuel w.
  assert (Hnew : forall n k,
             notifications
               (new_events w
                  (extend k (Z.of_nat fuel) (Notify n :: repeat (Sleep 1) fuel) w))
             = [n]).
  { intros n k. unfold new_events, extend. cbn [trace].
    rewrite skipn_app, skipn_all, Nat.sub_diag. cbn.
    induction fuel as [| m IH]; [reflexivity | exact IH]. }
  assert (Hp : st = Full \/ st = Charging ->
               forall t q, batteryPresent (tel t q) = true).
  { intros [-> | ->]; from_condition H. }
  cbn in Hin.
  destruct Hin as [<- | [<- | [<- | [<- | [<- | []]]]]]; cbn [notify_and_hold].
  - destruct (notify_then_hold tel battery_discharging _ _ fuel
                (above_low_holds self tel H) sleep_one_second w)
      as (c & t & k & E).
    exists (battery_discharging c t), k.
    unfold discharging_hold. rewrite E. cbn. auto.
  - destruct (notify_then_hold tel low_capacity_level _ _ fuel
                (in_low_holds self tel H) sleep_one_second w)
      as (c & t & k & E).
    exists (low_capacity_level c t), k.
    unfold low_hold. rewrite E. cbn. auto.
  - destruct (notify_then_hold tel critical_battery_level _ _ fuel
                (in_critical_holds self tel H) sleep_one_second w)
      as (c & t & k & E).
    exists (critical_battery_level c t), k.
    unfold critical_hold. rewrite E. cbn. auto.
  - destruct (notify_then_hold tel battery_charging _ _ fuel
                (is_charging_holds self tel H)
                (watch_removal_present self tel dbg_removed (Hp (or_intror eq_refl)))
                w)
      as (c & t & k & E).
    exists (battery_charging c t), k.
    unfold charging_hold. rewrite E. cbn. auto.
  - assert (Hs : stalls (full_hold self tel fuel) (Z.of_nat fuel)
                   (Notify full_battery :: repeat (Sleep 1) fuel)).
    { unfold full_hold. eapply stalls_eq.
      - eapply stalls_bind; [apply yields_emit |].
        apply (stalls_while fuel _ _ 1 [Sleep 1] (is_full_holds self tel H)
                 (watch_removal_present self tel dbg_removed
                    (Hp (or_introl eq_refl)))).
      - lia.
      - rewrite rounds_single. reflexivity. }
    destruct (Hs w) as (k & E).
    exists full_battery, k. rewrite E. cbn. auto.
Qed.

(** * The wait for the battery time *)

Lemma new_events_app w c r evs :
  new_events w (mkWorld c r (trace w ++ evs)) = evs.
Proof.
  unfold new_events. cbn [trace].
  rewrite skipn_app, skipn_all, Nat.sub_diag. reflexivity.
Qed.

Lemma new_events_same w c r : new_events w (mkWorld c r (trace w)) = [].
Proof.
  unfold new_events. cbn [trace]. apply skipn_all.
Qed.

Lemma new_events_mk c r tr c' r' evs :
  new_events (mkWorld c r tr) (mkWorld c' r' (tr ++ evs)) = evs.
Proof. apply (new_events_app (mkWorld c r tr)). Qed.

Lemma new_events_extend w k d evs : new_events w (extend k d evs w) = evs.
Proof. apply new_events_app. Qed.

(** C10: a call of [__check_battery_update_times] in whose first pass the
    battery time does not go from unknown to known returns, for every
    bound of at least one pass, after at most one sleep of
    [battery_update_timeout] seconds: none when the time is known at the
    first read, exactly one when it is unknown.  In particular, when every
    read of the battery time answers ['Unknown'] the call returns after
    exactly one sleep. *)
Theorem check_battery_update_times_returns
    (self : MainRun) (tel : Telemetry) (fuel : nat) (w : World) :
  steady_pass self tel w ->
  (exists w',
      check_battery_update_times self tel (S fuel) w = Done tt w'
      /\ sleeps (new_events w w')
         = if is_unknown (guard_read tel w)
           then [battery_update_timeout self] else [])
  /\ ((forall t q, timeRemaining (tel t q) = Unknown) ->
      sleeps (new_events w
                (world_of (check_battery_update_times self tel (S fuel) w)))
      = [battery_update_timeout self]).
Proof.
  intros Hs.
  assert (Hmain : exists w',
      check_battery_update_times self tel (S fuel) w = Done tt w'
      /\ sleeps (new_events w w')
         = if is_unknown (guard_read tel w)
           then [battery_update_timeout self] else []).
  { unfold steady_pass, guard_read, recheck_read in *.
    destruct w as [c r tr]. cbn [clock reads trace] in *.
    unfold check_battery_update_times. cbn [while_].
    destruct (debug self);
      unfold when, battery_time, read, print, emit, sleep, bind, ret;
      cbn [clock reads trace];
      (destruct (is_unknown (timeRemaining (tel c r))) eqn:E0;
       [ specialize (Hs eq_refl) | ]);
      cbn [clock reads trace].
    - replace (S (S r)) with (r + 2)%nat by lia. rewrite Hs.
      cbn [clock reads trace].
      eexists. split; [reflexivity |].
      rewrite <- !app_assoc, new_events_mk. reflexivity.
    - eexists. split; [reflexivity |].
      rewrite (new_events_same (mkWorld c r tr)). reflexivity.
    - replace (S r) with (r + 1)%nat by lia. rewrite Hs.
      cbn [clock reads trace].
      eexists. split; [reflexivity |].
      rewrite new_events_mk. reflexivity.
    - eexists. split; [reflexivity |].
      rewrite (new_events_same (mkWorld c r tr)). reflexivity. }
  split; [exact Hmain |].
  intros Hu. destruct Hmain as (w' & E & Hsl). rewrite E. cbn [world_of].
  rewrite Hsl. unfold guard_read. rewrite Hu. reflexivity.
Qed.

Lemma check_battery_update_times_returns_witness :
  exists w',
    check_battery_update_times default_run
      (constant (mkSample true false true false 50 Unknown)) 1 w0
    = Done tt w'
    /\ sleeps (new_events w0 w') = [6].
Proof.
  apply (check_battery_update_times_returns default_run
           (constant (mkSample true false true false 50 Unknown)) 0 w0).
  intros _. reflexivity.
Defined.

(** * The escalation at the minimal level *)

Ltac unfold_reads :=
  unfold on_battery, above_low, in_low, in_critical, at_minimal, on_ac, is_full,
    is_charging, battery_missing, is_battery_present, is_ac_present,
    is_battery_discharging, is_battery_fully_charged, battery_current_capacity,
    battery_time, notify, popen, print.

Ltac emits_step :=
  first
    [ apply emits_ret
    | apply emits_out_of_fuel
    | apply emits_read
    | apply emits_bind; [| intros ?]
    | apply emits_when
    | apply emits_for
    | apply emits_while
    | apply emits_sleep
    | apply emits_emit
    | match goal with
      | |- emits _ (if ?b then _ else _) => destruct b
      | |- emits _ (match ?c with Continue => _ | Break => _ end) => destruct c
      end ].

Ltac emits_auto := unfold_reads; repeat emits_step.

Lemma harmless_sleep z : harmless (Sleep z).
Proof. split; discriminate. Qed.

Lemma harmless_notify n : harmless (Notify n).
Proof. split; discriminate. Qed.

Lemma harmless_print m : harmless (Print m).
Proof. split; discriminate. Qed.

Lemma harmless_sound : harmless (Popen sound_command).
Proof. split; discriminate. Qed.

Lemma harmless_last_chance c t ms :
  harmless (Popen (last_chance_notify_send c t ms)).
Proof. split; discriminate. Qed.

#[local] Hint Resolve harmless_sleep harmless_notify harmless_print
  harmless_sound harmless_last_chance : core.

Section Escalation.

Variable self : MainRun.
Variable tel : Telemetry.

(** The dry run never locks the screen and never runs the power command,
    whatever the telemetry answers. *)
Lemma test_block_harmless : emits harmless (test_block self tel).
Proof. unfold test_block. emits_auto; auto. Qed.

Hypothesis Hmin : forall t q, at_minimal_of self (tel t q) = true.

Lemma at_minimal_holds : yields (at_minimal self tel) true 0 [].
Proof.
  assert (Hc : forall t q,
             (capacityPercent (tel t q) <=? battery_minimal_value self) = true).
  { intros t q. generalize (Hmin t q). unfold at_minimal_of.
    rewrite andb_true_iff. tauto. }
  assert (Ha : forall t q, acPresent (tel t q) = false).
  { intros t q. generalize (Hmin t q). unfold at_minimal_of.
    rewrite andb_true_iff, negb_true_iff. tauto. }
  run_guard. rewrite Hc, Ha. exists 2%nat. reflexivity.
Qed.

Lemma test_round :
  yields (when (play_sound self) (popen sound_command) ;;
          b <- at_minimal self tel ;;
          when b (sleep 2) ;;
          ret Continue)
    Continue 2
    ((if play_sound self then [Popen sound_command] else []) ++ [Sleep 2]).
Proof.
  eapply yields_eq.
  - eapply yields_bind.
    + instantiate (2 := 0).
      instantiate (1 := if play_sound self then [Popen sound_command] else []).
      destruct (play_sound self); cbn [when];
        [apply yields_emit | apply yields_ret].
    + eapply yields_bind; [apply at_minimal_holds |]. cbv beta. cbn [when].
      eapply yields_bind; [apply yields_sleep | apply yields_ret].
  - reflexivity.
  - reflexivity.
Qed.

Lemma test_block_runs :
  yields (test_block self tel) Continue 20
    (rounds 5 ((if play_sound self then [Popen sound_command] else [])
               ++ [Sleep 2])
     ++ [Print test_hibernating; Sleep 10]).
Proof.
  unfold test_block. eapply yields_eq.
  - eapply yields_bind; [apply (yields_for 5 _ _ _ test_round) |].
    eapply yields_bind; [apply yields_emit |].
    eapply yields_bind; [apply yields_sleep | apply yields_ret].
  - reflexivity.
  - reflexivity.
Qed.

End Escalation.

(** C5: in dry-run mode ([test] set), for every entry into the minimal
    level during which [capacity <= minimal] and AC absent hold on every
    read, the escalation is exactly five rounds of {play the sound if
    sounds are enabled; sleep 2 seconds}, then the message of the simulated
    hibernation and one sleep of 10 seconds; and in dry-run mode the
    escalation never runs the screen-lock command nor the power command,
    whatever the telemetry. *)
Theorem dry_run_escalation (self : MainRun) (tel : Telemetry) :
  test self = true ->
  (forall t q, at_minimal_of self (tel t q) = true) ->
  yields (escalation self tel) Continue 20
    (rounds 5 ((if play_sound self then [Popen sound_command] else [])
               ++ [Sleep 2])
     ++ [Print test_hibernating; Sleep 10])
  /\ forall tel', emits harmless (escalation self tel').
Proof.
  intros Ht Hmin. split.
  - unfold escalation. rewrite Ht. cbn [negb].
    eapply yields_eq.
    + eapply yields_bind; [apply (at_minimal_holds self tel Hmin) |].
      cbv beta iota. apply (test_block_runs self tel Hmin).
    + reflexivity.
    + reflexivity.
  - intros tel'. unfold escalation. rewrite Ht. cbn [negb].
    apply emits_bind; [emits_auto |].
    intros [|]; [apply test_block_harmless | apply emits_ret].
Qed.

Lemma dry_run_escalation_witness :
  exists k,
    escalation (mkMainRun false true true 6000 6 23 14 7 0)
      (constant minimal_sample) w0
    = Done Continue
        (extend k 20
           (rounds 5 [Popen sound_command; Sleep 2]
            ++ [Print test_hibernating; Sleep 10])
           w0).
Proof.
  apply (dry_run_escalation (mkMainRun false true true 6000 6 23 14 7 0)
           (constant minimal_sample)).
  - reflexivity.
  - intros t q. reflexivity.
Defined.

Section RealThing.

Variable self : MainRun.
Variable tel : Telemetry.
Hypothesis Hmin : forall t q, at_minimal_of self (tel t q) = true.

Lemma first_warning_runs : yields (first_warning self tel) tt 10 phase_A_events.
Proof.
  unfold first_warning, phase_A_events.
  apply (yields_for 5 _ 2 [Sleep 2; Popen sound_command]).
  unfold warning_round. eapply yields_eq.
  - eapply yields_bind; [apply (at_minimal_holds self tel Hmin) |].
    cbv beta iota.
    eapply yields_bind; [apply yields_sleep |].
    eapply yields_bind; [apply yields_emit | apply yields_ret].
  - reflexivity.
  - reflexivity.
Qed.

Lemma last_chance_runs w :
  exists c t k,
    last_chance self tel w = Done tt (extend k 12 (phase_B_events c t) w).
Proof.
  destruct (at_minimal_holds self tel Hmin w) as (k1 & E1).
  unfold last_chance. rewrite (bind_done _ _ _ _ _ E1). cbn [when].
  set (w1 := extend k1 0 [] w).
  exists (capacityPercent (tel (clock w1 + 2) (reads w1))),
         (timeRemaining (tel (clock w1 + 2) (S (reads w1)))),
         (2 + k1)%nat.
  unfold sleep, popen, emit, battery_current_capacity, battery_time, read,
    bind, phase_B_events, extend.
  subst w1. unfold extend. cbn [clock reads trace].
  do 2 f_equal; [lia |].
  rewrite app_nil_r, <- !app_assoc. reflexivity.
Qed.

Lemma lock_and_hibernate_runs :
  yields (lock_and_hibernate self tel) Continue 21 phase_C_events.
Proof.
  unfold lock_and_hibernate, phase_C_events. eapply yields_eq.
  - eapply yields_bind; [apply (at_minimal_holds self tel Hmin) |].
    cbv beta iota.
    eapply yields_bind.
    + apply (yields_for 4 _ 5 [Sleep 5; Popen sound_command]).
      eapply yields_eq.
      * eapply yields_bind; [apply yields_sleep |].
        eapply yields_bind; [apply yields_emit | apply yields_ret].
      * reflexivity.
      * reflexivity.
    + eapply yields_bind; [apply yields_sleep |].
      eapply yields_bind; [apply yields_emit |].
      eapply yields_bind; [apply yields_emit | apply yields_ret].
  - reflexivity.
  - reflexivity.
Qed.

Lemma real_thing_runs w :
  exists c t k,
    real_thing self tel w
    = Done Continue
        (extend k 43 (phase_A_events ++ phase_B_events c t ++ phase_C_events) w).
Proof.
  destruct (at_minimal_holds self tel Hmin w) as (k0 & E0).
  destruct (first_warning_runs (extend k0 0 [] w)) as (k1 & E1).
  destruct (last_chance_runs (extend k1 10 phase_A_events (extend k0 0 [] w)))
    as (c & t & k2 & E2).
  destruct (lock_and_hibernate_runs
              (extend k2 12 (phase_B_events c t)
                 (extend k1 10 phase_A_events (extend k0 0 [] w))))
    as (k3 & E3).
  exists c, t, (k3 + (k2 + (k1 + k0)))%nat.
  unfold real_thing.
  rewrite (bind_done _ _ _ _ _ E0). cbv beta iota.
  rewrite (bind_done _ _ _ _ _ E1).
  rewrite (bind_done _ _ _ _ _ E2).
  rewrite E3, !extend_extend. f_equal.
  apply extend_eq; [lia | reflexivity | reflexivity].
Qed.

End RealThing.

(** C4, as amended: on an entry into the minimal level outside dry-run mode
    during which every check of the escalation finds [capacity <= minimal]
    and AC absent, the escalation is exactly: five rounds of {sleep 2
    seconds; play the sound}; then (phase B) sleep 2 seconds, play the
    sound, send the last-chance notification with a display timeout of
    10000 ms, sleep 10 seconds; then (phase C) four rounds of {sleep 5
    seconds; play the sound}, sleep 1 second, run the screen-lock command
    and then the power command, each exactly once. *)
Theorem real_escalation (self : MainRun) (tel : Telemetry) :
  test self = false ->
  (forall t q, at_minimal_of self (tel t q) = true) ->
  forall w, exists c t k,
    escalation self tel w
    = Done Continue
        (extend k 43 (phase_A_events ++ phase_B_events c t ++ phase_C_events) w)
    /\ power_commands (new_events w (world_of (escalation self tel w)))
       = [screenlock_command; minimal_battery_level_command].
Proof.
  intros Ht Hmin w.
  destruct (at_minimal_holds self tel Hmin w) as (k0 & E0).
  destruct (real_thing_runs self tel Hmin (extend k0 0 [] w)) as (c & t & k & E).
  exists c, t, (k + k0)%nat.
  assert (Hrun : escalation self tel w
                 = Done Continue
                     (extend (k + k0) 43
                        (phase_A_events ++ phase_B_events c t ++ phase_C_events)
                        w)).
  { unfold escalation. rewrite (bind_done _ _ _ _ _ E0), Ht. cbn [negb].
    rewrite E, extend_extend. reflexivity. }
  split; [exact Hrun |].
  rewrite Hrun. cbn [world_of]. rewrite new_events_extend. reflexivity.
Qed.

Lemma real_escalation_witness :
  exists c t k,
    escalation default_run (constant minimal_sample) w0
    = Done Continue
        (extend k 43 (phase_A_events ++ phase_B_events c t ++ phase_C_events) w0)
    /\ power_commands
         (new_events w0
            (world_of (escalation default_run (constant minimal_sample) w0)))
       = [screenlock_command; minimal_battery_level_command].
Proof.
  apply (real_escalation default_run (constant minimal_sample)).
  - reflexivity.
  - intros t q. reflexivity.
Defined.

(** C4, as stated, fails: with the default configuration and a battery held
    at 5 percent without AC, the effects of the escalation are phase A, a
    sleep of 2 seconds, and only then phase B as the specification words it
    (sound, last-chance notification, sleep 10) and phase C; so they are
    not phase A, B and C as stated. *)
Lemma phase_B_sleeps_before_sound :
  new_events w0 (world_of (escalation default_run (constant minimal_sample) w0))
  = phase_A_events
    ++ Sleep 2 :: phase_B_as_specified 5 (TimeLeft 4) ++ phase_C_events
  /\ forall c t,
      new_events w0
        (world_of (escalation default_run (constant minimal_sample) w0))
      <> phase_A_events ++ phase_B_as_specified c t ++ phase_C_events.
Proof.
  split; [reflexivity |].
  intros c t H. vm_compute in H. discriminate H.
Qed.

(** * The last check before hibernating *)

Section Completes.

Variable P : Event -> Prop.

Lemma completes_ret {A} (a : A) : completes P (ret a).
Proof.
  intros w. exists a, 0%nat, 0, []. rewrite extend_nil. split; [reflexivity | auto].
Qed.

Lemma completes_bind {A B} (m : M A) (k : A -> M B) :
  completes P m -> (forall a, completes P (k a)) -> completes P (bind m k).
Proof.
  intros Hm Hk w.
  destruct (Hm w) as (a & k1 & d1 & tr1 & E1 & F1).
  destruct (Hk a (extend k1 d1 tr1 w)) as (b & k2 & d2 & tr2 & E2 & F2).
  exists b, (k2 + k1)%nat, (d1 + d2), (tr1 ++ tr2).
  unfold bind. rewrite E1, E2, extend_extend.
  split; [reflexivity | apply Forall_app; auto].
Qed.

Lemma completes_read {A} tel (field : Sample -> A) : completes P (read tel field).
Proof.
  intros w. exists (field (tel (clock w) (reads w))), 1%nat, 0, [].
  unfold read, extend. rewrite Z.add_0_r, app_nil_r. split; [reflexivity | auto].
Qed.

Lemma completes_emit e : P e -> completes P (emit e).
Proof.
  intros He w. exists tt, 0%nat, 0, [e].
  unfold emit, extend. rewrite Z.add_0_r. split; [reflexivity | auto].
Qed.

Lemma completes_sleep z : P (Sleep z) -> completes P (sleep z).
Proof. intros He w. exists tt, 0%nat, z, [Sleep z]. split; [reflexivity | auto]. Qed.

Lemma completes_when b m : completes P m -> completes P (when b m).
Proof. intros Hm. destruct b; cbn; [exact Hm | apply completes_ret]. Qed.

Lemma completes_for n body : completes P body -> completes P (for_range n body).
Proof.
  intros Hb. induction n as [| n IH]; cbn [for_range].
  - apply completes_ret.
  - apply completes_bind; [exact Hb |].
    intros [|]; [exact IH | apply completes_ret].
Qed.

End Completes.

Ltac completes_step :=
  first
    [ apply completes_ret
    | apply completes_read
    | apply completes_bind; [| intros ?]
    | apply completes_when
    | apply completes_for
    | apply completes_sleep
    | apply completes_emit
    | match goal with
      | |- completes _ (if ?b then _ else _) => destruct b
      | |- completes _ (match ?c with Continue => _ | Break => _ end) =>
          destruct c
      end ].

Ltac completes_auto := unfold_reads; repeat completes_step.

Lemma harmless_no_power_commands tr :
  Forall harmless tr -> power_commands tr = [].
Proof.
  unfold power_commands, commands.
  induction 1 as [| e tr [Hl Hp] _ IH]; [reflexivity |].
  destruct e as [z | n | c | m]; cbn; try exact IH.
  destruct c; cbn; try exact IH; congruence.
Qed.

Section LastCheck.

Variable self : MainRun.
Variable tel : Telemetry.

(** A check only reads. *)
Lemma at_minimal_reads w :
  exists b k, at_minimal self tel w = Done b (extend k 0 [] w).
Proof.
  destruct w as [c r tr].
  unfold at_minimal, battery_current_capacity, is_ac_present, read, bind, ret,
    extend.
  cbn [clock reads trace].
  destruct (capacityPercent (tel c r) <=? battery_minimal_value self).
  - exists (negb (acPresent (tel c (S r)))), 2%nat.
    rewrite Z.add_0_r, app_nil_r. reflexivity.
  - exists false, 1%nat. rewrite Z.add_0_r, app_nil_r. reflexivity.
Qed.

Lemma first_warning_completes : completes harmless (first_warning self tel).
Proof. unfold first_warning, warning_round. completes_auto; auto. Qed.

Lemma last_chance_completes : completes harmless (last_chance self tel).
Proof. unfold last_chance. completes_auto; auto. Qed.

End LastCheck.

(** The escalation on any telemetry: the last check decides. *)
Lemma last_check_decides (self : MainRun) (tel : Telemetry) (w w' : World) :
  at_minimal self tel (last_check_world self tel w) = Done false w' ->
  power_commands (new_events w (world_of (escalation self tel w))) = [].
Proof.
  intros Hlast. unfold escalation.
  destruct (at_minimal_reads self tel w) as (b1 & k1 & E1).
  rewrite (bind_done _ _ _ _ _ E1).
  destruct b1; [| cbn [world_of ret]; rewrite new_events_extend; reflexivity].
  destruct (test self) eqn:Ht; cbn [negb].
  - destruct (test_block_harmless self tel (extend k1 0 [] w)) as (tr & Etr & F).
    unfold new_events. rewrite Etr. cbn [extend trace].
    rewrite app_nil_r, skipn_app, skipn_all, Nat.sub_diag. cbn [skipn app].
    apply harmless_no_power_commands, F.
  - unfold real_thing.
    destruct (at_minimal_reads self tel (extend k1 0 [] w)) as (b2 & k2 & E2).
    rewrite (bind_done _ _ _ _ _ E2).
    destruct b2; [| cbn [world_of ret];
                    rewrite extend_extend, new_events_extend; reflexivity].
    destruct (first_warning_completes self tel
                (extend k2 0 [] (extend k1 0 [] w)))
      as ([] & kA & dA & trA & EA & FA).
    rewrite (bind_done _ _ _ _ _ EA).
    destruct (last_chance_completes self tel
                (extend kA dA trA (extend k2 0 [] (extend k1 0 [] w))))
      as ([] & kB & dB & trB & EB & FB).
    rewrite (bind_done _ _ _ _ _ EB).
    unfold last_check_world in Hlast.
    rewrite (bind_done _ _ _ _ _ E1), (bind_done _ _ _ _ _ E2),
      (bind_done _ _ _ _ _ EA), EB in Hlast.
    cbn [world_of] in Hlast.
    unfold lock_and_hibernate. rewrite (bind_done _ _ _ _ _ Hlast).
    cbn [world_of ret].
    destruct (at_minimal_reads self tel
                (extend kB dB trB
                   (extend kA dA trA (extend k2 0 [] (extend k1 0 [] w)))))
      as (b3 & k3 & E3).
    rewrite E3 in Hlast. injection Hlast as _ <-.
    rewrite !extend_extend, new_events_extend.
    apply harmless_no_power_commands.
    cbn [app]. rewrite app_nil_r. apply Forall_app. auto.
Qed.

(** ** The escalation on a stable telemetry *)

Section StableEscalation.

Variable self : MainRun.
Variable tel : Telemetry.
Hypothesis Hst : stable tel.

Lemma at_minimal_at c w :
  clock w = c ->
  exists k, at_minimal self tel w = Done (minimal_at self tel c) (extend k 0 [] w).
Proof.
  intros <-. destruct w as [c r tr]. unfold minimal_at.
  unfold at_minimal, at_minimal_of, battery_current_capacity, is_ac_present,
    read, bind, ret, extend.
  cbn [clock reads trace].
  rewrite (Hst c r 0%nat).
  destruct (capacityPercent (tel c 0%nat) <=? battery_minimal_value self);
    cbn [clock reads trace andb].
  - rewrite (Hst c (S r) 0%nat).
    exists 2%nat. rewrite Z.add_0_r, app_nil_r. reflexivity.
  - exists 1%nat. rewrite Z.add_0_r, app_nil_r. reflexivity.
Qed.

Lemma warning_round_at c w :
  clock w = c ->
  exists k,
    warning_round self tel w
    = if minimal_at self tel c
      then Done Continue (extend k 2 [Sleep 2; Popen sound_command] w)
      else Done Break (extend k 0 [] w).
Proof.
  intros Hc. destruct (at_minimal_at c w Hc) as (k0 & E0).
  exists k0. unfold warning_round. rewrite (bind_done _ _ _ _ _ E0).
  destruct (minimal_at self tel c); [| reflexivity].
  unfold sleep, popen, emit, bind, ret, extend. cbn [clock reads trace].
  rewrite Z.add_0_r, app_nil_r, <- app_assoc. reflexivity.
Qed.

Lemma first_warning_at n : forall c w,
  clock w = c ->
  exists j k,
    (j <= n)%nat
    /\ for_range n (warning_round self tel) w
       = Done tt (extend k (2 * Z.of_nat j)
                    (rounds j [Sleep 2; Popen sound_command]) w)
    /\ (forall i, (i < j)%nat -> minimal_at self tel (c + 2 * Z.of_nat i) = true)
    /\ ((j < n)%nat -> minimal_at self tel (c + 2 * Z.of_nat j) = false).
Proof.
  induction n as [| n IH]; intros c w Hc.
  - exists 0%nat, 0%nat. cbn [for_range]. unfold ret. rewrite extend_nil.
    repeat split; [lia | intros; lia | intros; lia].
  - cbn [for_range].
    destruct (warning_round_at c w Hc) as (k0 & E0).
    destruct (minimal_at self tel c) eqn:P0.
    + rewrite (bind_done _ _ _ _ _ E0).
      destruct (IH (c + 2) (extend k0 2 [Sleep 2; Popen sound_command] w))
        as (j & k & Hj & E & Hall & Hstop).
      { cbn [extend clock]. lia. }
      exists (S j), (k + k0)%nat. rewrite E, extend_extend.
      repeat split.
      * lia.
      * f_equal. apply extend_eq; [reflexivity | lia | reflexivity].
      * intros [| i] Hi.
        -- rewrite Z.add_0_r in *. replace (c + 2 * 0) with c by lia. exact P0.
        -- replace (c + 2 * Z.of_nat (S i)) with (c + 2 + 2 * Z.of_nat i) by lia.
           apply Hall. lia.
      * intros Hlt.
        replace (c + 2 * Z.of_nat (S j)) with (c + 2 + 2 * Z.of_nat j) by lia.
        apply Hstop. lia.
    + rewrite (bind_done _ _ _ _ _ E0).
      exists 0%nat, k0. repeat split.
      * lia.
      * intros i Hi. lia.
      * intros _. replace (c + 2 * Z.of_nat 0) with c by lia. exact P0.
Qed.

Lemma last_chance_at c w :
  clock w = c ->
  exists k tr,
    last_chance self tel w
    = Done tt (extend k (if minimal_at self tel c then 12 else 0) tr w)
    /\ Forall harmless tr.
Proof.
  intros Hc. destruct (at_minimal_at c w Hc) as (k0 & E0).
  unfold last_chance. rewrite (bind_done _ _ _ _ _ E0).
  destruct (minimal_at self tel c); cbn [when].
  - set (w1 := extend k0 0 [] w).
    exists (2 + k0)%nat,
      (phase_B_events (capacityPercent (tel (clock w1 + 2) (reads w1)))
         (timeRemaining (tel (clock w1 + 2) (S (reads w1))))).
    split.
    + unfold sleep, popen, emit, battery_current_capacity, battery_time, read,
        bind, phase_B_events, extend.
      subst w1. unfold extend. cbn [clock reads trace].
      do 2 f_equal; [lia |].
      rewrite app_nil_r, <- !app_assoc. reflexivity.
    + unfold phase_B_events. repeat constructor; try discriminate.
  - exists k0, []. split; [reflexivity | constructor].
Qed.

Lemma last_check_fails_at c w :
  clock w = c -> minimal_at self tel c = false ->
  exists k, lock_and_hibernate self tel w = Done Break (extend k 0 [] w).
Proof.
  intros Hc HP. destruct (at_minimal_at c w Hc) as (k0 & E0).
  exists k0. unfold lock_and_hibernate.
  rewrite (bind_done _ _ _ _ _ E0), HP. reflexivity.
Qed.

Lemma harmless_rounds j : Forall harmless (rounds j [Sleep 2; Popen sound_command]).
Proof.
  induction j as [| j IH]; [constructor |].
  rewrite rounds_S. cbn [app]. repeat constructor; try discriminate. exact IH.
Qed.

Lemma stable_escalation_aborts w :
  (exists t, In t (checkpoint_clocks (clock w)) /\ minimal_at self tel t = false) ->
  power_commands (new_events w (world_of (escalation self tel w))) = [].
Proof.
  intros (t & Hin & Hfail).
  set (c := clock w) in *.
  unfold escalation.
  destruct (at_minimal_at c w eq_refl) as (k1 & E1).
  rewrite (bind_done _ _ _ _ _ E1).
  destruct (minimal_at self tel c) eqn:P0;
    [| cbn [world_of ret]; rewrite new_events_extend; reflexivity].
  destruct (test self) eqn:Ht; cbn [negb].
  { destruct (test_block_harmless self tel (extend k1 0 [] w)) as (tr & Etr & F).
    unfold new_events. rewrite Etr. cbn [extend trace].
    rewrite app_nil_r, skipn_app, skipn_all, Nat.sub_diag. cbn [skipn app].
    apply harmless_no_power_commands, F. }
  unfold real_thing.
  destruct (at_minimal_at c (extend k1 0 [] w)) as (k2 & E2);
    [cbn [extend clock]; lia |].
  rewrite (bind_done _ _ _ _ _ E2), P0.
  destruct (first_warning_at 5 c (extend k2 0 [] (extend k1 0 [] w)))
    as (j & kA & Hj & EA & Hall & Hstop);
    [cbn [extend clock]; lia |].
  unfold first_warning.
  rewrite (bind_done _ _ _ _ _ EA).
  set (wA := extend kA (2 * Z.of_nat j) (rounds j [Sleep 2; Popen sound_command])
               (extend k2 0 [] (extend k1 0 [] w))) in *.
  assert (HcA : clock wA = c + 2 * Z.of_nat j)
    by (subst wA; cbn [extend clock]; lia).
  destruct (last_chance_at _ wA HcA) as (kB & trB & EB & FB).
  rewrite (bind_done _ _ _ _ _ EB).
  set (wB := extend kB (if minimal_at self tel (c + 2 * Z.of_nat j) then 12 else 0) trB wA) in *.
  assert (Hlast : minimal_at self tel (clock wB) = false).
  { subst wB. cbn [extend clock]. rewrite HcA.
    destruct (Nat.eq_dec j 5) as [-> | Hne].
    - change (2 * Z.of_nat 5) with 10.
      destruct (minimal_at self tel (c + 10)) eqn:P10.
      + replace (c + 10 + 12) with (c + 22) by lia.
        cbn in Hin.
        destruct Hin as [<- | [<- | [<- | [<- | [<- | [<- | [<- | []]]]]]]];
          try exact Hfail; try congruence.
        * exfalso. assert (X := Hall 1%nat ltac:(lia)).
          replace (c + 2 * Z.of_nat 1) with (c + 2) in X by lia. congruence.
        * exfalso. assert (X := Hall 2%nat ltac:(lia)).
          replace (c + 2 * Z.of_nat 2) with (c + 4) in X by lia. congruence.
        * exfalso. assert (X := Hall 3%nat ltac:(lia)).
          replace (c + 2 * Z.of_nat 3) with (c + 6) in X by lia. congruence.
        * exfalso. assert (X := Hall 4%nat ltac:(lia)).
          replace (c + 2 * Z.of_nat 4) with (c + 8) in X by lia. congruence.
      + rewrite Z.add_0_r. exact P10.
    - assert (Hf : minimal_at self tel (c + 2 * Z.of_nat j) = false) by (apply Hstop; lia).
      rewrite Hf, Z.add_0_r. exact Hf. }
  destruct (last_check_fails_at _ wB eq_refl Hlast) as (kC & EC).
  rewrite EC. cbn [world_of]. subst wB wA.
  rewrite !extend_extend, new_events_extend.
  apply harmless_no_power_commands.
  cbn [app]. rewrite app_nil_r. apply Forall_app. split; [apply harmless_rounds | exact FB].
Qed.

End StableEscalation.

(** C3, as amended: for every entry into the minimal level,
    (a) if the telemetry does not change between two reads with no sleep
    between them and at any checkpoint of phases A, B and C it shows AC
    present or a capacity above the minimal threshold, then neither the
    screen-lock command nor the power command is run for that entry (the
    checkpoints are named by the times at which they are made when no
    earlier one fails: a checkpoint that follows a failed one is made at
    the same time); and (b) on any telemetry, they are not run when the
    last check before hibernating (the phase-C checkpoint) fails.  A
    phase-A or phase-B checkpoint that fails only ends its phase: the later
    checks read the telemetry afresh. *)
Theorem no_power_command_when_check_fails
    (self : MainRun) (tel : Telemetry) (w : World) :
  (stable tel ->
   (exists t,
       In t (checkpoint_clocks (clock w)) /\ minimal_at self tel t = false) ->
   power_commands (new_events w (world_of (escalation self tel w))) = [])
  /\ (forall w',
        at_minimal self tel (last_check_world self tel w) = Done false w' ->
        power_commands (new_events w (world_of (escalation self tel w))) = []).
Proof.
  split.
  - intros Hst Hfail. apply (stable_escalation_aborts self tel Hst w Hfail).
  - intros w' Hlast. apply (last_check_decides self tel w w' Hlast).
Qed.

Lemma no_power_command_when_check_fails_witness :
  power_commands
    (new_events w0 (world_of (escalation default_run late_plug w0))) = []
  /\ power_commands
       (new_events w0 (world_of (escalation default_run last_flicker w0))) = [].
Proof.
  split.
  - apply (proj1 (no_power_command_when_check_fails default_run late_plug w0)).
    + intros t q q'. reflexivity.
    + exists 22. split; [cbn; tauto | reflexivity].
  - apply (proj2 (no_power_command_when_check_fails default_run last_flicker w0)
             (world_of
                (at_minimal default_run last_flicker
                   (last_check_world default_run last_flicker w0)))).
    vm_compute. reflexivity.
Defined.

(** C3, as stated, fails: with [ac_flicker] the first checkpoint of phase A
    sees AC present (its AC read is the sixth read of the escalation), so
    the first warning ends at once; the checks of phases B and C read the
    telemetry afresh, find no AC, and the screen is locked and the power
    command run. *)
Lemma last_check_alone_decides :
  acPresent (ac_flicker 0 5%nat) = true
  /\ escalation default_run ac_flicker w0
     = (first_warning default_run ac_flicker ;;
        last_chance default_run ac_flicker ;;
        lock_and_hibernate default_run ac_flicker) (mkWorld 0 4 [])
  /\ at_minimal default_run ac_flicker (mkWorld 0 4 [])
     = Done false (mkWorld 0 6 [])
  /\ first_warning default_run ac_flicker (mkWorld 0 4 [])
     = Done tt (mkWorld 0 6 [])
  /\ power_commands
       (new_events w0 (world_of (escalation default_run ac_flicker w0)))
     = [screenlock_command; minimal_battery_level_command].
Proof. repeat split; vm_compute; reflexivity. Qed.

(** * The loop on a telemetry that does not change *)

Ltac constant_guard :=
  run_guard; unfold constant; unfold_guards;
  match goal with
  | s : Sample |- _ => destruct s as [bp ac dis full cap time]
  end;
  cbn [batteryPresent acPresent discharging fullyCharged capacityPercent
       timeRemaining];
  repeat match goal with
    | |- context [if ?b then _ else _] => destruct b
    end;
  cbn [negb andb];
  first [ exists 1%nat; reflexivity
        | exists 2%nat; reflexivity
        | exists 3%nat; reflexivity ].

Lemma is_battery_present_constant s :
  yields (is_battery_present (constant s)) (batteryPresent s) 0 [].
Proof. constant_guard. Qed.

Lemma battery_time_constant s :
  yields (battery_time (constant s)) (timeRemaining s) 0 [].
Proof. constant_guard. Qed.

Lemma battery_current_capacity_constant s :
  yields (battery_current_capacity (constant s)) (capacityPercent s) 0 [].
Proof. constant_guard. Qed.

Lemma on_battery_constant s :
  yields (on_battery (constant s)) (on_battery_of s) 0 [].
Proof. constant_guard. Qed.

Lemma above_low_constant self s :
  yields (above_low self (constant s)) (above_low_of self s) 0 [].
Proof. constant_guard. Qed.

Lemma in_low_constant self s :
  yields (in_low self (constant s)) (in_low_of self s) 0 [].
Proof. constant_guard. Qed.

Lemma in_critical_constant self s :
  yields (in_critical self (constant s)) (in_critical_of self s) 0 [].
Proof. constant_guard. Qed.

Lemma at_minimal_constant self s :
  yields (at_minimal self (constant s)) (at_minimal_of self s) 0 [].
Proof. constant_guard. Qed.

Lemma on_ac_constant s : yields (on_ac (constant s)) (on_ac_of s) 0 [].
Proof. constant_guard. Qed.

Lemma is_full_constant s : yields (is_full (constant s)) (is_full_of s) 0 [].
Proof. constant_guard. Qed.

Lemma is_charging_constant s :
  yields (is_charging (constant s)) (is_charging_of s) 0 [].
Proof. constant_guard. Qed.

Lemma battery_missing_constant s :
  yields (battery_missing (constant s)) (battery_missing_of s) 0 [].
Proof. constant_guard. Qed.

Create HintDb yields.
#[local] Hint Resolve is_battery_present_constant battery_time_constant
  battery_current_capacity_constant on_battery_constant above_low_constant
  in_low_constant in_critical_constant at_minimal_constant on_ac_constant
  is_full_constant is_charging_constant battery_missing_constant : yields.

Ltac use_guard_values :=
  repeat match goal with
    | H : ?b = _ |- context [if ?b then _ else _] => rewrite H
    | H : ?b = _ |- context [when ?b _] => rewrite H
    end.

(** Runs a straight-line program whose guards are known. *)
Ltac yields_run :=
  use_guard_values;
  lazymatch goal with
  | |- yields (bind _ _) _ _ _ =>
      eapply yields_bind; [yields_run | cbv beta iota; yields_run]
  | |- yields (ret _) _ _ _ => apply yields_ret
  | |- yields (sleep _) _ _ _ => apply yields_sleep
  | |- yields (emit _) _ _ _ => apply yields_emit
  | |- yields (notify _) _ _ _ => apply yields_emit
  | |- yields (popen _) _ _ _ => apply yields_emit
  | |- yields (print _) _ _ _ => apply yields_emit
  | |- yields (when true _) _ _ _ => cbn [when]; yields_run
  | |- yields (when false _) _ _ _ => cbn [when]; apply yields_ret
  | |- _ => solve [eauto with yields nocore]
  end.

Lemma rounds_nil n : rounds n [] = [].
Proof. induction n as [| n IH]; [reflexivity | exact IH]. Qed.

Section Idle.

Variable self : MainRun.
Variable s : Sample.
Hypothesis Hidle : classify self s = ACIdle.

Lemma discharge_block_idle fuel :
  batteryPresent s = true ->
  yields (discharge_block self (constant s) fuel) Continue 0 [].
Proof.
  intros Hp. unfold classify in Hidle. rewrite Hp in Hidle.
  unfold discharge_block.
  destruct (on_battery_of s) eqn:Hb.
  - destruct (above_low_of self s) eqn:H1; [discriminate |].
    destruct (in_low_of self s) eqn:H2; [discriminate |].
    destruct (in_critical_of self s) eqn:H3; [discriminate |].
    destruct (at_minimal_of self s) eqn:H4; [discriminate |].
    eapply yields_eq; [yields_run | reflexivity | reflexivity].
  - eapply yields_eq; [yields_run | reflexivity | reflexivity].
Qed.

Lemma ac_block_idle fuel :
  batteryPresent s = true ->
  yields (ac_block self (constant s) fuel) tt 0 [].
Proof.
  intros Hp. unfold classify in Hidle. rewrite Hp in Hidle.
  unfold ac_block.
  destruct (on_ac_of s) eqn:Ha.
  - assert (Hb : on_battery_of s = false).
    { unfold on_ac_of, on_battery_of in *. destruct (acPresent s);
        [reflexivity | discriminate]. }
    rewrite Hb in Hidle.
    destruct (is_full_of s) eqn:H1; [discriminate |].
    destruct (is_charging_of s) eqn:H2; [discriminate |].
    eapply yields_eq; [yields_run | reflexivity | reflexivity].
  - eapply yields_eq; [yields_run | reflexivity | reflexivity].
Qed.

Lemma battery_tick_idle fuel :
  batteryPresent s = true ->
  yields (battery_tick self (constant s) fuel) Continue 0 [].
Proof.
  intros Hp. unfold battery_tick. eapply yields_eq.
  - eapply yields_bind; [apply (discharge_block_idle fuel Hp) |].
    cbv beta iota.
    eapply yields_bind; [apply (ac_block_idle fuel Hp) | apply yields_ret].
  - reflexivity.
  - reflexivity.
Qed.

Lemma main_tick_idle fuel :
  batteryPresent s = false ->
  yields (main_tick self (constant s) (S fuel)) Continue 0 [].
Proof.
  intros Hp. unfold classify in Hidle. rewrite Hp in Hidle.
  destruct (battery_missing_of s) eqn:Hm; [discriminate |].
  unfold main_tick, no_battery_branch. eapply yields_eq.
  - eapply yields_bind.
    + apply yields_while_exit. rewrite <- Hp. apply is_battery_present_constant.
    + cbv beta. yields_run.
  - reflexivity.
  - reflexivity.
Qed.

Lemma run_main_loop_idle fuel :
  stalls (run_main_loop self (constant s) fuel) 0 [].
Proof.
  unfold run_main_loop. destruct (batteryPresent s) eqn:Hp.
  - destruct fuel as [| n].
    + intros w. exists 0%nat. cbn. rewrite extend_nil. reflexivity.
    + cbn [while_]. eapply stalls_eq.
      * eapply stalls_bind; [apply yields_ret |]. cbv beta iota.
        apply stalls_first. unfold main_tick. apply stalls_first.
        apply (stalls_while (S n) _ _ 0 []).
        -- rewrite <- Hp. apply is_battery_present_constant.
        -- apply (battery_tick_idle (S n) Hp).
      * cbn. lia.
      * rewrite rounds_nil. reflexivity.
  - destruct fuel as [| n].
    + intros w. exists 0%nat. cbn. rewrite extend_nil. reflexivity.
    + eapply stalls_eq.
      * apply (stalls_while (S n) _ _ 0 []);
          [apply yields_ret | apply (main_tick_idle n Hp)].
      * lia.
      * apply rounds_nil.
Qed.

End Idle.

Lemma idle_condition_classify self s :
  entry_condition self s ACIdle = true -> classify self s = ACIdle.
Proof.
  unfold entry_condition, classify.
  destruct (batteryPresent s), (battery_missing_of s), (on_battery_of s),
    (on_ac_of s), (above_low_of self s), (in_low_of self s),
    (in_critical_of self s), (at_minimal_of self s), (is_full_of s),
    (is_charging_of s); cbn; intros H; try reflexivity; discriminate H.
Qed.

(** C9: on a sample that matches none of the seven state conditions, a pass
    of the loop body fires no notification, runs no command and does not
    even sleep: it only reads the telemetry and goes on to the next pass
    (the body of [while is_battery_present()] when the battery is there,
    the body of [while True] when it is not); so the loop has no effect at
    all for as long as the telemetry stays at that sample. *)
Theorem idle_tick_does_nothing (self : MainRun) (s : Sample) :
  entry_condition self s ACIdle = true ->
  (batteryPresent s = true ->
   forall fuel, yields (battery_tick self (constant s) fuel) Continue 0 [])
  /\ (batteryPresent s = false ->
      forall fuel, yields (main_tick self (constant s) (S fuel)) Continue 0 [])
  /\ forall fuel w,
      new_events w (world_of (run_main_loop self (constant s) fuel w)) = [].
Proof.
  intros H. apply idle_condition_classify in H.
  split; [| split].
  - intros Hp fuel. apply (battery_tick_idle self s H fuel Hp).
  - intros Hp fuel. apply (main_tick_idle self s H fuel Hp).
  - intros fuel w. destruct (run_main_loop_idle self s H fuel w) as (k & E).
    rewrite E. cbn [world_of]. apply new_events_extend.
Qed.

Lemma idle_tick_does_nothing_witness :
  (exists k,
      battery_tick default_run (constant idle_sample) 3 w0
      = Done Continue (extend k 0 [] w0))
  /\ (exists k,
         main_tick default_run (constant unpowered_sample) 1 w0
         = Done Continue (extend k 0 [] w0))
  /\ new_events w0
       (world_of (run_main_loop default_run (constant idle_sample) 9 w0))
     = [].
Proof.
  destruct (idle_tick_does_nothing default_run idle_sample eq_refl)
    as (Htick & _ & Hrun).
  destruct (idle_tick_does_nothing default_run unpowered_sample eq_refl)
    as (_ & Hmain & _).
  split; [| split].
  - apply (Htick eq_refl 3%nat w0).
  - apply (Hmain eq_refl 0%nat w0).
  - apply Hrun.
Defined.

(** * Entering a state on a telemetry that does not change *)

Section Entry.

Variable self : MainRun.
Variable s : Sample.

Lemma debug_print_runs m :
  yields (when (debug self) (print m)) tt 0 (debug_print self m).
Proof.
  unfold debug_print. destruct (debug self); cbn [when];
    [apply yields_emit | apply yields_ret].
Qed.

Lemma wait_constant fuel :
  yields (check_battery_update_times self (constant s) (S fuel)) tt
    (wait_time self s) (wait_events self s).
Proof.
  intros [c r tr]. unfold check_battery_update_times. cbn [while_].
  unfold wait_time, wait_events, debug_print.
  destruct (debug self);
    unfold when, battery_time, read, print, emit, sleep, bind, ret, constant,
      extend;
    cbn [clock reads trace];
    destruct (is_unknown (timeRemaining s)); cbn [clock reads trace].
  - exists 4%nat. rewrite <- !app_assoc. reflexivity.
  - exists 1%nat. rewrite Z.add_0_r, app_nil_r. reflexivity.
  - exists 2%nat. reflexivity.
  - exists 1%nat. rewrite Z.add_0_r, app_nil_r. reflexivity.
Qed.

Lemma notify_then_hold_constant
    (mk : Z -> BatteryTime -> Notification) cond body fuel :
  yields cond true 0 [] ->
  yields body Continue 1 [Sleep 1] ->
  stalls (c <- battery_current_capacity (constant s) ;;
          t <- battery_time (constant s) ;;
          notify (mk c t) ;;
          while_ fuel cond body)
    (Z.of_nat fuel)
    (Notify (mk (capacityPercent s) (timeRemaining s)) :: repeat (Sleep 1) fuel).
Proof.
  intros Hc Hb. eapply stalls_eq.
  - eapply stalls_bind; [apply battery_current_capacity_constant |].
    cbv beta.
    eapply stalls_bind; [apply battery_time_constant |]. cbv beta.
    eapply stalls_bind; [apply yields_emit |].
    apply (stalls_while fuel cond body 1 [Sleep 1] Hc Hb).
  - lia.
  - rewrite rounds_single. reflexivity.
Qed.

(** The wait, then the notification and the hold loop. *)
Lemma wait_then_hold m (hold : M unit) d e fuel :
  stalls hold d e ->
  stalls (when (debug self) (print m) ;;
          check_battery_update_times self (constant s) (S fuel) ;;
          hold)
    (wait_time self s + d) (debug_print self m ++ wait_events self s ++ e).
Proof.
  intros Hh. eapply stalls_eq.
  - eapply stalls_bind; [apply debug_print_runs |]. cbv beta.
    eapply stalls_bind; [apply wait_constant | exact Hh].
  - lia.
  - reflexivity.
Qed.

(** Once a pass of the body of [while is_battery_present()] is stuck in a
    hold loop, so is the main loop. *)
Lemma run_main_loop_enters fuel d e :
  batteryPresent s = true ->
  stalls (battery_tick self (constant s) (S fuel)) d e ->
  stalls (run_main_loop self (constant s) (S fuel)) d e.
Proof.
  intros Hp Ht.
  assert (Hbp := is_battery_present_constant s). rewrite Hp in Hbp.
  unfold run_main_loop. cbn [while_]. eapply stalls_eq.
  - eapply stalls_bind; [apply yields_ret |]. cbv beta iota.
    apply stalls_first. unfold main_tick. apply stalls_first.
    cbn [while_].
    eapply stalls_bind; [exact Hbp |].
    cbv beta iota. apply stalls_first. exact Ht.
  - lia.
  - reflexivity.
Qed.

Lemma classify_present st :
  classify self s = st -> st <> NoBattery -> st <> ACIdle ->
  batteryPresent s = true.
Proof.
  unfold classify. destruct (batteryPresent s); [reflexivity |].
  destruct (battery_missing_of s); congruence.
Qed.

Lemma constant_condition st :
  classify self s = st ->
  batteryPresent s = true ->
  (st = Discharging -> on_battery_of s = true /\ above_low_of self s = true)
  /\ (st = Low ->
      on_battery_of s = true /\ above_low_of self s = false
      /\ in_low_of self s = true)
  /\ (st = Critical ->
      on_battery_of s = true /\ above_low_of self s = false
      /\ in_low_of self s = false /\ in_critical_of self s = true)
  /\ (st = Full ->
      on_battery_of s = false /\ on_ac_of s = true /\ is_full_of s = true)
  /\ (st = Charging ->
      on_battery_of s = false /\ on_ac_of s = true /\ is_full_of s = false
      /\ is_charging_of s = true).
Proof.
  intros Hc Hp. unfold classify in Hc. rewrite Hp in Hc.
  destruct (on_battery_of s) eqn:Hb.
  - destruct (above_low_of self s), (in_low_of self s),
      (in_critical_of self s), (at_minimal_of self s);
      subst st; repeat split; intros; try discriminate; auto.
  - destruct (on_ac_of s), (is_full_of s), (is_charging_of s);
      subst st; repeat split; intros; try discriminate; auto.
Qed.

End Entry.

Ltac known_guard H :=
  eapply stalls_bind; [solve [eauto with yields nocore] |];
  cbv beta iota; rewrite H.

Ltac passed_guard H :=
  eapply yields_bind; [solve [eauto with yields nocore] |];
  cbv beta iota; rewrite H.

(** On a sample of one of the five states with a hold loop, the main loop
    produces the entry effects of that state and then stays in its hold
    loop. *)
Lemma run_main_loop_entry self s st fuel :
  classify self s = st ->
  In st [Discharging; Low; Critical; Charging; Full] ->
  exists d,
    stalls (run_main_loop self (constant s) (S fuel)) d
      (entry_events self s st ++ repeat (Sleep 1) (S fuel)).
Proof.
  intros Hc Hin.
  assert (Hp : batteryPresent s = true).
  { apply (classify_present self s st Hc);
      cbn in Hin; intuition congruence. }
  destruct (constant_condition self s st Hc Hp) as (HD & HL & HC & HF & HG).
  cbn in Hin.
  destruct Hin as [<- | [<- | [<- | [<- | [<- | []]]]]].
  - destruct (HD eq_refl) as (Hb & H1).
    assert (He : entry_condition self s Discharging = true)
      by (cbn; rewrite Hp, Hb, H1; reflexivity).
    eexists. apply (run_main_loop_enters self s fuel _ _ Hp).
    unfold battery_tick. apply stalls_first. unfold discharge_block.
    eapply stalls_eq.
    + known_guard Hb. known_guard H1. apply stalls_first.
      unfold discharging_branch, discharging_hold.
      apply wait_then_hold.
      apply (notify_then_hold_constant s battery_discharging).
      * apply above_low_holds. intros t q. exact He.
      * apply sleep_one_second.
    + reflexivity.
    + cbn [entry_events app]. rewrite <- !app_assoc. reflexivity.
  - destruct (HL eq_refl) as (Hb & H1 & H2).
    assert (He : entry_condition self s Low = true)
      by (cbn; rewrite Hp, Hb, H2; reflexivity).
    eexists. apply (run_main_loop_enters self s fuel _ _ Hp).
    unfold battery_tick. apply stalls_first. unfold discharge_block.
    eapply stalls_eq.
    + known_guard Hb. known_guard H1. known_guard H2. apply stalls_first.
      unfold low_branch, low_hold.
      apply wait_then_hold.
      apply (notify_then_hold_constant s low_capacity_level).
      * apply in_low_holds. intros t q. exact He.
      * apply sleep_one_second.
    + reflexivity.
    + cbn [entry_events app]. rewrite <- !app_assoc. reflexivity.
  - destruct (HC eq_refl) as (Hb & H1 & H2 & H3).
    assert (He : entry_condition self s Critical = true)
      by (cbn; rewrite Hp, Hb, H3; reflexivity).
    eexists. apply (run_main_loop_enters self s fuel _ _ Hp).
    unfold battery_tick. apply stalls_first. unfold discharge_block.
    eapply stalls_eq.
    + known_guard Hb. known_guard H1. known_guard H2. known_guard H3.
      apply stalls_first.
      unfold critical_branch, critical_hold.
      apply wait_then_hold.
      apply (notify_then_hold_constant s critical_battery_level).
      * apply in_critical_holds. intros t q. exact He.
      * apply sleep_one_second.
    + reflexivity.
    + cbn [entry_events app]. rewrite <- !app_assoc. reflexivity.
  - destruct (HG eq_refl) as (Hb & Ha & H1 & H2).
    assert (He : entry_condition self s Charging = true)
      by (cbn; rewrite Hp, Ha, H2; reflexivity).
    eexists. apply (run_main_loop_enters self s fuel _ _ Hp).
    unfold battery_tick. eapply stalls_eq.
    + eapply stalls_bind.
      * unfold discharge_block. passed_guard Hb. apply yields_ret.
      * cbv beta iota. apply stalls_first. unfold ac_block.
        known_guard Ha. cbn [when]. known_guard H1. cbn [when].
        eapply stalls_bind; [apply yields_ret |].
        known_guard H2. cbn [when].
        unfold charging_branch, charging_hold.
        apply wait_then_hold.
        apply (notify_then_hold_constant s battery_charging).
        -- apply is_charging_holds with (self := self). intros t q. exact He.
        -- apply watch_removal_present. intros t q. exact Hp.
    + reflexivity.
    + cbn [entry_events app]. rewrite <- !app_assoc. reflexivity.
  - destruct (HF eq_refl) as (Hb & Ha & H1).
    assert (He : entry_condition self s Full = true)
      by (cbn; rewrite Hp, Ha, H1; reflexivity).
    eexists. apply (run_main_loop_enters self s fuel _ _ Hp).
    unfold battery_tick. eapply stalls_eq.
    + eapply stalls_bind.
      * unfold discharge_block. passed_guard Hb. apply yields_ret.
      * cbv beta iota. apply stalls_first. unfold ac_block.
        known_guard Ha. cbn [when]. known_guard H1. cbn [when].
        apply stalls_first.
        unfold full_branch, full_hold.
        eapply stalls_bind; [apply debug_print_runs |]. cbv beta.
        eapply stalls_bind; [apply yields_sleep |]. cbv beta.
        eapply stalls_bind; [apply yields_emit |].
        apply (stalls_while (S fuel) _ _ 1 [Sleep 1]).
        -- apply is_full_holds with (self := self). intros t q. exact He.
        -- apply watch_removal_present. intros t q. exact Hp.
    + reflexivity.
    + cbn [entry_events app]. rewrite rounds_single, <- !app_assoc.
      reflexivity.
Qed.

Lemma notifications_sleeps z n : notifications (repeat (Sleep z) n) = [].
Proof. induction n as [| n IH]; [reflexivity | exact IH]. Qed.

Lemma notifications_app tr1 tr2 :
  notifications (tr1 ++ tr2) = notifications tr1 ++ notifications tr2.
Proof. apply flat_map_app. Qed.

(** C8, as amended: on entry into Discharging, Low, Critical and Charging
    the loop waits for the battery time before the entry notification: no
    sleep when the time is known, one sleep of [battery_update_timeout]
    seconds when it is unknown, after which it goes on anyway and passes
    the time on as read, ['Unknown'] included.  On entry into Full it does
    not look at the battery time: it always sleeps [battery_update_timeout]
    seconds once before the notification.  (Stated for a telemetry that
    stays at one sample [s] of the state.) *)
Theorem entry_wait (self : MainRun) (s : Sample) (st : PowerState)
    (fuel : nat) (w : World) :
  classify self s = st ->
  In st [Discharging; Low; Critical; Charging; Full] ->
  sleeps (before_notification
            (new_events w
               (world_of (run_main_loop self (constant s) (S fuel) w))))
  = entry_sleeps self s st
  /\ notifications
       (new_events w (world_of (run_main_loop self (constant s) (S fuel) w)))
     = entry_notification s st.
Proof.
  intros Hc Hin.
  destruct (run_main_loop_entry self s st fuel Hc Hin) as (d & Hs).
  destruct (Hs w) as (k & E). rewrite E. cbn [world_of].
  rewrite new_events_extend.
  cbn in Hin.
  destruct Hin as [<- | [<- | [<- | [<- | [<- | []]]]]];
    unfold entry_events, entry_sleeps, entry_notification, wait_events,
      debug_print;
    (split;
     [ destruct (debug self), (is_unknown (timeRemaining s)); reflexivity
     | rewrite !notifications_app, notifications_sleeps;
       destruct (debug self), (is_unknown (timeRemaining s)); reflexivity ]).
Qed.

Lemma entry_wait_witness :
  sleeps (before_notification
            (new_events w0
               (world_of (run_main_loop default_run (constant full_sample) 3 w0))))
  = [6]
  /\ notifications
       (new_events w0
          (world_of (run_main_loop default_run (constant full_sample) 3 w0)))
     = [full_battery].
Proof.
  apply (entry_wait default_run full_sample Full 2 w0).
  - reflexivity.
  - cbn. tauto.
Defined.

(** C8, as stated, fails for Full: with a full battery whose time is known
    at every read, [__check_battery_update_times] would return without
    sleeping, and the entry into Charging with a known time does not sleep;
    yet the loop sleeps 6 seconds before the "full" notification. *)
Lemma full_entry_sleeps_with_known_time :
  is_unknown (timeRemaining full_sample) = false
  /\ sleeps (new_events w0
               (world_of
                  (check_battery_update_times default_run
                     (constant full_sample) 1 w0)))
     = []
  /\ sleeps (before_notification
               (new_events w0
                  (world_of
                     (run_main_loop default_run (constant charging_sample) 1 w0))))
     = []
  /\ sleeps (before_notification
               (new_events w0
                  (world_of
                     (run_main_loop default_run (constant full_sample) 1 w0))))
     = [6].
Proof. repeat split; vm_compute; reflexivity. Qed.

(** * The loop without a battery *)

(** C6 (the code differs): with a reminder of one minute and no battery for
    125 seconds, the repeated "no battery" notifications come 59 and 118
    seconds after the entry notification, not 60 and 120:
    [no_battery_counter] starts at 1 and is reset to 1, so it reaches
    [remainder_time_in_sek] after 59 sleeps of one second. *)
Lemma reminder_after_59_seconds :
  notification_times 0
    (new_events w0
       (world_of (run_main_loop reminder_run (constant no_battery_sample) 125 w0)))
  = [(0, no_battery); (59, no_battery); (118, no_battery)]
  /\ clock (world_of
              (run_main_loop reminder_run (constant no_battery_sample) 125 w0))
     = 125.
Proof. split; vm_compute; reflexivity. Qed.

(** C7 (the code differs): when the battery is put back just before the
    guard of the "no battery" loop is evaluated, the loop ends without a
    "battery plugged" notification and without the wait of one notification
    timeout, with or without a reminder; the next notification is the one
    of the state found next. *)
Lemma battery_back_at_loop_guard :
  batteryPresent (battery_back 0 1%nat) = false
  /\ acPresent (battery_back 0 2%nat) = true
  /\ batteryPresent (battery_back 0 3%nat) = true
  /\ no_battery_branch default_run battery_back 2 (mkWorld 0 1 [])
     = Done tt (mkWorld 0 4 [Notify no_battery])
  /\ no_battery_branch reminder_run battery_back 2 (mkWorld 0 1 [])
     = Done tt (mkWorld 0 4 [Notify no_battery])
  /\ new_events w0 (world_of (run_main_loop default_run battery_back 2 w0))
     = [Notify no_battery; Notify (battery_charging 50 (TimeLeft 30));
        Sleep 1; Sleep 1].
Proof. repeat split; vm_compute; reflexivity. Qed.

(** X7, the sibling path: the check inside the loop.  On a stable telemetry
    the guard of the loop never sees the battery first, and a "no battery"
    loop that ends has fired "battery plugged" once, as its last
    notification, and then slept one notification timeout. *)
Lemma plugged_once_on_stable_telemetry self tel :
  stable tel ->
  forall fuel counter w w',
    batteryPresent (tel (clock w) 0%nat) = false ->
    no_battery_loop self tel fuel counter w = Done tt w' ->
    exists pre,
      trace w'
      = trace w ++ pre ++ [Notify battery_plugged]
        ++ debug_print self dbg_plugged ++ [Sleep (timeout self / 1000)]
      /\ ~ In (Notify battery_plugged) pre.
Proof.
  intros Hst.
  assert (Hplug : forall c r tr,
             plugged self (mkWorld c r tr)
             = Done tt (mkWorld (c + timeout self / 1000) r
                          (tr ++ [Notify battery_plugged]
                           ++ debug_print self dbg_plugged
                           ++ [Sleep (timeout self / 1000)]))).
  { intros c r tr. unfold plugged, debug_print.
    destruct (debug self);
      unfold when, notify, print, emit, sleep, bind, ret;
      cbn [clock reads trace]; rewrite <- ?app_assoc; reflexivity. }
  induction fuel as [| n IH]; intros counter [c r tr] w' Hp Hrun;
    cbn [clock] in Hp; [discriminate Hrun |].
  cbn [no_battery_loop] in Hrun.
  unfold is_battery_present, read, sleep, notify, emit, bind at 1 in Hrun.
  cbn [clock reads trace] in Hrun.
  rewrite (Hst c r 0%nat), Hp in Hrun. cbn [negb] in Hrun.
  destruct (set_no_battery_remainder self >? 0).
  - unfold bind in Hrun at 1 2. cbn [clock reads trace] in Hrun.
    rewrite (Hst (c + 1) (S r) 0%nat) in Hrun.
    destruct (batteryPresent (tel (c + 1) 0%nat)) eqn:Hp1.
    + rewrite Hplug in Hrun. injection Hrun as <-.
      exists [Sleep 1]. cbn [trace]. rewrite <- !app_assoc. split;
        [reflexivity | intros [H | []]; discriminate H].
    + unfold bind in Hrun at 1. cbn [clock reads trace] in Hrun.
      rewrite (Hst (c + 1) (S (S r)) 0%nat), Hp1 in Hrun. cbn [negb andb] in Hrun.
      destruct (counter + 1 =? set_no_battery_remainder self * 60).
      * unfold bind in Hrun at 1. cbn [clock reads trace] in Hrun.
        destruct ((fun H => IH _ _ _ H Hrun) Hp1) as (pre & E & Hno).
        exists (Sleep 1 :: Notify no_battery :: pre).
        cbn [trace] in E. rewrite E, <- !app_assoc. split; [reflexivity |].
        intros [H | [H | H]]; [discriminate H | discriminate H | auto].
      * destruct ((fun H => IH _ _ _ H Hrun) Hp1) as (pre & E & Hno).
        exists (Sleep 1 :: pre).
        cbn [trace] in E. rewrite E, <- !app_assoc. split; [reflexivity |].
        intros [H | H]; [discriminate H | auto].
  - unfold bind in Hrun at 1 2. cbn [clock reads trace] in Hrun.
    rewrite (Hst (c + 1) (S r) 0%nat) in Hrun.
    destruct (batteryPresent (tel (c + 1) 0%nat)) eqn:Hp1.
    + rewrite Hplug in Hrun. injection Hrun as <-.
      exists [Sleep 1]. cbn [trace]. rewrite <- !app_assoc. split;
        [reflexivity | intros [H | []]; discriminate H].
    + destruct ((fun H => IH _ _ _ H Hrun) Hp1) as (pre & E & Hno).
      exists (Sleep 1 :: pre).
      cbn [trace] in E. rewrite E, <- !app_assoc. split; [reflexivity |].
      intros [H | H]; [discriminate H | auto].
Qed.

(** * The hold loops over time *)

(** On a stable telemetry a guard made of reads only answers from the
    sample of the current time. *)
Ltac guard_at Hst :=
  intros [c r tr]; unfold at_time;
  unfold on_battery, above_low, in_low, in_critical, at_minimal, on_ac, is_full,
    is_charging, battery_missing, is_battery_present, is_ac_present,
    is_battery_discharging, is_battery_fully_charged, battery_current_capacity,
    battery_time, bind, read, ret, extend;
  unfold_guards;
  cbn [clock reads trace];
  rewrite ?(Hst c r 0%nat), ?(Hst c (S r) 0%nat), ?(Hst c (S (S r)) 0%nat);
  repeat match goal with
    | |- context [if ?b then _ else _] =>
        destruct b;
        cbn [clock reads trace negb andb];
        rewrite ?(Hst c r 0%nat), ?(Hst c (S r) 0%nat),
          ?(Hst c (S (S r)) 0%nat)
    end;
  rewrite ?Z.add_0_r, ?app_nil_r;
  first [ exists 1%nat; reflexivity
        | exists 2%nat; reflexivity
        | exists 3%nat; reflexivity ].

Section StableGuards.

Variable self : MainRun.
Variable tel : Telemetry.
Hypothesis Hst : stable tel.

Lemma is_battery_present_at :
  forall w, exists k,
    is_battery_present tel w
    = Done (batteryPresent (at_time tel (clock w))) (extend k 0 [] w).
Proof. guard_at Hst. Qed.

Lemma above_low_at :
  forall w, exists k,
    above_low self tel w
    = Done (above_low_of self (at_time tel (clock w))) (extend k 0 [] w).
Proof. guard_at Hst. Qed.

Lemma in_low_at :
  forall w, exists k,
    in_low self tel w
    = Done (in_low_of self (at_time tel (clock w))) (extend k 0 [] w).
Proof. guard_at Hst. Qed.

Lemma in_critical_at :
  forall w, exists k,
    in_critical self tel w
    = Done (in_critical_of self (at_time tel (clock w))) (extend k 0 [] w).
Proof. guard_at Hst. Qed.

Lemma is_full_at :
  forall w, exists k,
    is_full tel w = Done (is_full_of (at_time tel (clock w))) (extend k 0 [] w).
Proof. guard_at Hst. Qed.

Lemma is_charging_at :
  forall w, exists k,
    is_charging tel w
    = Done (is_charging_of (at_time tel (clock w))) (extend k 0 [] w).
Proof. guard_at Hst. Qed.

End StableGuards.

Section WhileOverTime.

Variable cond : M bool.
Variable body : M Ctl.
Variables P Q : Z -> bool.

Hypothesis Hcond :
  forall w, exists k, cond w = Done (P (clock w)) (extend k 0 [] w).
Hypothesis Hbody :
  forall w, Q (clock w) = true ->
            exists k, body w = Done Continue (extend k 1 [Sleep 1] w).

(** [n] passes that sleep one second each bring the loop back to its
    guard, [n] seconds later. *)
Lemma while_passes n : forall fuel w,
  (forall i, (i < n)%nat ->
             P (clock w + Z.of_nat i) = true /\ Q (clock w + Z.of_nat i) = true) ->
  exists k,
    while_ (n + fuel) cond body w
    = while_ fuel cond body (extend k (Z.of_nat n) (repeat (Sleep 1) n) w).
Proof.
  induction n as [| n IH]; intros fuel w Hall.
  - exists 0%nat. rewrite extend_nil. reflexivity.
  - destruct (Hall 0%nat ltac:(lia)) as (HP & HQ).
    rewrite Z.add_0_r in HP, HQ.
    destruct (Hcond w) as (k0 & E0). rewrite HP in E0.
    destruct (Hbody (extend k0 0 [] w)) as (k1 & E1).
    { cbn [extend clock]. rewrite Z.add_0_r. exact HQ. }
    destruct (IH fuel (extend k1 1 [Sleep 1] (extend k0 0 [] w))) as (k2 & E2).
    { intros i Hi. cbn [extend clock].
      replace (clock w + 0 + 1 + Z.of_nat i) with (clock w + Z.of_nat (S i))
        by lia.
      apply Hall. lia. }
    exists (k2 + (k1 + k0))%nat.
    cbn [Nat.add while_].
    rewrite (bind_done _ _ _ _ _ E0). cbv beta iota.
    rewrite (bind_done _ _ _ _ _ E1). cbv beta iota.
    rewrite E2, !extend_extend. f_equal.
    apply extend_eq; [lia | lia | reflexivity].
Qed.

(** The loop ends without an effect at the first time its guard fails. *)
Lemma while_until n fuel w :
  (forall i, (i < n)%nat ->
             P (clock w + Z.of_nat i) = true /\ Q (clock w + Z.of_nat i) = true) ->
  P (clock w + Z.of_nat n) = false ->
  (n < fuel)%nat ->
  exists k,
    while_ fuel cond body w
    = Done tt (extend k (Z.of_nat n) (repeat (Sleep 1) n) w).
Proof.
  intros Hall Hend Hfuel.
  destruct (while_passes n (fuel - n) w Hall) as (k & E).
  replace (n + (fuel - n))%nat with fuel in E by lia. rewrite E.
  destruct (fuel - n)%nat as [| f] eqn:Hf; [lia |].
  cbn [while_].
  destruct (Hcond (extend k (Z.of_nat n) (repeat (Sleep 1) n) w)) as (k0 & E0).
  change (clock (extend k (Z.of_nat n) (repeat (Sleep 1) n) w))
    with (clock w + Z.of_nat n) in E0.
  rewrite Hend in E0.
  rewrite (bind_done _ _ _ _ _ E0). cbv beta iota. unfold ret.
  exists (k0 + k)%nat. rewrite extend_extend. f_equal.
  apply extend_eq; [reflexivity | lia | apply app_nil_r].
Qed.

(** The loop ends with the effects of its last pass when that pass
    breaks. *)
Lemma while_until_break n fuel w d evs :
  (forall i, (i < n)%nat ->
             P (clock w + Z.of_nat i) = true /\ Q (clock w + Z.of_nat i) = true) ->
  P (clock w + Z.of_nat n) = true ->
  (forall w', clock w' = clock w + Z.of_nat n ->
              exists k, body w' = Done Break (extend k d evs w')) ->
  (n < fuel)%nat ->
  exists k,
    while_ fuel cond body w
    = Done tt (extend k (Z.of_nat n + d) (repeat (Sleep 1) n ++ evs) w).
Proof.
  intros Hall Hend Hbreak Hfuel.
  destruct (while_passes n (fuel - n) w Hall) as (k & E).
  replace (n + (fuel - n))%nat with fuel in E by lia. rewrite E.
  destruct (fuel - n)%nat as [| f] eqn:Hf; [lia |].
  cbn [while_].
  destruct (Hcond (extend k (Z.of_nat n) (repeat (Sleep 1) n) w)) as (k0 & E0).
  change (clock (extend k (Z.of_nat n) (repeat (Sleep 1) n) w))
    with (clock w + Z.of_nat n) in E0.
  rewrite Hend in E0.
  rewrite (bind_done _ _ _ _ _ E0). cbv beta iota.
  destruct (Hbreak (extend k0 0 []
                      (extend k (Z.of_nat n) (repeat (Sleep 1) n) w)))
    as (k1 & E1).
  { cbn [extend clock]. lia. }
  rewrite (bind_done _ _ _ _ _ E1). cbv beta iota. unfold ret.
  exists (k1 + (k0 + k))%nat. rewrite !extend_extend. f_equal.
  apply extend_eq; [lia | lia | reflexivity].
Qed.

End WhileOverTime.

Section HoldOverTime.

Variable self : MainRun.
Variable tel : Telemetry.
Hypothesis Hst : stable tel.

Lemma sleep_pass (Q : Z -> bool) :
  forall w, Q (clock w) = true ->
            exists k,
              (sleep 1 ;; ret Continue) w
              = Done Continue (extend k 1 [Sleep 1] w).
Proof. intros w _. apply sleep_one_second. Qed.

Lemma watch_pass m :
  forall w, batteryPresent (at_time tel (clock w)) = true ->
            exists k,
              watch_removal self tel m w
              = Done Continue (extend k 1 [Sleep 1] w).
Proof.
  intros w Hp. destruct (is_battery_present_at tel Hst w) as (k & E).
  rewrite Hp in E. exists k. unfold watch_removal.
  rewrite (bind_done _ _ _ _ _ E). cbn [negb].
  unfold sleep, bind, ret, extend. cbn [clock reads trace].
  rewrite Z.add_0_r, app_nil_r. reflexivity.
Qed.

Lemma watch_break w :
  batteryPresent (at_time tel (clock w)) = false ->
  exists k,
    watch_removal self tel dbg_removed w
    = Done Break (extend k (timeout self / 1000) (removal_events self) w).
Proof.
  intros Hp. destruct (is_battery_present_at tel Hst w) as (k & E).
  rewrite Hp in E. exists k. unfold watch_removal.
  rewrite (bind_done _ _ _ _ _ E). cbn [negb].
  unfold removal_events, debug_print.
  destruct (debug self);
    unfold when, notify, print, emit, sleep, bind, ret, extend;
    cbn [clock reads trace];
    rewrite Z.add_0_r, app_nil_r, <- ?app_assoc; reflexivity.
Qed.

(** The two reads and the notification before a hold loop. *)
Lemma after_notification
    (mk : Z -> BatteryTime -> Notification) (loop : M unit) w d evs :
  (forall w', clock w' = clock w ->
              exists k, loop w' = Done tt (extend k d evs w')) ->
  exists c t k,
    (c <- battery_current_capacity tel ;;
     t <- battery_time tel ;;
     notify (mk c t) ;;
     loop) w
    = Done tt (extend k d (Notify (mk c t) :: evs) w).
Proof.
  intros Hloop.
  set (c := capacityPercent (tel (clock w) (reads w))).
  set (t := timeRemaining (tel (clock w) (S (reads w)))).
  destruct (Hloop (mkWorld (clock w) (S (S (reads w)))
                     (trace w ++ [Notify (mk c t)])) eq_refl) as (k & E).
  exists c, t, (k + 2)%nat.
  unfold battery_current_capacity, battery_time, read, notify, emit,
    bind at 1 2 3.
  cbn [clock reads trace]. fold c t. rewrite E.
  unfold extend. cbn [clock reads trace].
  rewrite <- app_assoc. do 2 f_equal. lia.
Qed.

End HoldOverTime.

(** X1: on a telemetry that does not change between two reads with no
    sleep between them, the hold loop of a state entered at time [c] whose
    guard is true at [c], [c+1], ..., [c+n-1] (with the battery present,
    for Full and Charging) and false at [c+n] sleeps exactly [n] times one
    second and then ends without any further notification or command. *)
Theorem hold_loop_ends_when_guard_fails
    (self : MainRun) (tel : Telemetry) (st : PowerState)
    (n fuel : nat) (w : World) :
  stable tel ->
  In st [Discharging; Low; Critical; Charging; Full] ->
  (forall i, (i < n)%nat -> holds_at self tel st (clock w + Z.of_nat i)) ->
  hold_condition self (at_time tel (clock w + Z.of_nat n)) st = false ->
  (n < fuel)%nat ->
  exists x k,
    announces st x
    /\ notify_and_hold self tel st fuel w
       = Done tt (extend k (Z.of_nat n) (Notify x :: repeat (Sleep 1) n) w).
Proof.
  intros Hst Hin Hall Hend Hfuel. unfold holds_at in Hall. cbn in Hin.
  destruct Hin as [<- | [<- | [<- | [<- | [<- | []]]]]];
    cbn [notify_and_hold hold_condition watches] in *.
  - destruct (after_notification tel battery_discharging
                (while_ fuel (above_low self tel) (sleep 1 ;; ret Continue))
                w (Z.of_nat n) (repeat (Sleep 1) n)) as (c & t & k & E).
    { intros w' Hc.
      apply (while_until _ _ (fun t => above_low_of self (at_time tel t))
               (fun _ => true) (above_low_at self tel Hst)
               (sleep_pass (fun _ => true)));
        rewrite ?Hc; auto.
      intros i Hi. split; [apply Hall, Hi | reflexivity]. }
    exists (battery_discharging c t), k. split; [exact I | exact E].
  - destruct (after_notification tel low_capacity_level
                (while_ fuel (in_low self tel) (sleep 1 ;; ret Continue))
                w (Z.of_nat n) (repeat (Sleep 1) n)) as (c & t & k & E).
    { intros w' Hc.
      apply (while_until _ _ (fun t => in_low_of self (at_time tel t))
               (fun _ => true) (in_low_at self tel Hst)
               (sleep_pass (fun _ => true)));
        rewrite ?Hc; auto.
      intros i Hi. split; [apply Hall, Hi | reflexivity]. }
    exists (low_capacity_level c t), k. split; [exact I | exact E].
  - destruct (after_notification tel critical_battery_level
                (while_ fuel (in_critical self tel) (sleep 1 ;; ret Continue))
                w (Z.of_nat n) (repeat (Sleep 1) n)) as (c & t & k & E).
    { intros w' Hc.
      apply (while_until _ _ (fun t => in_critical_of self (at_time tel t))
               (fun _ => true) (in_critical_at self tel Hst)
               (sleep_pass (fun _ => true)));
        rewrite ?Hc; auto.
      intros i Hi. split; [apply Hall, Hi | reflexivity]. }
    exists (critical_battery_level c t), k. split; [exact I | exact E].
  - destruct (after_notification tel battery_charging
                (while_ fuel (is_charging tel)
                   (watch_removal self tel dbg_removed))
                w (Z.of_nat n) (repeat (Sleep 1) n)) as (c & t & k & E).
    { intros w' Hc.
      apply (while_until _ _ (fun t => is_charging_of (at_time tel t))
               (fun t => batteryPresent (at_time tel t))
               (is_charging_at tel Hst) (watch_pass self tel Hst dbg_removed));
        rewrite ?Hc; auto.
      intros i Hi. destruct (Hall i Hi) as (H1 & H2). auto. }
    exists (battery_charging c t), k. split; [exact I | exact E].
  - destruct (while_until _ _ (fun t => is_full_of (at_time tel t))
                (fun t => batteryPresent (at_time tel t))
                (is_full_at tel Hst) (watch_pass self tel Hst dbg_removed)
                n fuel (extend 0 0 [Notify full_battery] w))
      as (k & E).
    { intros i Hi. cbn [extend clock]. rewrite Z.add_0_r.
      destruct (Hall i Hi) as (H1 & H2). auto. }
    { cbn [extend clock]. rewrite Z.add_0_r. exact Hend. }
    { exact Hfuel. }
    exists full_battery, k. split; [exact I |].
    unfold full_hold.
    rewrite (bind_done _ _ _ tt (extend 0 0 [Notify full_battery] w)).
    + rewrite E, extend_extend. f_equal.
      apply extend_eq; [lia | lia | reflexivity].
    + unfold notify, emit, extend. cbn. rewrite Z.add_0_r. reflexivity.
Qed.

Lemma hold_loop_ends_when_guard_fails_witness :
  exists x k,
    announces Discharging x
    /\ notify_and_hold default_run drain Discharging 10 w0
       = Done tt (extend k 7 (Notify x :: repeat (Sleep 1) 7) w0).
Proof.
  apply (hold_loop_ends_when_guard_fails default_run drain Discharging 7 10 w0).
  - intros t q q'. reflexivity.
  - cbn. tauto.
  - intros i Hi.
    do 7 (destruct i as [| i]; [split; [reflexivity | discriminate] |]).
    lia.
  - reflexivity.
  - lia.
Defined.

(** X2: on a stable telemetry, when the battery is taken out [n] seconds
    after the entry into Full or Charging while the guard of the hold loop
    still holds, the loop has slept [n] times one second, then fires one
    "battery removed" notification, sleeps one notification timeout and
    leaves the hold loop. *)
Theorem battery_removed_during_hold
    (self : MainRun) (tel : Telemetry) (st : PowerState)
    (n fuel : nat) (w : World) :
  stable tel ->
  In st [Charging; Full] ->
  (forall i, (i < n)%nat -> holds_at self tel st (clock w + Z.of_nat i)) ->
  hold_condition self (at_time tel (clock w + Z.of_nat n)) st = true ->
  batteryPresent (at_time tel (clock w + Z.of_nat n)) = false ->
  (n < fuel)%nat ->
  exists x k,
    announces st x
    /\ notify_and_hold self tel st fuel w
       = Done tt
           (extend k (Z.of_nat n + timeout self / 1000)
              (Notify x :: repeat (Sleep 1) n ++ removal_events self) w).
Proof.
  intros Hst Hin Hall Hend Hgone Hfuel. unfold holds_at in Hall. cbn in Hin.
  destruct Hin as [<- | [<- | []]];
    cbn [notify_and_hold hold_condition watches] in *.
  - destruct (after_notification tel battery_charging
                (while_ fuel (is_charging tel)
                   (watch_removal self tel dbg_removed))
                w (Z.of_nat n + timeout self / 1000)
                (repeat (Sleep 1) n ++ removal_events self))
      as (c & t & k & E).
    { intros w' Hc.
      apply (while_until_break _ _ (fun t => is_charging_of (at_time tel t))
               (fun t => batteryPresent (at_time tel t))
               (is_charging_at tel Hst) (watch_pass self tel Hst dbg_removed));
        rewrite ?Hc; auto.
      - intros i Hi. destruct (Hall i Hi) as (H1 & H2). auto.
      - intros w'' Hc'. apply (watch_break self tel Hst).
        rewrite Hc'. exact Hgone. }
    exists (battery_charging c t), k. split; [exact I | exact E].
  - destruct (while_until_break _ _ (fun t => is_full_of (at_time tel t))
                (fun t => batteryPresent (at_time tel t))
                (is_full_at tel Hst) (watch_pass self tel Hst dbg_removed)
                n fuel (extend 0 0 [Notify full_battery] w)
                (timeout self / 1000) (removal_events self))
      as (k & E).
    { intros i Hi. cbn [extend clock]. rewrite Z.add_0_r.
      destruct (Hall i Hi) as (H1 & H2). auto. }
    { cbn [extend clock]. rewrite Z.add_0_r. exact Hend. }
    { intros w' Hc. apply (watch_break self tel Hst).
      rewrite Hc. cbn [extend clock]. rewrite Z.add_0_r. exact Hgone. }
    { exact Hfuel. }
    exists full_battery, k. split; [exact I |].
    unfold full_hold.
    rewrite (bind_done _ _ _ tt (extend 0 0 [Notify full_battery] w)).
    + rewrite E, extend_extend. f_equal.
      apply extend_eq; [lia | lia | reflexivity].
    + unfold notify, emit, extend. cbn. rewrite Z.add_0_r. reflexivity.
Qed.

Lemma battery_removed_during_hold_witness :
  exists x k,
    announces Full x
    /\ notify_and_hold default_run taken_out Full 5 w0
       = Done tt
           (extend k (3 + 6)
              (Notify x :: repeat (Sleep 1) 3
               ++ [Notify battery_removed; Sleep 6]) w0).
Proof.
  apply (battery_removed_during_hold default_run taken_out Full 3 5 w0).
  - intros t q q'. reflexivity.
  - cbn. tauto.
  - intros i Hi.
    do 3 (destruct i as [| i]; [split; reflexivity |]).
    lia.
  - reflexivity.
  - reflexivity.
  - lia.
Defined.

(** * The loop without a battery, in general *)

Section NoBattery.

Variable self : MainRun.
Variable tel : Telemetry.
Hypothesis Hmissing : forall t q, battery_missing_of (tel t q) = true.

Lemma battery_absent : forall t q, batteryPresent (tel t q) = false.
Proof.
  intros t q. generalize (Hmissing t q). unfold battery_missing_of.
  destruct (batteryPresent (tel t q)); [discriminate | reflexivity].
Qed.

Lemma battery_missing_holds : yields (battery_missing tel) true 0 [].
Proof.
  assert (Ha : forall t q, acPresent (tel t q) = true).
  { intros t q. generalize (Hmissing t q). unfold battery_missing_of.
    rewrite andb_true_iff. tauto. }
  run_guard. rewrite battery_absent. cbn [negb]. rewrite Ha.
  exists 2%nat. reflexivity.
Qed.

(** One pass of the loop without a reminder. *)
Lemma no_battery_pass_silent fuel cnt w :
  (set_no_battery_remainder self >? 0) = false ->
  exists k,
    no_battery_loop self tel (S fuel) cnt w
    = no_battery_loop self tel fuel cnt (extend k 1 [Sleep 1] w).
Proof.
  intros HR. destruct w as [c r tr]. exists 2%nat.
  cbn [no_battery_loop]. rewrite HR.
  unfold is_battery_present, read, sleep, bind.
  cbn [clock reads trace]. rewrite battery_absent.
  cbn [negb clock reads trace]. rewrite battery_absent. reflexivity.
Qed.

(** One pass of the loop with a reminder. *)
Lemma no_battery_pass_counting fuel cnt w :
  (set_no_battery_remainder self >? 0) = true ->
  exists k,
    no_battery_loop self tel (S fuel) cnt w
    = if cnt + 1 =? set_no_battery_remainder self * 60
      then no_battery_loop self tel fuel 1
             (extend k 1 [Sleep 1; Notify no_battery] w)
      else no_battery_loop self tel fuel (cnt + 1) (extend k 1 [Sleep 1] w).
Proof.
  intros HR. destruct w as [c r tr]. exists 3%nat.
  cbn [no_battery_loop]. rewrite HR.
  unfold is_battery_present, read, sleep, notify, emit, bind.
  cbn [clock reads trace]. rewrite battery_absent.
  cbn [negb clock reads trace]. rewrite !battery_absent. cbn [negb andb].
  destruct (cnt + 1 =? set_no_battery_remainder self * 60).
  - cbn [clock reads trace extend]. rewrite <- app_assoc. reflexivity.
  - reflexivity.
Qed.

Lemma no_battery_loop_silent fuel cnt :
  (set_no_battery_remainder self >? 0) = false ->
  stalls (no_battery_loop self tel fuel cnt) (Z.of_nat fuel)
    (repeat (Sleep 1) fuel).
Proof.
  intros HR. induction fuel as [| n IH]; intros w.
  - exists 0%nat. cbn. rewrite extend_nil. reflexivity.
  - destruct (no_battery_pass_silent n cnt w HR) as (k & E).
    destruct (IH (extend k 1 [Sleep 1] w)) as (k' & E').
    exists (k' + k)%nat. rewrite E, E', extend_extend. f_equal.
    apply extend_eq; [reflexivity | lia | reflexivity].
Qed.

(** [q] passes after which the counter reaches the reminder time. *)
Lemma no_battery_until_reminder q : forall fuel cnt w,
  (set_no_battery_remainder self >? 0) = true ->
  cnt + Z.of_nat (S q) = set_no_battery_remainder self * 60 ->
  exists k,
    no_battery_loop self tel (S q + fuel) cnt w
    = no_battery_loop self tel fuel 1
        (extend k (Z.of_nat (S q))
           (repeat (Sleep 1) (S q) ++ [Notify no_battery]) w).
Proof.
  induction q as [| q IH]; intros fuel cnt w HR Hcnt.
  - destruct (no_battery_pass_counting fuel cnt w HR) as (k & E).
    exists k. cbn [Nat.add]. rewrite E.
    replace (cnt + 1 =? set_no_battery_remainder self * 60) with true
      by (symmetry; apply Z.eqb_eq; lia).
    reflexivity.
  - destruct (no_battery_pass_counting (S q + fuel) cnt w HR) as (k & E).
    destruct (IH fuel (cnt + 1) (extend k 1 [Sleep 1] w) HR) as (k' & E');
      [lia |].
    exists (k' + k)%nat.
    change (S (S q) + fuel)%nat with (S (S q + fuel)). rewrite E.
    replace (cnt + 1 =? set_no_battery_remainder self * 60) with false
      by (symmetry; apply Z.eqb_neq; lia).
    rewrite E', extend_extend. f_equal.
    apply extend_eq; [reflexivity | lia | reflexivity].
Qed.

Lemma no_battery_loop_periods m :
  1 <= set_no_battery_remainder self ->
  stalls (no_battery_loop self tel (m * reminder_period self) 1)
    (Z.of_nat (m * reminder_period self))
    (rounds m (repeat (Sleep 1) (reminder_period self) ++ [Notify no_battery])).
Proof.
  intros HR1.
  assert (HR : (set_no_battery_remainder self >? 0) = true)
    by (rewrite Z.gtb_ltb; apply Z.ltb_lt; lia).
  assert (Hp : exists q, reminder_period self = S q).
  { unfold reminder_period.
    exists (Z.to_nat (set_no_battery_remainder self * 60 - 2)). lia. }
  destruct Hp as (q & Hq).
  assert (Hcnt : 1 + Z.of_nat (S q) = set_no_battery_remainder self * 60).
  { rewrite <- Hq. unfold reminder_period. lia. }
  rewrite Hq.
  induction m as [| m IH]; intros w.
  - exists 0%nat. cbn. rewrite extend_nil. reflexivity.
  - destruct (no_battery_until_reminder q (m * S q) 1 w HR Hcnt) as (k & E).
    destruct (IH (extend k (Z.of_nat (S q))
                    (repeat (Sleep 1) (S q) ++ [Notify no_battery]) w))
      as (k' & E').
    exists (k' + k)%nat.
    change (S m * S q)%nat with (S q + m * S q)%nat.
    rewrite E, E', extend_extend. f_equal.
    apply extend_eq; [reflexivity | lia | reflexivity].
Qed.

End NoBattery.

(** X3: without a reminder ([set_no_battery_remainder] not positive), while
    the battery is away and AC is present on every read, the loop fires the
    "no battery" notification once and then only sleeps one second per
    pass: it never repeats the notification. *)
Theorem no_reminder_when_disabled
    (self : MainRun) (tel : Telemetry) (fuel : nat) (w : World) :
  set_no_battery_remainder self <= 0 ->
  (forall t q, battery_missing_of (tel t q) = true) ->
  exists k,
    no_battery_branch self tel fuel w
    = OutOfFuel
        (extend k (Z.of_nat fuel)
           ([Notify no_battery] ++ debug_print self dbg_no_battery
            ++ repeat (Sleep 1) fuel) w).
Proof.
  intros HR Hm.
  assert (HR' : (set_no_battery_remainder self >? 0) = false)
    by (rewrite Z.gtb_ltb; apply Z.ltb_ge; lia).
  assert (Hs : stalls (no_battery_branch self tel fuel) (Z.of_nat fuel)
                 ([Notify no_battery] ++ debug_print self dbg_no_battery
                  ++ repeat (Sleep 1) fuel)).
  { unfold no_battery_branch. eapply stalls_eq.
    - eapply stalls_bind; [apply (battery_missing_holds tel Hm) |].
      cbv beta. cbn [when].
      eapply stalls_bind; [apply yields_emit |].
      eapply stalls_bind; [apply debug_print_runs |].
      apply (no_battery_loop_silent self tel Hm fuel 1 HR').
    - lia.
    - reflexivity. }
  apply Hs.
Qed.

Lemma no_reminder_when_disabled_witness :
  exists k,
    no_battery_branch default_run (constant no_battery_sample) 4 w0
    = OutOfFuel
        (extend k 4 [Notify no_battery; Sleep 1; Sleep 1; Sleep 1; Sleep 1] w0).
Proof.
  apply (no_reminder_when_disabled default_run (constant no_battery_sample) 4 w0).
  - cbn. lia.
  - intros t q. reflexivity.
Defined.

(** X4: with a reminder of [R >= 1] minutes, while the battery is away and
    AC is present on every read, the "no battery" notification is repeated
    after every [60 R - 1] sleeps of one second (the counter starts at 1):
    [m] periods after the entry notification the loop has fired exactly [m]
    repeats, one at the end of each period. *)
Theorem reminder_every_period
    (self : MainRun) (tel : Telemetry) (m : nat) (w : World) :
  1 <= set_no_battery_remainder self ->
  (forall t q, battery_missing_of (tel t q) = true) ->
  exists k,
    no_battery_branch self tel (m * reminder_period self) w
    = OutOfFuel
        (extend k (Z.of_nat (m * reminder_period self))
           ([Notify no_battery] ++ debug_print self dbg_no_battery
            ++ rounds m (repeat (Sleep 1) (reminder_period self)
                         ++ [Notify no_battery])) w).
Proof.
  intros HR Hm.
  assert (Hs : stalls (no_battery_branch self tel (m * reminder_period self))
                 (Z.of_nat (m * reminder_period self))
                 ([Notify no_battery] ++ debug_print self dbg_no_battery
                  ++ rounds m (repeat (Sleep 1) (reminder_period self)
                               ++ [Notify no_battery]))).
  { unfold no_battery_branch. eapply stalls_eq.
    - eapply stalls_bind; [apply (battery_missing_holds tel Hm) |].
      cbv beta. cbn [when].
      eapply stalls_bind; [apply yields_emit |].
      eapply stalls_bind; [apply debug_print_runs |].
      apply (no_battery_loop_periods self tel Hm m HR).
    - lia.
    - reflexivity. }
  apply Hs.
Qed.

Lemma reminder_every_period_witness :
  exists k,
    no_battery_branch reminder_run (constant no_battery_sample) (2 * 59) w0
    = OutOfFuel
        (extend k 118
           ([Notify no_battery]
            ++ rounds 2 (repeat (Sleep 1) 59 ++ [Notify no_battery])) w0).
Proof.
  apply (reminder_every_period reminder_run (constant no_battery_sample) 2 w0).
  - cbn. lia.
  - intros t q. reflexivity.
Defined.

Lemma plugged_once_on_stable_telemetry_witness :
  exists pre,
    trace (world_of (no_battery_loop default_run put_back 5 1 w0))
    = trace w0 ++ pre ++ [Notify battery_plugged]
      ++ debug_print default_run dbg_plugged
      ++ [Sleep (timeout default_run / 1000)]
    /\ ~ In (Notify battery_plugged) pre.
Proof.
  apply (plugged_once_on_stable_telemetry default_run put_back
           (fun t q q' => eq_refl) 5 1 w0).
  - reflexivity.
  - vm_compute. reflexivity.
Defined.

(** * The escalation, whatever the telemetry *)

Lemma countdown_runs :
  yields (for_range 4 (sleep 5 ;; popen sound_command ;; ret Continue) ;;
          sleep 1 ;;
          popen screenlock_command ;;
          popen minimal_battery_level_command ;;
          ret Continue)
    Continue 21 phase_C_events.
Proof.
  unfold phase_C_events. eapply yields_eq.
  - eapply yields_bind.
    + apply (yields_for 4 _ 5 [Sleep 5; Popen sound_command]).
      eapply yields_eq; [yields_run | reflexivity | reflexivity].
    + yields_run.
  - reflexivity.
  - reflexivity.
Qed.

(** X8: whatever the telemetry answers and in either mode, the effects of
    the escalation are effects other than the screen-lock and power
    commands, followed or not by exactly the final countdown: four rounds
    of {sleep 5 seconds; sound}, a sleep of one second, the screen-lock
    command and the power command.  So the two commands are run at most
    once each, in that order, as the last two effects, and never without
    the 21 seconds of countdown just before them. *)
Theorem power_commands_only_after_countdown
    (self : MainRun) (tel : Telemetry) (w : World) :
  exists pre,
    Forall harmless pre
    /\ (new_events w (world_of (escalation self tel w)) = pre
        \/ new_events w (world_of (escalation self tel w))
           = pre ++ phase_C_events).
Proof.
  unfold escalation.
  destruct (at_minimal_reads self tel w) as (b1 & k1 & E1).
  rewrite (bind_done _ _ _ _ _ E1).
  destruct b1;
    [| exists []; split; [constructor |]; left;
       cbn [world_of ret]; apply new_events_extend].
  destruct (test self) eqn:Ht; cbn [negb].
  - destruct (test_block_harmless self tel (extend k1 0 [] w)) as (tr & Etr & F).
    exists tr. split; [exact F |]. left.
    unfold new_events. rewrite Etr. cbn [extend trace].
    rewrite app_nil_r, skipn_app, skipn_all, Nat.sub_diag. reflexivity.
  - unfold real_thing.
    destruct (at_minimal_reads self tel (extend k1 0 [] w)) as (b2 & k2 & E2).
    rewrite (bind_done _ _ _ _ _ E2).
    destruct b2;
      [| exists []; split; [constructor |]; left; cbn [world_of ret];
         rewrite extend_extend; apply new_events_extend].
    destruct (first_warning_completes self tel
                (extend k2 0 [] (extend k1 0 [] w)))
      as ([] & kA & dA & trA & EA & FA).
    rewrite (bind_done _ _ _ _ _ EA).
    destruct (last_chance_completes self tel
                (extend kA dA trA (extend k2 0 [] (extend k1 0 [] w))))
      as ([] & kB & dB & trB & EB & FB).
    rewrite (bind_done _ _ _ _ _ EB).
    unfold lock_and_hibernate.
    destruct (at_minimal_reads self tel
                (extend kB dB trB
                   (extend kA dA trA (extend k2 0 [] (extend k1 0 [] w)))))
      as (b3 & k3 & E3).
    rewrite (bind_done _ _ _ _ _ E3).
    exists (trA ++ trB). split; [apply Forall_app; auto |].
    destruct b3.
    + right.
      destruct (countdown_runs
                  (extend k3 0 []
                     (extend kB dB trB
                        (extend kA dA trA
                           (extend k2 0 [] (extend k1 0 [] w))))))
        as (k4 & E4).
      rewrite E4. cbn [world_of].
      rewrite !extend_extend, new_events_extend. cbn [app].
      rewrite <- app_assoc. reflexivity.
    + left. cbn [world_of ret].
      rewrite !extend_extend, new_events_extend. cbn [app].
      rewrite app_nil_r. reflexivity.
Qed.

(** * The minimal level on a telemetry that does not change *)

Section MinimalPass.

Variable self : MainRun.
Variable s : Sample.
Hypothesis Hmin : classify self s = Minimal.

Lemma minimal_guards :
  batteryPresent s = true /\ on_battery_of s = true
  /\ above_low_of self s = false /\ in_low_of self s = false
  /\ in_critical_of self s = false /\ at_minimal_of self s = true
  /\ on_ac_of s = false.
Proof.
  unfold classify in Hmin.
  destruct (batteryPresent s);
    [| destruct (battery_missing_of s); discriminate].
  destruct (on_battery_of s) eqn:Hb.
  - destruct (above_low_of self s), (in_low_of self s),
      (in_critical_of self s), (at_minimal_of self s); try discriminate.
    repeat split. unfold on_battery_of, on_ac_of in *.
    destruct (acPresent s); [discriminate | reflexivity].
  - destruct (on_ac_of s), (is_full_of s), (is_charging_of s); discriminate.
Qed.

Lemma escalation_constant :
  exists d,
    yields (escalation self (constant s)) Continue d (escalation_events self s).
Proof.
  destruct minimal_guards as (_ & _ & _ & _ & _ & Hm & _).
  assert (Hall : forall (t : Z) (q : nat),
             at_minimal_of self (constant s t q) = true)
    by (intros; exact Hm).
  unfold escalation, escalation_events.
  destruct (test self) eqn:Ht; cbn [negb]; eexists.
  - eapply yields_eq.
    + eapply yields_bind; [apply at_minimal_constant |]. cbv beta. rewrite Hm.
      apply (test_block_runs self (constant s) Hall).
    + reflexivity.
    + reflexivity.
  - eapply yields_eq.
    + eapply yields_bind; [apply at_minimal_constant |]. cbv beta. rewrite Hm.
      unfold real_thing.
      eapply yields_bind; [apply at_minimal_constant |]. cbv beta. rewrite Hm.
      eapply yields_bind;
        [apply (first_warning_runs self (constant s) Hall) |].
      eapply yields_bind.
      * unfold last_chance.
        eapply yields_bind; [apply at_minimal_constant |]. cbv beta.
        rewrite Hm. cbn [when]. yields_run.
      * apply (lock_and_hibernate_runs self (constant s) Hall).
    + reflexivity.
    + unfold phase_B_events. cbn [app]. reflexivity.
Qed.

Lemma battery_tick_minimal fuel :
  exists d,
    yields (battery_tick self (constant s) (S fuel)) Continue d
      (minimal_pass_events self s).
Proof.
  destruct minimal_guards as (Hp & Hb & H1 & H2 & H3 & H4 & Ha).
  destruct escalation_constant as (d & Hesc).
  eexists. unfold battery_tick, minimal_pass_events. eapply yields_eq.
  - eapply yields_bind.
    + unfold discharge_block.
      passed_guard Hb. passed_guard H1. passed_guard H2. passed_guard H3.
      passed_guard H4.
      unfold hibernate_branch.
      eapply yields_bind; [apply debug_print_runs |].
      eapply yields_bind; [apply wait_constant |].
      eapply yields_bind; [apply battery_current_capacity_constant |].
      cbv beta.
      eapply yields_bind; [apply battery_time_constant |]. cbv beta.
      eapply yields_bind; [apply yields_emit | exact Hesc].
    + cbv beta iota. unfold ac_block.
      eapply yields_bind; [| apply yields_ret].
      passed_guard Ha. cbn [when]. apply yields_ret.
  - reflexivity.
  - cbn [app]. rewrite !app_nil_r. reflexivity.
Qed.

End MinimalPass.

(** X6: the minimal level has no hold loop.  While every read answers from
    one sample at the minimal level, every pass of the loop body fires the
    minimal-level notification again and runs the whole escalation again
    (the test block in dry-run mode, the three phases otherwise): after
    [fuel + 1] passes the effects are [fuel + 1] times those of one
    pass. *)
Theorem minimal_level_repeats
    (self : MainRun) (s : Sample) (fuel : nat) (w : World) :
  classify self s = Minimal ->
  new_events w (world_of (run_main_loop self (constant s) (S fuel) w))
  = rounds (S fuel) (minimal_pass_events self s).
Proof.
  intros Hmin.
  destruct (minimal_guards self s Hmin) as (Hp & _).
  destruct (battery_tick_minimal self s Hmin fuel) as (d & Htick).
  assert (Hbp := is_battery_present_constant s). rewrite Hp in Hbp.
  assert (Hs : stalls (run_main_loop self (constant s) (S fuel))
                 (Z.of_nat (S fuel) * (0 + d))
                 (rounds (S fuel) (minimal_pass_events self s))).
  { unfold run_main_loop. cbn [while_]. eapply stalls_eq.
    - eapply stalls_bind; [apply yields_ret |]. cbv beta iota.
      apply stalls_first. unfold main_tick. apply stalls_first.
      apply (stalls_while (S fuel) _ _ (0 + d)
               ([] ++ minimal_pass_events self s)).
      + exact Hbp.
      + exact Htick.
    - lia.
    - reflexivity. }
  destruct (Hs w) as (k & E). rewrite E. cbn [world_of].
  apply new_events_extend.
Qed.

Lemma minimal_level_repeats_witness :
  new_events w0
    (world_of
       (run_main_loop (mkMainRun false true true 6000 6 23 14 7 0)
          (constant minimal_sample) 3 w0))
  = rounds 3
      ([Notify (minimal_battery_level 5 (TimeLeft 4) 10000)]
       ++ rounds 5 [Popen sound_command; Sleep 2]
       ++ [Print test_hibernating; Sleep 10]).
Proof.
  apply (minimal_level_repeats (mkMainRun false true true 6000 6 23 14 7 0)
           minimal_sample 2 w0).
  reflexivity.
Defined.

(** * The wait for the battery time, when the time flaps *)

Lemma sleeps_app tr1 tr2 : sleeps (tr1 ++ tr2) = sleeps tr1 ++ sleeps tr2.
Proof. apply flat_map_app. Qed.

Lemma flaps_next self tel w w' :
  flaps self tel w ->
  reads w' = (reads w + pass_reads self)%nat ->
  flaps self tel w'.
Proof.
  intros H Hr t j. rewrite Hr. specialize (H t (S j)).
  replace (reads w + pass_reads self + j * pass_reads self)%nat
    with (reads w + S j * pass_reads self)%nat by lia.
  exact H.
Qed.

(** One pass of the loop when the time flaps: one sleep, and back to the
    guard. *)
Lemma flapping_pass self tel fuel w :
  flaps self tel w ->
  exists w1 tr,
    check_battery_update_times self tel (S fuel) w
    = check_battery_update_times self tel fuel w1
    /\ reads w1 = (reads w + pass_reads self)%nat
    /\ trace w1 = trace w ++ tr
    /\ sleeps tr = [battery_update_timeout self]
    /\ notifications tr = [].
Proof.
  intros H. destruct w as [c r tr0].
  assert (H0 := fun t => H t 0%nat). cbn [reads] in H0.
  unfold pass_reads in *. unfold check_battery_update_times.
  cbn [while_].
  destruct (debug self);
    unfold when, battery_time, read, print, emit, sleep, bind, ret;
    cbn [clock reads trace];
    destruct (H0 c) as (Hg & _);
    destruct (H0 (c + battery_update_timeout self)) as (_ & Hk);
    rewrite Nat.mul_0_l, Nat.add_0_r in Hg, Hk;
    rewrite Hg; cbn [clock reads trace].
  - replace (S (S r)) with (r + (3 - 1))%nat by lia. rewrite Hk.
    eexists _, _. split; [reflexivity |]. cbn [reads trace].
    split; [lia |].
    split; [rewrite <- app_assoc; reflexivity | split; reflexivity].
  - replace (S r) with (r + (2 - 1))%nat by lia. rewrite Hk.
    eexists _, _. split; [reflexivity |]. cbn [reads trace].
    split; [lia |]. split; [reflexivity | split; reflexivity].
Qed.

(** X5: [__check_battery_update_times] has no bound on its passes.  When
    the battery time reads unknown at the guard of every pass and known at
    the check after its sleep, the call never returns: whatever the bound
    [fuel] on the passes, it is still in its loop after [fuel] sleeps of
    [battery_update_timeout] seconds, and no notification has been
    fired. *)
Theorem check_battery_update_times_can_block
    (self : MainRun) (tel : Telemetry) (fuel : nat) (w : World) :
  flaps self tel w ->
  exists w',
    check_battery_update_times self tel fuel w = OutOfFuel w'
    /\ sleeps (new_events w w') = repeat (battery_update_timeout self) fuel
    /\ notifications (new_events w w') = [].
Proof.
  revert w. induction fuel as [| n IH]; intros w H.
  - exists w. split; [reflexivity |].
    unfold new_events. rewrite skipn_all. split; reflexivity.
  - destruct (flapping_pass self tel n w H)
      as (w1 & tr & E & Hr & Ht & Hsl & Hno).
    destruct (IH w1 (flaps_next self tel w w1 H Hr)) as (w' & E' & Hs' & Hn').
    exists w'. rewrite E. split; [exact E' |].
    assert (Htr : exists tr', trace w' = trace w1 ++ tr'
                              /\ new_events w1 w' = tr').
    { assert (Hem : emits (fun _ => True)
                      (check_battery_update_times self tel n)).
      { unfold check_battery_update_times. emits_auto; exact I. }
      destruct (Hem w1) as (tr' & Etr & _). rewrite E' in Etr.
      exists tr'. split; [exact Etr |].
      unfold new_events. cbn [world_of] in Etr. rewrite Etr.
      rewrite skipn_app, skipn_all, Nat.sub_diag. reflexivity. }
    destruct Htr as (tr' & Etr & Enew).
    assert (Hnew : new_events w w' = tr ++ tr').
    { unfold new_events. rewrite Etr, Ht, <- app_assoc.
      rewrite skipn_app, skipn_all, Nat.sub_diag. reflexivity. }
    rewrite Hnew, sleeps_app, notifications_app, Hsl, Hno.
    rewrite Enew in Hs', Hn'. rewrite Hs', Hn'. split; reflexivity.
Qed.

Lemma check_battery_update_times_can_block_witness :
  exists w',
    check_battery_update_times default_run flapping 7 w0 = OutOfFuel w'
    /\ sleeps (new_events w0 w') = repeat 6 7
    /\ notifications (new_events w0 w') = [].
Proof.
  apply (check_battery_update_times_can_block default_run flapping 7 w0).
  intros t j. cbn [reads w0 pass_reads default_run debug Nat.add Nat.sub].
  unfold flapping. cbn [timeRemaining].
  replace (j * 2)%nat with (2 * j)%nat by lia.
  rewrite Nat.even_even.
  replace (2 * j + 1)%nat with (S (2 * j)) by lia.
  rewrite Nat.even_succ, Nat.odd_even. split; reflexivity.
Defined.


(** * One notification for each entry into a state *)

Section StateEntry.

Variable self : MainRun.
Variable tel : Telemetry.

Lemma branch_of_steps (st : PowerState) (fuel : nat) :
  In st [Discharging; Low; Critical; Charging; Full] ->
  branch_of self tel st fuel
  = (when (debug self) (print (entry_message st)) ;;
     wait_of self tel st fuel ;;
     notify_and_hold self tel st fuel).
Proof.
  cbn. intros [<- | [<- | [<- | [<- | [<- | []]]]]]; reflexivity.
Qed.

Lemma debug_line_runs (m : Message) (w : World) :
  when (debug self) (print m) w = Done tt (extend 0 0 (debug_print self m) w).
Proof.
  unfold when, debug_print, extend. destruct (debug self).
  - unfold print, emit. rewrite Z.add_0_r. reflexivity.
  - unfold ret. destruct w as [c r tr]. cbn.
    rewrite Z.add_0_r, app_nil_r. reflexivity.
Qed.

Lemma silent_notifications (tr : list Event) :
  Forall (fun e => notifications [e] = []) tr -> notifications tr = [].
Proof.
  induction 1 as [| e tr He _ IH]; [reflexivity |].
  change (e :: tr) with ([e] ++ tr). rewrite notifications_app, He, IH.
  reflexivity.
Qed.

(** Neither the wait nor the sleep that stands for it fires a
    notification. *)
Lemma wait_of_silent (st : PowerState) (fuel : nat) (w : World) :
  exists tr,
    trace (world_of (wait_of self tel st fuel w)) = trace w ++ tr
    /\ notifications tr = [].
Proof.
  assert (Hem : emits (fun e => notifications [e] = [])
                  (wait_of self tel st fuel)).
  { destruct st; cbn [wait_of]; unfold check_battery_update_times;
      emits_auto; reflexivity. }
  destruct (Hem w) as (tr & E & Hs).
  exists tr. split; [exact E | apply silent_notifications, Hs].
Qed.

Ltac field_fact H :=
  let t := fresh "t" in
  let q := fresh "q" in
  intros t q; generalize (H t q); unfold_guards;
  destruct (tel t q) as [[] [] [] [] cap time];
  cbn [batteryPresent acPresent discharging fullyCharged capacityPercent
       timeRemaining negb andb];
  try discriminate; try reflexivity;
  rewrite ?andb_true_r, ?andb_false_r; try discriminate;
  rewrite ?andb_true_iff; split_comparisons; intuition (try discriminate).

Ltac resolve_guards :=
  repeat progress
    (cbn [clock reads trace negb andb];
     repeat match goal with
            | H : forall t q, _ = _ |- _ => rewrite !H
            end).

(** The guards of the loop lead to the branch of the state whose entry
    condition holds on every read, and the loop is where that branch is for
    as long as the branch has not returned. *)
Lemma loop_enters_branch (st : PowerState) :
  valid_thresholds self ->
  In st [Discharging; Low; Critical; Charging; Full] ->
  (forall t q, entry_condition self (tel t q) st = true) ->
  forall fuel w w',
    branch_of self tel st (S fuel)
      (mkWorld (clock w) (entry_reads st + reads w) (trace w))
    = OutOfFuel w' ->
    run_main_loop self tel (S fuel) w = OutOfFuel w'.
Proof.
  intros (Hpos & Hmc & Hcl & Hl) Hin H fuel w w' E.
  cbn in Hin.
  destruct Hin as [<- | [<- | [<- | [<- | [<- | []]]]]];
    cbn [branch_of entry_reads Nat.add] in E;
    assert (Hp : forall t q, batteryPresent (tel t q) = true)
      by field_fact H;
    unfold run_main_loop; cbn [while_]; unfold main_tick at 1;
    cbn [while_]; unfold battery_tick, discharge_block, ac_block.
  - assert (Ha : forall t q, acPresent (tel t q) = false) by field_fact H.
    assert (Hd : forall t q, discharging (tel t q) = true) by field_fact H.
    assert (Hc : forall t q,
               (capacityPercent (tel t q) >? battery_low_value self) = true)
      by field_fact H.
    unfold_reads. unfold when, bind, read, ret. resolve_guards.
    rewrite E. reflexivity.
  - assert (Ha : forall t q, acPresent (tel t q) = false) by field_fact H.
    assert (Hd : forall t q, discharging (tel t q) = true) by field_fact H.
    assert (Hc1 : forall t q,
               (capacityPercent (tel t q) >? battery_low_value self) = false)
      by field_fact H.
    assert (Hc2 : forall t q,
               (battery_low_value self >=? capacityPercent (tel t q)) = true)
      by field_fact H.
    assert (Hc3 : forall t q,
               (capacityPercent (tel t q) >? battery_critical_value self)
               = true)
      by field_fact H.
    unfold_reads. unfold when, bind, read, ret. resolve_guards.
    rewrite E. reflexivity.
  - assert (Ha : forall t q, acPresent (tel t q) = false) by field_fact H.
    assert (Hd : forall t q, discharging (tel t q) = true) by field_fact H.
    assert (Hc1 : forall t q,
               (capacityPercent (tel t q) >? battery_low_value self) = false)
      by field_fact H.
    assert (Hc2 : forall t q,
               (battery_low_value self >=? capacityPercent (tel t q)) = true)
      by field_fact H.
    assert (Hc3 : forall t q,
               (capacityPercent (tel t q) >? battery_critical_value self)
               = false)
      by field_fact H.
    assert (Hc4 : forall t q,
               (battery_critical_value self >=? capacityPercent (tel t q))
               = true)
      by field_fact H.
    assert (Hc5 : forall t q,
               (capacityPercent (tel t q) >? battery_minimal_value self)
               = true)
      by field_fact H.
    unfold_reads. unfold when, bind, read, ret. resolve_guards.
    rewrite E. reflexivity.
  - assert (Ha : forall t q, acPresent (tel t q) = true) by field_fact H.
    assert (Hd : forall t q, discharging (tel t q) = false) by field_fact H.
    assert (Hf : forall t q, fullyCharged (tel t q) = false) by field_fact H.
    unfold_reads. unfold when, bind, read, ret. resolve_guards.
    rewrite E. reflexivity.
  - assert (Ha : forall t q, acPresent (tel t q) = true) by field_fact H.
    assert (Hd : forall t q, discharging (tel t q) = false) by field_fact H.
    assert (Hf : forall t q, fullyCharged (tel t q) = true) by field_fact H.
    unfold_reads. unfold when, bind, read, ret. resolve_guards.
    rewrite E. reflexivity.
Qed.

(** While the battery time flaps, the wait is still in its loop at every
    bound on its passes. *)
Lemma flapping_wait_blocks (fuel : nat) :
  forall w, flaps self tel w ->
    exists w', check_battery_update_times self tel fuel w = OutOfFuel w'.
Proof.
  induction fuel as [| n IH]; intros w H.
  - exists w. reflexivity.
  - destruct (flapping_pass self tel n w H) as (w1 & tr & E & Hr & _).
    destruct (IH w1 (flaps_next self tel w w1 H Hr)) as (w' & E').
    exists w'. rewrite E. exact E'.
Qed.

(** The loop from the top of [while True], in terms of the wait of the
    branch: nothing is fired while the wait has not returned; once it has,
    the entry notification and then one-second sleeps only. *)
Lemma loop_waits_then_holds (st : PowerState) :
  valid_thresholds self ->
  In st [Discharging; Low; Critical; Charging; Full] ->
  (forall t q, entry_condition self (tel t q) st = true) ->
  forall fuel w,
    match wait_of self tel st (S fuel) (wait_world self st w) with
    | Done _ w1 =>
        exists n k,
          announces st n
          /\ run_main_loop self tel (S fuel) w
             = OutOfFuel (extend k (Z.of_nat (S fuel))
                            (Notify n :: repeat (Sleep 1) (S fuel)) w1)
          /\ notifications
               (new_events w (world_of (run_main_loop self tel (S fuel) w)))
             = [n]
    | OutOfFuel w1 =>
        run_main_loop self tel (S fuel) w = OutOfFuel w1
        /\ notifications
             (new_events w (world_of (run_main_loop self tel (S fuel) w)))
           = []
    end.
Proof.
  intros Hv Hin H fuel w.
  assert (Hb := loop_enters_branch st Hv Hin H fuel w).
  rewrite (branch_of_steps st (S fuel) Hin) in Hb.
  assert (Hdbg : when (debug self) (print (entry_message st))
                   (mkWorld (clock w) (entry_reads st + reads w) (trace w))
                 = Done tt (wait_world self st w)).
  { rewrite debug_line_runs. unfold wait_world, extend.
    cbn [clock reads trace]. rewrite Z.add_0_r. reflexivity. }
  rewrite (bind_done _ _ _ _ _ Hdbg) in Hb.
  destruct (wait_of_silent st (S fuel) (wait_world self st w))
    as (tr & Etr & Hsilent).
  assert (Hnew : forall w1,
             trace w1 = trace (wait_world self st w) ++ tr ->
             forall evs c r,
               notifications (new_events w (mkWorld c r (trace w1 ++ evs)))
               = notifications evs).
  { intros w1 E1 evs c r. rewrite E1. unfold wait_world, extend.
    cbn [trace]. rewrite <- !app_assoc, new_events_app.
    rewrite !notifications_app, Hsilent.
    unfold debug_print. destruct (debug self); reflexivity. }
  destruct (wait_of self tel st (S fuel) (wait_world self st w))
    as [[] w1 | w1] eqn:Ew; cbn [world_of] in Etr.
  - destruct (hold_loop_never_fires_again self tel st Hin H (S fuel) w1)
      as (n & k & Han & E & _).
    assert (Hrun : run_main_loop self tel (S fuel) w
                   = OutOfFuel (extend k (Z.of_nat (S fuel))
                                  (Notify n :: repeat (Sleep 1) (S fuel)) w1)).
    { apply Hb. unfold bind at 1. rewrite Ew. exact E. }
    exists n, k. split; [exact Han |]. split; [exact Hrun |].
    rewrite Hrun. cbn [world_of]. unfold extend.
    rewrite (Hnew w1 Etr).
    change (Notify n :: repeat (Sleep 1) (S fuel))
      with ([Notify n] ++ repeat (Sleep 1) (S fuel)).
    rewrite notifications_app, notifications_sleeps. reflexivity.
  - assert (Hrun : run_main_loop self tel (S fuel) w = OutOfFuel w1).
    { apply Hb. unfold bind at 1. rewrite Ew. reflexivity. }
    split; [exact Hrun |]. rewrite Hrun. cbn [world_of].
    destruct w1 as [c1 r1 tr1]. cbn [trace] in Etr.
    rewrite <- (app_nil_r tr1).
    change tr1 with (trace (mkWorld c1 r1 tr1)) at 1.
    rewrite (Hnew (mkWorld c1 r1 tr1) Etr). reflexivity.
Qed.

End StateEntry.

(** C2, as amended: for every state S among Discharging, Low, Critical,
    Charging and Full and every telemetry on which the entry condition of S
    holds at every read, the loop fires at most one notification, the entry
    notification of S.  From the notification on, its hold loop only sleeps
    one second per pass, whatever the bound on its passes: it never ends
    and never fires again.  With valid thresholds the loop, from the top of
    [while True], reaches the wait of the branch (the wait for the battery
    time; one sleep for Full); while that wait has not returned nothing is
    fired, and once it has returned the effects that follow it are exactly
    the one notification and then one-second sleeps. *)
Theorem one_notification_per_state_entry
    (self : MainRun) (tel : Telemetry) (st : PowerState) :
  In st [Discharging; Low; Critical; Charging; Full] ->
  (forall t q, entry_condition self (tel t q) st = true) ->
  forall fuel w,
    (exists n k,
        announces st n
        /\ notify_and_hold self tel st fuel w
           = OutOfFuel (extend k (Z.of_nat fuel)
                          (Notify n :: repeat (Sleep 1) fuel) w)
        /\ notifications
             (new_events w (world_of (notify_and_hold self tel st fuel w)))
           = [n])
    /\ (valid_thresholds self ->
        match wait_of self tel st (S fuel) (wait_world self st w) with
        | Done _ w1 =>
            exists n k,
              announces st n
              /\ run_main_loop self tel (S fuel) w
                 = OutOfFuel (extend k (Z.of_nat (S fuel))
                                (Notify n :: repeat (Sleep 1) (S fuel)) w1)
              /\ notifications
                   (new_events w
                      (world_of (run_main_loop self tel (S fuel) w)))
                 = [n]
        | OutOfFuel w1 =>
            run_main_loop self tel (S fuel) w = OutOfFuel w1
            /\ notifications
                 (new_events w
                    (world_of (run_main_loop self tel (S fuel) w)))
               = []
        end).
Proof.
  intros Hin H fuel w. split.
  - exact (hold_loop_never_fires_again self tel st Hin H fuel w).
  - intros Hv. exact (loop_waits_then_holds self tel st Hv Hin H fuel w).
Qed.

Lemma one_notification_per_state_entry_witness :
  (exists n k,
      announces Low n
      /\ notify_and_hold default_run
           (constant (mkSample true false true false 20 (TimeLeft 45))) Low 3 w0
         = OutOfFuel (extend k 3 [Notify n; Sleep 1; Sleep 1; Sleep 1] w0)
      /\ notifications
           (new_events w0
              (world_of
                 (notify_and_hold default_run
                    (constant (mkSample true false true false 20 (TimeLeft 45)))
                    Low 3 w0)))
         = [n])
  /\ (exists n k,
         announces Low n
         /\ run_main_loop default_run
              (constant (mkSample true false true false 20 (TimeLeft 45))) 3 w0
            = OutOfFuel
                (extend k 3 [Notify n; Sleep 1; Sleep 1; Sleep 1]
                   (mkWorld 0 7 []))
         /\ notifications
              (new_events w0
                 (world_of
                    (run_main_loop default_run
                       (constant
                          (mkSample true false true false 20 (TimeLeft 45)))
                       3 w0)))
            = [n]).
Proof.
  destruct (one_notification_per_state_entry default_run
              (constant (mkSample true false true false 20 (TimeLeft 45))) Low)
    with (fuel := 2%nat) (w := w0) as [_ Hloop].
  - cbn. tauto.
  - intros t q. reflexivity.
  - split.
    + destruct (one_notification_per_state_entry default_run
                  (constant (mkSample true false true false 20 (TimeLeft 45)))
                  Low)
        with (fuel := 3%nat) (w := w0) as [Hhold _].
      * cbn. tauto.
      * intros t q. reflexivity.
      * exact Hhold.
    + apply Hloop. cbv. repeat split; discriminate.
Defined.

(** The claim as it stands, "exactly one notification", fails: on
    [flap_low] the entry condition of Low holds at every read, and the
    loop never fires a notification, whatever the bound on its loops; the
    wait for the battery time, which comes before the notification, does
    not return. *)
Lemma no_notification_while_time_flaps :
  valid_thresholds default_run
  /\ (forall t q, entry_condition default_run (flap_low t q) Low = true)
  /\ forall fuel,
       notifications
         (new_events w0 (world_of (run_main_loop default_run flap_low fuel w0)))
       = [].
Proof.
  assert (Hv : valid_thresholds default_run)
    by (cbv; repeat split; discriminate).
  assert (Hc : forall t q, entry_condition default_run (flap_low t q) Low = true)
    by (intros t q; reflexivity).
  split; [exact Hv |]. split; [exact Hc |].
  intros [| fuel]; [reflexivity |].
  assert (Hloop := loop_waits_then_holds default_run flap_low Low Hv
                     (or_intror (or_introl eq_refl)) Hc fuel w0).
  assert (Hflaps : flaps default_run flap_low (wait_world default_run Low w0)).
  { intros t j.
    cbn [wait_world extend entry_reads reads w0 pass_reads default_run debug
         Nat.add Nat.sub].
    unfold flap_low. cbn [timeRemaining].
    cbn [Nat.even].
    replace (j * 2)%nat with (2 * j)%nat by lia.
    rewrite Nat.even_even.
    replace (2 * j + 1)%nat with (S (2 * j)) by lia.
    rewrite Nat.even_succ, Nat.odd_even. split; reflexivity. }
  destruct (flapping_wait_blocks default_run flap_low (S fuel) _ Hflaps)
    as (w' & E).
  cbn [wait_of] in Hloop. rewrite E in Hloop. apply Hloop.
Qed.

(** * Start-up *)

Section StartupFacts.

Import String Startup.
Local Open Scope string_scope.

Variable env : Env.

Lemma check_in_path_found (name : string) (path : list string) (st : State) :
  fst (check_in_path env name path st)
  = existsb (fun p => isfile env (p ++ name)) path.
Proof.
  induction path as [| p path IH]; cbn; [reflexivity |].
  destruct (isfile env (p ++ name)); [reflexivity | exact IH].
Qed.

Lemma check_in_path_keeps (name : string) (path : list string) (st : State) :
  let st' := snd (check_in_path env name path st) in
  screenlock_command st' = screenlock_command st
  /\ minimal_battery_level_command st' = minimal_battery_level_command st
  /\ short_minimal_battery_command st' = short_minimal_battery_command st
  /\ effects st' = effects st.
Proof.
  induction path as [| p path IH]; cbn; [repeat split |].
  destruct (isfile env (p ++ name)); [repeat split | exact IH].
Qed.

Lemma check_in_path_cases (name : string) (st : State) :
  exists st',
    check_in_path env name (EXTRA_PROGRAMS_PATH env) st
    = (installed env name, st')
    /\ screenlock_command st' = screenlock_command st
    /\ minimal_battery_level_command st' = minimal_battery_level_command st
    /\ short_minimal_battery_command st' = short_minimal_battery_command st
    /\ effects st' = effects st.
Proof.
  exists (snd (check_in_path env name (EXTRA_PROGRAMS_PATH env) st)).
  split; [| apply check_in_path_keeps].
  unfold installed.
  rewrite <- (check_in_path_found name (EXTRA_PROGRAMS_PATH env) st).
  destruct (check_in_path env name (EXTRA_PROGRAMS_PATH env) st);
    reflexivity.
Qed.

(** X9: [__check_in_path] answers True exactly when some directory of the
    path holds the program; then the path it records is an existing file
    made of a directory of the path and the program's name, and nothing
    else of the state changes; when it answers False the state is as it
    was. *)
Theorem check_in_path_finds_existing_file
    (name : string) (path : list string) (st : State) :
  let (found, st') := check_in_path env name path st in
  (found = true <-> exists p, In p path /\ isfile env (p ++ name) = true)
  /\ (if found
      then isfile env (current_program_path st') = true
           /\ (exists p, In p path /\ current_program_path st' = p ++ name)
           /\ st' = set_current_program_path (current_program_path st') st
      else st' = st).
Proof.
  induction path as [| p path IH]; cbn.
  - split; [| reflexivity].
    split; [discriminate | intros (p & [] & _)].
  - destruct (isfile env (p ++ name)) eqn:E.
    + split.
      * split; [intros _; exists p; auto | reflexivity].
      * cbn. split; [exact E |]. split; [exists p; auto | reflexivity].
    + destruct (check_in_path env name path st) as [found st'].
      destruct IH as [IH1 IH2]. split.
      * rewrite IH1. split.
        -- intros (q & Hq & Hf). exists q. auto.
        -- intros (q & [Hq | Hq] & Hf); [subst; congruence | exists q; auto].
      * destruct found; [| exact IH2].
        destruct IH2 as (H1 & (q & Hq & H2) & H3).
        split; [exact H1 |]. split; [exists q; auto | exact H3].
Qed.

Lemma lock_line_not_empty (command args : string) :
  (command ++ " " ++ args =? "") = false.
Proof. destruct command; reflexivity. Qed.

Lemma announce_lock_fields (command args : string) (st : State) :
  let st' := announce_lock env command args st in
  screenlock_command st' = screenlock_command st
  /\ current_program_path st' = current_program_path st.
Proof.
  unfold announce_lock.
  destruct (found_notify_send_command env && _); [split; reflexivity |].
  destruct (negb _); split; reflexivity.
Qed.

Lemma announce_lock_effects (c command : string) (rest : list string)
    (st : State) :
  split env c = command :: rest ->
  effects (announce_lock env command (join rest) st)
  = (effects st ++ announcement env c)%list.
Proof.
  intros E. unfold announce_lock, announcement. rewrite E.
  destruct (found_notify_send_command env && _); [reflexivity |].
  destruct (negb _); [reflexivity |]. symmetry. apply app_nil_r.
Qed.

Lemma lock_loop_result (commands : list string) :
  forall st,
    (forall c, In c commands -> split env c <> []) ->
    exists st',
      lock_loop env commands st = Some st'
      /\ screenlock_command st'
         = match rev (lock_candidates env commands) with
           | c :: _ => lock_line env c
           | [] => screenlock_command st
           end
      /\ effects st'
         = (effects st
            ++ flat_map (announcement env) (lock_candidates env commands))%list.
Proof.
  induction commands as [| c commands IH]; intros st Hs.
  - exists st. cbn. rewrite app_nil_r. auto.
  - cbn [lock_loop lock_candidates filter].
    destruct (split env c) as [| command rest] eqn:E;
      [exfalso; apply (Hs c); [left; reflexivity | exact E] |].
    cbn [hd].
    destruct (check_in_path_cases command st)
      as (st1 & -> & Hl & _ & _ & He).
    assert (Hs' : forall c', In c' commands -> split env c' <> [])
      by (intros c' Hc'; apply Hs; right; exact Hc').
    destruct (installed env command).
    + destruct (IH (announce_lock env command (join rest)
                      (set_screenlock_command (command ++ " " ++ join rest)
                         st1)) Hs')
        as (st' & Hrun & Hcmd & Heff).
      exists st'. split; [exact Hrun |]. split.
      * rewrite Hcmd. fold (lock_candidates env commands).
        cbn [rev].
        destruct (rev (lock_candidates env commands)); cbn [app].
        -- rewrite (proj1 (announce_lock_fields _ _ _)). cbn.
           unfold lock_line. rewrite E. reflexivity.
        -- reflexivity.
      * rewrite Heff. fold (lock_candidates env commands).
        rewrite (announce_lock_effects c command rest _ E). cbn [effects
          set_screenlock_command flat_map].
        rewrite He, <- app_assoc. reflexivity.
    + destruct (IH st1 Hs') as (st' & Hrun & Hcmd & Heff).
      exists st'. split; [exact Hrun |]. split.
      * rewrite Hcmd, Hl. reflexivity.
      * rewrite Heff, He. reflexivity.
Qed.

Lemma lock_loop_raises (commands : list string) :
  forall st,
    lock_loop env commands st = None
    <-> exists c, In c commands /\ split env c = [].
Proof.
  induction commands as [| c commands IH]; intros st; cbn [lock_loop].
  - split; [discriminate | intros (c & [] & _)].
  - destruct (split env c) as [| command rest] eqn:E.
    + split; [intros _; exists c; split; [left; reflexivity | exact E]
             | reflexivity].
    + destruct (check_in_path env command (EXTRA_PROGRAMS_PATH env) st)
        as [found st1].
      assert (Hin : (exists c', In c' (c :: commands) /\ split env c' = [])
                    <-> exists c', In c' commands /\ split env c' = []).
      { split.
        - intros (c' & [Hc | Hc] & Hn); [subst; congruence | exists c'; auto].
        - intros (c' & Hc & Hn). exists c'. split; [right |]; assumption. }
      rewrite Hin. destruct found; apply IH.
Qed.

(** X10: with no lock command configured, [__set_lock_command] goes through
    the whole of [SCREEN_LOCK_COMMANDS]: the command it keeps is the LAST
    entry of the list whose program is installed (the comment in
    [internal_config.py] says the first), every installed entry is
    announced in turn, and the missing-dependency message is shown exactly
    when no entry is installed. *)
Theorem set_lock_command_last_found_wins (st : State) :
  screenlock_command st = "" ->
  (forall c, In c (SCREEN_LOCK_COMMANDS env) -> split env c <> []) ->
  exists st',
    set_lock_command env st = Some st'
    /\ screenlock_command st'
       = match rev (lock_candidates env (SCREEN_LOCK_COMMANDS env)) with
         | c :: _ => lock_line env c
         | [] => ""
         end
    /\ effects st'
       = (effects st
          ++ flat_map (announcement env)
               (lock_candidates env (SCREEN_LOCK_COMMANDS env))
          ++ match lock_candidates env (SCREEN_LOCK_COMMANDS env) with
             | [] => [lock_missing env]
             | _ => []
             end)%list.
Proof.
  intros He Hs. unfold set_lock_command. rewrite He. cbn [String.eqb].
  destruct (lock_loop_result (SCREEN_LOCK_COMMANDS env) st Hs)
    as (st1 & -> & Hcmd & Heff).
  rewrite He in Hcmd.
  destruct (rev (lock_candidates env (SCREEN_LOCK_COMMANDS env)))
    as [| c l] eqn:Er.
  - assert (Ec : lock_candidates env (SCREEN_LOCK_COMMANDS env) = []).
    { rewrite <- (rev_involutive (lock_candidates _ _)), Er. reflexivity. }
    rewrite Hcmd. cbn [String.eqb]. rewrite Ec in *.
    eexists. split; [reflexivity |]. unfold lock_missing.
    destruct (found_notify_send_command env); cbn; rewrite Heff, Hcmd;
      cbn; rewrite ?app_nil_r; auto.
  - assert (Hin : In c (lock_candidates env (SCREEN_LOCK_COMMANDS env))).
    { apply in_rev. rewrite Er. left. reflexivity. }
    assert (Hx : (screenlock_command st1 =? "") = false).
    { rewrite Hcmd. unfold lock_line.
      apply filter_In in Hin. destruct Hin as [Hc _].
      destruct (split env c) eqn:E; [exfalso; exact (Hs c Hc E) |].
      apply lock_line_not_empty. }
    rewrite Hx. exists st1. split; [reflexivity |]. split; [exact Hcmd |].
    rewrite Heff.
    destruct (lock_candidates env (SCREEN_LOCK_COMMANDS env));
      [destruct Hin |].
    rewrite app_nil_r. reflexivity.
Qed.

(** X11: [__set_lock_command] ends in an [IndexError] exactly when the
    command it splits has no word: the configured command when there is
    one, else some entry of [SCREEN_LOCK_COMMANDS]. *)
Theorem set_lock_command_raises (st : State) :
  set_lock_command env st = None
  <-> if screenlock_command st =? ""
      then exists c, In c (SCREEN_LOCK_COMMANDS env) /\ split env c = []
      else split env (screenlock_command st) = [].
Proof.
  unfold set_lock_command.
  destruct (screenlock_command st =? "").
  - rewrite <- (lock_loop_raises (SCREEN_LOCK_COMMANDS env) st).
    destruct (lock_loop env (SCREEN_LOCK_COMMANDS env) st) as [st1 |];
      [| split; reflexivity].
    destruct (screenlock_command st1 =? ""); split; discriminate.
  - destruct (split env (screenlock_command st));
      split; try reflexivity; discriminate.
Qed.

(** X12: a configured lock command that has a word is kept as it was
    given and announced, and is never looked for in the path: the stored
    command and the recorded program path are unchanged, whatever the file
    system holds. *)
Theorem configured_lock_command_kept (st : State) :
  screenlock_command st <> "" ->
  split env (screenlock_command st) <> [] ->
  exists st',
    set_lock_command env st = Some st'
    /\ screenlock_command st' = screenlock_command st
    /\ current_program_path st' = current_program_path st
    /\ effects st'
       = (effects st ++ announcement env (screenlock_command st))%list.
Proof.
  intros Hne Hs. unfold set_lock_command.
  apply String.eqb_neq in Hne. rewrite Hne.
  destruct (split env (screenlock_command st)) as [| command rest] eqn:E;
    [congruence |].
  eexists. split; [reflexivity |].
  destruct (announce_lock_fields command (join rest) st) as [H1 H2].
  split; [exact H1 |]. split; [exact H2 |].
  apply announce_lock_effects. exact E.
Qed.

Ltac probe_path :=
  match goal with
  | |- context [check_in_path ?env ?c (EXTRA_PROGRAMS_PATH ?env) ?s] =>
      let s1 := fresh "st" in
      destruct (check_in_path_cases c s) as (s1 & -> & _ & _ & _ & _);
      destruct (installed env c) eqn:?
  end.

Lemma minimal_loop_finds (commands : list string) (action : string) :
  forall st,
    let f := fst (minimal_loop env commands action st) in
    truthy (hibernate_command f) || truthy (suspend_command f)
    || truthy (power_off_command f) || truthy (suspend_hybrid_command f)
    = true.
Proof.
  induction commands as [| c commands IH]; intros st; cbn [minimal_loop].
  - reflexivity.
  - destruct (check_in_path env c (EXTRA_PROGRAMS_PATH env) st)
      as [[] st1]; [| apply IH].
    repeat match goal with
           | |- context [if ?b then _ else _] => destruct b
           end; try reflexivity; apply IH.
Qed.

Lemma minimal_loop_effects (commands : list string) (action : string) :
  forall st,
    let st' := snd (minimal_loop env commands action st) in
    exists probed,
      incl probed commands
      /\ effects st' = (effects st ++ map print_command probed)%list.
Proof.
  induction commands as [| c commands IH]; intros st; cbn [minimal_loop].
  - exists []. split; [apply incl_refl | symmetry; apply app_nil_r].
  - destruct (check_in_path_cases c st) as (st1 & -> & _ & _ & _ & He).
    destruct (installed env c).
    + assert (Hone : incl [c] (c :: commands) /\
                     effects (effect (print_command c) st1)
                     = (effects st ++ map print_command [c])%list).
      { split; [intros x [<- | []]; left; reflexivity |].
        cbn. rewrite He. reflexivity. }
      repeat match goal with
             | |- context [if ?b then _ else _] => destruct b
             end; try (exists [c]; exact Hone).
      destruct (IH (effect (print_command c) st1)) as (l & Hl & Hx).
      exists (c :: l). split.
      * intros x [<- | Hx']; [left; reflexivity | right; apply Hl, Hx'].
      * rewrite Hx. cbn. rewrite He, <- app_assoc. reflexivity.
    + destruct (IH st1) as (l & Hl & Hx).
      exists l. split.
      * intros x Hx'. right. apply Hl, Hx'.
      * rewrite Hx, He. reflexivity.
Qed.

Lemma minimal_loop_any_state (commands : list string) (action : string) :
  forall st st',
    fst (minimal_loop env commands action st)
    = fst (minimal_loop env commands action st').
Proof.
  induction commands as [| c commands IH]; intros st st'; cbn [minimal_loop];
    [reflexivity |].
  destruct (check_in_path_cases c st) as (st1 & -> & _).
  destruct (check_in_path_cases c st') as (st1' & -> & _).
  destruct (installed env c); [| apply IH].
  repeat match goal with
         | |- context [if ?b then _ else _] => destruct b
         end; try reflexivity; apply IH.
Qed.

Lemma minimal_loop_step (c : string) (commands : list string)
    (action : string) (st : State) :
  fst (minimal_loop env (c :: commands) action st)
  = if installed env c then
      if (c =? "pm-hibernate") && (action =? "hibernate")
      then mkFound "" ("sudo " ++ c) "" ""
      else if (c =? "pm-suspend-hybrid") && (action =? "hybrid")
      then mkFound "" "" ("sudo " ++ c) ""
      else if (c =? "pm-suspend") && (action =? "suspend")
      then mkFound "" "" "" ("sudo " ++ c)
      else if (c =? "hibernate.sh") && (action =? "hibernate")
      then mkFound "" ("sudo " ++ PROGRAM_PATH env ++ "/bin/" ++ c) "" ""
      else if (c =? "suspend.sh") && (action =? "suspend")
      then mkFound "" "" "" ("sudo " ++ PROGRAM_PATH env ++ "/bin/" ++ c)
      else if (c =? "shutdown") && (action =? "shutdown")
      then mkFound (shutdown_script env) "" "" ""
      else fst (minimal_loop env commands action st)
    else fst (minimal_loop env commands action st).
Proof.
  cbn [minimal_loop].
  destruct (check_in_path_cases c st) as (st1 & -> & _).
  destruct (installed env c);
    [| apply minimal_loop_any_state].
  repeat match goal with
         | |- context [if ?b then _ else _] => destruct b
         end; try reflexivity; apply minimal_loop_any_state.
Qed.

Lemma minimal_command_after_loop (st : State) :
  let f := fst (minimal_loop env minimal_battery_commands
                  (minimal_battery_level_command st) st) in
  let st' := set_minimal_battery_level_command env st in
  (minimal_battery_level_command st', short_minimal_battery_command st')
  = if truthy (hibernate_command f)
    then (hibernate_command f, "HIBERNATE")
    else if truthy (suspend_command f)
    then (suspend_command f, "SUSPEND")
    else if truthy (suspend_hybrid_command f)
    then (suspend_hybrid_command f, "SUSPEND BOTH")
    else (power_off_command f, "SHUTDOWN").
Proof.
  cbv zeta. unfold set_minimal_battery_level_command.
  assert (Hf := minimal_loop_finds minimal_battery_commands
                  (minimal_battery_level_command st) st).
  cbv zeta in Hf.
  destruct (minimal_loop env minimal_battery_commands
              (minimal_battery_level_command st) st) as [f st1].
  cbn [fst] in *.
  destruct (truthy (hibernate_command f)), (truthy (suspend_command f)),
    (truthy (suspend_hybrid_command f)), (truthy (power_off_command f));
    try discriminate;
    destruct (found_notify_send_command env),
      (disable_startup_notifications env); reflexivity.
Qed.

Lemma minimal_command_fields (st : State) :
  let st' := set_minimal_battery_level_command env st in
  (minimal_battery_level_command st', short_minimal_battery_command st')
  = chosen_minimal_command env (minimal_battery_level_command st).
Proof.
  cbv zeta. rewrite minimal_command_after_loop.
  unfold chosen_minimal_command, minimal_battery_commands.
  remember (minimal_battery_level_command st) as a eqn:Ea. clear Ea.
  rewrite !minimal_loop_step. cbn [minimal_loop fst].
  cbn [String.eqb Ascii.eqb Bool.eqb andb].
  destruct (a =? "hibernate") eqn:Eh, (a =? "suspend") eqn:Es,
    (a =? "hybrid") eqn:Ey, (a =? "shutdown") eqn:Ed;
    try (exfalso;
         repeat match goal with
                | H : (_ =? _) = true |- _ => apply String.eqb_eq in H
                end; congruence);
    cbn [andb];
    destruct (installed env "shutdown"), (installed env "pm-hibernate"),
      (installed env "pm-suspend"), (installed env "pm-suspend-hybrid"),
      (installed env "suspend.sh"), (installed env "hibernate.sh");
    reflexivity.
Qed.

(** X13: the command [__set_minimal_battery_level_command] stores, and its
    short name, by action and installed programs: the [pm-utils] program
    of the action if installed, else the script of [bin/] for "hibernate"
    and "suspend" if it is there, else the shutdown script; any other
    action, the command line's "poweroff" among them, gives the shutdown
    script whatever is installed. *)
Theorem minimal_command_table (st : State) :
  let st' := set_minimal_battery_level_command env st in
  (minimal_battery_level_command st', short_minimal_battery_command st')
  = chosen_minimal_command env (minimal_battery_level_command st).
Proof. exact (minimal_command_fields st). Qed.

(** X14: [__set_minimal_battery_level_command] shows a "COMMAND" line for
    some of the programs it looks for and then, unless start-up
    notifications are off, what the system will do; the "MINIMAL BATTERY
    VALUE PROGRAM NOT FOUND" message of lines 386-397 is never shown,
    because the loop always leaves a command. *)
Theorem minimal_command_always_found (st : State) :
  exists probed,
    incl probed minimal_battery_commands
    /\ effects (set_minimal_battery_level_command env st)
       = (effects st ++ map print_command probed
          ++ minimal_announcement env
               (snd (chosen_minimal_command env
                       (minimal_battery_level_command st))))%list.
Proof.
  assert (Hshort := f_equal snd (minimal_command_fields st)).
  cbv zeta in Hshort. cbn [snd] in Hshort.
  assert (Hf := minimal_loop_finds minimal_battery_commands
                  (minimal_battery_level_command st) st).
  destruct (minimal_loop_effects minimal_battery_commands
              (minimal_battery_level_command st) st)
    as (probed & Hincl & Heff).
  exists probed. split; [exact Hincl |].
  rewrite <- Hshort. clear Hshort.
  unfold set_minimal_battery_level_command, minimal_announcement.
  cbv zeta in *.
  destruct (minimal_loop env minimal_battery_commands
              (minimal_battery_level_command st) st) as [f st1].
  cbn [fst snd] in *.
  destruct (truthy (hibernate_command f)), (truthy (suspend_command f)),
    (truthy (suspend_hybrid_command f)), (truthy (power_off_command f));
    try discriminate;
    destruct (found_notify_send_command env),
      (disable_startup_notifications env);
    cbn; rewrite Heff, <- ?app_assoc, ?app_nil_r; reflexivity.
Qed.

End StartupFacts.

Section StartupExamples.

Import String.
Local Open Scope string_scope.

Lemma set_lock_command_last_found_wins_witness :
  exists st',
    Startup.set_lock_command Startup.example_env
      (Startup.example_state EmptyString "hybrid") = Some st'
    /\ Startup.screenlock_command st' = "xtrlock -b"
    /\ Startup.effects st'
       = [Startup.notify_using "i3lock" "-c 000000" 6000;
          Startup.notify_using "xtrlock" "-b" 6000].
Proof.
  destruct (set_lock_command_last_found_wins Startup.example_env
              (Startup.example_state EmptyString "hybrid"))
    as (st' & H1 & H2 & H3).
  - reflexivity.
  - intros c Hc.
    cbn in Hc. destruct Hc as [<- | [<- | [<- | [<- | []]]]];
      vm_compute; discriminate.
  - exists st'. split; [exact H1 |]. split; [exact H2 | exact H3].
Defined.

Lemma configured_lock_command_kept_witness :
  exists st',
    Startup.set_lock_command Startup.example_env
      (Startup.example_state "slock -x" "hybrid") = Some st'
    /\ Startup.screenlock_command st' = "slock -x"
    /\ Startup.current_program_path st' = EmptyString
    /\ Startup.effects st' = [Startup.notify_using "slock" "-x" 6000].
Proof.
  destruct (configured_lock_command_kept Startup.example_env
              (Startup.example_state "slock -x" "hybrid"))
    as (st' & H1 & H2 & H3 & H4).
  - discriminate.
  - vm_compute. discriminate.
  - exists st'. split; [exact H1 |]. split; [exact H2 |].
    split; [exact H3 | exact H4].
Defined.

End StartupExamples.

(** X15: the three checks of [__main__] let the program start exactly
    when the thresholds [MainRun.__init__] then stores are valid in the
    sense of C1: [0 < minimal < critical < low <= 100]. *)
Theorem accepted_thresholds_are_valid (args : Startup.Args) (self : MainRun) :
  battery_low_value self = Startup.battery_low_value args ->
  battery_critical_value self = Startup.battery_critical_value args ->
  battery_minimal_value self = Startup.battery_minimal_value args ->
  Startup.check_battery_arguments args = None <-> valid_thresholds self.
Proof.
  intros Hl Hc Hm. unfold valid_thresholds. rewrite Hl, Hc, Hm.
  destruct args as [low critical minimal]. cbn.
  unfold Startup.check_battery_arguments, Startup.check_battery_low_value,
    Startup.check_battery_critical_value,
    Startup.check_battery_minimal_value; cbn.
  split_comparisons; cbn; split; intro Hok;
    try discriminate; try reflexivity; try lia.
Qed.

Lemma accepted_thresholds_are_valid_witness :
  Startup.check_battery_arguments (Startup.mkArgs 23 14 7) = None
  /\ valid_thresholds default_run.
Proof.
  destruct (accepted_thresholds_are_valid (Startup.mkArgs 23 14 7)
              default_run eq_refl eq_refl eq_refl) as [H _].
  split; [reflexivity | apply H; reflexivity].
Defined.

(** X16: run in their order, the three checks can only report six of
    their nine errors: once the low value has passed its check, the
    critical value cannot fail the comparison with the low value, and the
    minimal value can fail neither of its comparisons. *)
Theorem unreachable_threshold_errors (args : Startup.Args) :
  In (Startup.check_battery_arguments args)
    [None;
     Some Startup.low_out_of_range;
     Some Startup.low_not_above_critical;
     Some Startup.low_not_above_minimal;
     Some Startup.critical_out_of_range;
     Some Startup.critical_not_above_minimal;
     Some Startup.minimal_out_of_range].
Proof.
  destruct args as [low critical minimal].
  unfold Startup.check_battery_arguments, Startup.check_battery_low_value,
    Startup.check_battery_critical_value,
    Startup.check_battery_minimal_value; cbn.
  split_comparisons; cbn; try tauto; lia.
Qed.
